(** * keras-cv: RandomResizedCrop and SqueezeAndExciteBlock2D

    A shallow embedding of
      - [keras_cv/layers/preprocessing/random_resized_crop.py]
      - [keras_cv/layers/regularization/squeeze_excite.py]
    and the properties of the crop-geometry sampler, the crop resizer and
    the two constructors.

    Numbers are modelled as the code has them: Python [float] is IEEE-754
    binary64, [tf.float32] is binary32, both through the parameterised
    operations of [SpecFloat] (round to nearest, ties to even); Python
    [int] is [Z].  Dictionaries of tensors are [gmap string Tensor]. *)

From Stdlib Require Import ZArith List Bool Lia String.
From Stdlib Require Import Floats.SpecFloat.
From Stdlib Require Import Reals Lra.
From stdpp Require Import base option gmap strings.
Import ListNotations.

Open Scope string_scope.
Open Scope Z_scope.

(* ===================================================================== *)
(** * Floating point                                                      *)
(* ===================================================================== *)

(** One module per IEEE format; the operations are those of [SpecFloat]
    at the format's precision and maximal exponent. *)
Module Float32.
Definition prec : Z := 24.
Definition emax : Z := 128.
Definition t := spec_float.
Definition add : t -> t -> t := SFadd prec emax.
Definition sub : t -> t -> t := SFsub prec emax.
Definition mul : t -> t -> t := SFmul prec emax.
Definition div : t -> t -> t := SFdiv prec emax.
Definition sqrt : t -> t := SFsqrt prec emax.
Definition of_Z (n : Z) : t := binary_normalize prec emax n 0 false.
Definition zero : t := S754_zero false.
Definition one : t := Eval vm_compute in of_Z 1.
Definition ltb : t -> t -> bool := SFltb.
Definition leb : t -> t -> bool := SFleb.
Definition eqb : t -> t -> bool := SFeqb.
(** Conversion of a Python float (binary64) to [tf.float32]. *)
Definition of_float64 (x : spec_float) : t :=
  match x with
  | S754_finite s m e => binary_round prec emax s m e
  | other => other
  end.
Definition is_nan (x : t) : bool :=
  match x with S754_nan => true | _ => false end.
Definition is_finite (x : t) : bool :=
  match x with S754_zero _ | S754_finite _ _ _ => true | _ => false end.
End Float32.

Module Float64.
Definition prec : Z := 53.
Definition emax : Z := 1024.
Definition t := spec_float.
Definition mul : t -> t -> t := SFmul prec emax.
Definition div : t -> t -> t := SFdiv prec emax.
Definition of_Z (n : Z) : t := binary_normalize prec emax n 0 false.
Definition zero : t := S754_zero false.
Definition one : t := Eval vm_compute in of_Z 1.
(** [n / d] for two integer literals, as a binary64 value. *)
Definition ratio (n d : Z) : t := div (of_Z n) (of_Z d).
End Float64.

Abbreviation float32 := Float32.t.
Abbreviation float64 := Float64.t.

(** The interval test [0 <= x <= 1] on binary32 values. *)
Definition in_unit_interval (x : float32) : bool :=
  Float32.leb Float32.zero x && Float32.leb x Float32.one.

(** A float that is neither negative nor NaN: [+0], a positive finite
    number or [+inf]. *)
Definition nonneg_float (x : spec_float) : Prop :=
  match x with
  | S754_zero _ => True
  | S754_finite s _ _ => s = false
  | S754_infinity s => s = false
  | S754_nan => False
  end.

(** A strictly positive float: a positive finite number or [+inf]. *)
Definition positive_float (x : spec_float) : Prop :=
  match x with
  | S754_finite s _ _ => s = false
  | S754_infinity s => s = false
  | S754_zero _ | S754_nan => False
  end.

(** [tf.minimum(x, y)] and [tf.maximum(x, y)]: NaN when either operand is
    NaN, otherwise [x < y ? x : y] and [x > y ? x : y]. *)
Definition tf_minimum (x y : float32) : float32 :=
  if Float32.is_nan x || Float32.is_nan y then S754_nan
  else if Float32.ltb x y then x else y.

Definition tf_maximum (x y : float32) : float32 :=
  if Float32.is_nan x || Float32.is_nan y then S754_nan
  else if Float32.ltb y x then x else y.

(** [tf.clip_by_value(t, clip_value_min, clip_value_max)]: the minimum with
    the upper bound, then the maximum with the lower bound; a NaN stays a
    NaN. *)
Definition tf_clip_by_value (t lo hi : float32) : float32 :=
  tf_maximum (tf_minimum t hi) lo.

(* ===================================================================== *)
(** * Python values and exceptions                                        *)
(* ===================================================================== *)

Inductive number :=
| Int (n : Z)
| Float (x : float64).

(** Exact comparison of a Python int with a Python float (Python compares
    the mathematical values, without converting the int). *)
Definition Z_float_compare (n : Z) (x : float64) : option comparison :=
  match x with
  | S754_nan => None
  | S754_infinity s => Some (if s then Gt else Lt)
  | S754_zero _ => Some (n ?= 0)
  | S754_finite s m e =>
      let v := cond_Zopp s (Zpos m) in
      Some (if 0 <=? e then n ?= v * 2 ^ e else n * 2 ^ (- e) ?= v)
  end.

Definition number_compare (a b : number) : option comparison :=
  match a, b with
  | Int x, Int y => Some (x ?= y)
  | Float x, Float y => SFcompare x y
  | Int x, Float y => Z_float_compare x y
  | Float x, Int y => option_map CompOpp (Z_float_compare y x)
  end.

Definition number_ltb (a b : number) : bool :=
  match number_compare a b with Some Lt => true | _ => false end.

Definition number_leb (a b : number) : bool :=
  match number_compare a b with Some (Lt | Eq) => true | _ => false end.

Definition number_eqb (a b : number) : bool :=
  match number_compare a b with Some Eq => true | _ => false end.

Definition number_gtb (a b : number) : bool := number_ltb b a.
Definition number_geb (a b : number) : bool := number_leb b a.

(** [min(t)] and [max(t)] on a non-empty tuple: the first item unless a
    later one compares strictly below (above) the current choice. *)
Definition py_min (first : number) (rest : list number) : number :=
  fold_left (fun cur item => if number_ltb item cur then item else cur) rest first.

Definition py_max (first : number) (rest : list number) : number :=
  fold_left (fun cur item => if number_gtb item cur then item else cur) rest first.

(* ===================================================================== *)
(** * Random source and factor samplers                                   *)
(* ===================================================================== *)

(** A random generator (the Keras backend generator behind
    [self._random_generator], an external collaborator): a seed-determined
    stream of raw 32-bit words and the number of words consumed so far.  One
    scalar draw consumes one word. *)
Record RandomGenerator := {
  stream : nat -> Z;
  position : nat
}.

(** The random state a call of the layer can reach: the layer's own
    [self._random_generator], which the two offsets are drawn from, and the
    source the factor-sampler objects draw from.  The sampler objects do not
    hold the layer's generator, so the two are separate. *)
Record RandomState := {
  sampler_source : RandomGenerator;
  _random_generator : RandomGenerator
}.

(** A raw word as a float in [[0, 1)]: its low 23 bits are the fraction
    bits, so the value is [k / 2^23], exactly representable in binary32. *)
Definition uint32_to_float (x : Z) : float32 :=
  match x mod 2 ^ 23 with
  | Zpos m =>
      let '(m', e') :=
        shl_align m (-23)
          (fexp Float32.prec Float32.emax (Zpos (digits2_pos m) + -23)) in
      S754_finite false m' e'
  | _ => S754_zero false
  end.

(** The uniform sampler on a unit draw [rnd]: [rnd * (maxval - minval) +
    minval], in binary32. *)
Definition scale_uniform (minval maxval rnd : float32) : float32 :=
  Float32.add (Float32.mul rnd (Float32.sub maxval minval)) minval.

(** Modelled from the spec: [keras_cv.core.FactorSampler] is not among the
    sources.  The spec's data model gives it as a distribution over a closed
    interval [[min_value, max_value]] that produces one scalar float per
    draw, with the variants uniform-in-range (a constant is the range that
    collapses to a point) and custom distribution (here a transformation of
    the unit draw). *)
Inductive FactorSampler :=
| UniformFactorSampler (lower upper : float32)
| CustomFactorSampler (lower upper : float32) (distribution : float32 -> float32).

Definition sample (f : FactorSampler) (rnd : float32) : float32 :=
  match f with
  | UniformFactorSampler lower upper => scale_uniform lower upper rnd
  | CustomFactorSampler _ _ distribution => distribution rnd
  end.

(* ===================================================================== *)
(** * Python values and exceptions (continued)                            *)
(* ===================================================================== *)

(** The values a factor argument can take.  Tuples hold numbers. *)
Inductive PyValue :=
| PyNone
| PyBool (b : bool)
| PyNumber (n : number)
| PyTuple (items : list number)
| PyFactorSampler (s : FactorSampler).

(** Python truth value: [None], [False], zero and the empty tuple are
    falsy; every other value, NaN and sampler objects included, is truthy. *)
Definition number_truth (n : number) : bool :=
  match n with
  | Int z => negb (z =? 0)
  | Float (S754_zero _) => false
  | Float _ => true
  end.

Definition truth (v : PyValue) : bool :=
  match v with
  | PyNone => false
  | PyBool b => b
  | PyNumber n => number_truth n
  | PyTuple items => match items with [] => false | _ => true end
  | PyFactorSampler _ => true
  end.

(** [a or b]. *)
Definition py_or (a b : PyValue) : PyValue := if truth a then a else b.

(** [v == x] for a float [x]: numbers and booleans compare by value; a
    tuple, [None] or a sampler object is never equal to a float. *)
Definition py_eq_float (v : PyValue) (x : float64) : bool :=
  match v with
  | PyNumber n => number_eqb n (Float x)
  | PyBool b => number_eqb (Int (if b then 1 else 0)) (Float x)
  | PyNone | PyTuple _ | PyFactorSampler _ => false
  end.

(** An f-string is kept as its literal text, with the interpolated values
    beside it. *)
Inductive Exception :=
| ValueError (message : string) (interpolated : list PyValue)
| KeyError (key : string)
| UnboundLocalError (variable : string)
| OverflowError (message : string)
| TypeError (message : string)
| IndexError (message : string)
| InvalidArgumentError (message : string).

(** The outcome of a fallible computation. *)
Inductive Result (A : Type) :=
| Ok (value : A)
| Raise (e : Exception).
Arguments Ok {A} value.
Arguments Raise {A} e.

Definition Result_bind {A B} (c : Result A) (k : A -> Result B) : Result B :=
  match c with
  | Ok x => k x
  | Raise e => Raise e
  end.

Notation "'let?' x ':=' c 'in' k" := (Result_bind c (fun x => k))
  (at level 10, x pattern, c at level 100, k at level 200).

(** [float(n)] for a Python int: the nearest binary64 value, ties to even;
    an int beyond the float range raises [OverflowError]. *)
Definition float_of_int (n : Z) : Result float64 :=
  match Float64.of_Z n with
  | S754_infinity _ => Raise (OverflowError "int too large to convert to float")
  | x => Ok x
  end.

(** [a * b]: an int operand is converted when the other one is a float. *)
Definition py_mul (a b : number) : Result number :=
  match a, b with
  | Int x, Int y => Ok (Int (x * y))
  | Int x, Float y => let? x' := float_of_int x in Ok (Float (Float64.mul x' y))
  | Float x, Int y => let? y' := float_of_int y in Ok (Float (Float64.mul x y'))
  | Float x, Float y => Ok (Float (Float64.mul x y))
  end.

(** [int(v)]: truncation toward zero; NaN and the infinities raise. *)
Definition py_int (v : number) : Result Z :=
  match v with
  | Int n => Ok n
  | Float S754_nan =>
      Raise (ValueError "cannot convert float NaN to integer" [])
  | Float (S754_infinity _) =>
      Raise (OverflowError "cannot convert float infinity to integer")
  | Float (S754_zero _) => Ok 0
  | Float (S754_finite s m e) =>
      Ok (cond_Zopp s (if 0 <=? e then Zpos m * 2 ^ e else Zpos m / 2 ^ (- e)))
  end.

(** [isinstance(v, int)]. *)
Definition isinstance_int (v : number) : bool :=
  match v with Int _ => true | Float _ => false end.

Definition is_Ok {A} (r : Result A) : bool :=
  match r with Ok _ => true | Raise _ => false end.

Definition is_substring (needle haystack : string) : bool :=
  match String.index 0 needle haystack with Some _ => true | None => false end.

(** The exception is a [ValueError] whose message contains [name]. *)
Definition value_error_naming (name : string) (e : Exception) : bool :=
  match e with
  | ValueError message _ => is_substring name message
  | _ => false
  end.

(** Methods of a layer run against the random state and may raise. *)
Definition M (A : Type) : Type := RandomState -> Result A * RandomState.

Definition M_ret {A} (x : A) : M A := fun g => (Ok x, g).

Definition M_bind {A B} (c : M A) (k : A -> M B) : M B :=
  fun g =>
    match c g with
    | (Ok x, g') => k x g'
    | (Raise e, g') => (Raise e, g')
    end.

Definition M_lift {A} (r : Result A) : M A := fun g => (r, g).

Notation "'let*' x ':=' c 'in' k" := (M_bind c (fun x => k))
  (at level 10, x pattern, c at level 100, k at level 200).

(** One scalar draw from a generator: the next word of its stream, as a
    unit float, and the generator one word further. *)
Definition draw (g : RandomGenerator) : float32 * RandomGenerator :=
  (uint32_to_float (stream g (position g)),
   {| stream := stream g; position := S (position g) |}).

(** One scalar draw from the layer's generator. *)
Definition next_unit : M float32 :=
  fun s =>
    let '(rnd, g) := draw (_random_generator s) in
    (Ok rnd, {| sampler_source := sampler_source s; _random_generator := g |}).

(** [self._random_generator.random_uniform((), minval, maxval,
    dtype=tf.float32)]. *)
Definition random_uniform (minval maxval : float32) : M float32 :=
  let* rnd := next_unit in
  M_ret (scale_uniform minval maxval rnd).

(** Modelled from the spec: calling a factor sampler,
    [self.area_factor()] and [self.aspect_ratio_factor()].  The sampler
    classes are not among the sources; the spec has each sampler produce one
    scalar float per draw.  The call takes one unit draw from the samplers'
    source and does not touch the layer's generator. *)
Definition call_factor (f : FactorSampler) : M float32 :=
  fun s =>
    let '(rnd, g) := draw (sampler_source s) in
    (Ok (sample f rnd),
     {| sampler_source := g; _random_generator := _random_generator s |}).



(* ===================================================================== *)
(** * Tensors and the external primitives                                 *)
(* ===================================================================== *)

Inductive DType := tf_uint8 | tf_int32 | tf_float16 | tf_float32 | tf_float64.

Definition DType_eqb (a b : DType) : bool :=
  match a, b with
  | tf_uint8, tf_uint8 | tf_int32, tf_int32 | tf_float16, tf_float16
  | tf_float32, tf_float32 | tf_float64, tf_float64 => true
  | _, _ => false
  end.

(** A tensor: its shape, its element type and its elements in row-major
    order. *)
Record Tensor := {
  shape : list Z;
  dtype : DType;
  elements : list spec_float
}.

(** [tf.expand_dims(t, axis=0)]. *)
Definition tf_expand_dims0 (t : Tensor) : Tensor :=
  {| shape := 1 :: shape t; dtype := dtype t; elements := elements t |}.

(** [tf.squeeze(t, axis=0)]: the leading dimension must be 1. *)
Definition tf_squeeze0 (t : Tensor) : Result Tensor :=
  match shape t with
  | 1 :: rest => Ok {| shape := rest; dtype := dtype t; elements := elements t |}
  | _ => Raise (InvalidArgumentError "Can not squeeze dim[0], expected a dimension of 1")
  end.

(** The numeric kernels are external collaborators with a documented
    contract: the crop-and-resize primitive, the smart-resize primitive and
    the element-type cast. *)
Class Primitives := {
  tf_image_crop_and_resize :
    Tensor -> list (list float32) -> list Z -> Z * Z -> Result Tensor;
  smart_resize : Tensor -> Z * Z -> Result Tensor;
  tf_cast : Tensor -> DType -> Tensor
}.

(** The spatial part of an image shape: [(height, width)] of a single image
    [[H; W; C]] or of a batch [[B; H; W; C]]. *)
Definition spatial_dims (s : list Z) : option (Z * Z) :=
  match s with
  | [h; w; _] => Some (h, w)
  | [_; h; w; _] => Some (h, w)
  | _ => None
  end.

(** The shape of an image or batch after its spatial part is replaced. *)
Definition with_spatial_dims (s : list Z) (size : Z * Z) : list Z :=
  match s with
  | [_; _; c] => [fst size; snd size; c]
  | [b; _; _; c] => [b; fst size; snd size; c]
  | _ => s
  end.

(** An image [[H; W; C]] or a batch [[B; H; W; C]] with positive height and
    width. *)
Definition is_image_shape (s : list Z) : bool :=
  match spatial_dims s with
  | Some (h, w) => (0 <? h) && (0 <? w)
  | None => false
  end.

(** The documented contracts of the primitives.
    - crop-and-resize: for a batch [[B; H; W; C]] with positive height and
      width, [n] boxes of four finite coordinates, [n] box indices into the
      batch and a positive crop size, the result has shape
      [[n; crop_height; crop_width; C]] and type float32; the coordinates
      need not lie inside the image; with a coordinate that is not finite
      (NaN or an infinity) the primitive raises;
    - smart-resize: for an image or a batch and a positive size, the result
      has that spatial size and type float32;
    - cast: keeps the shape and sets the element type. *)
Class PrimitivesContract (P : Primitives) : Prop := {
  crop_and_resize_shape :
    forall image boxes box_indices b h w c th tw,
      shape image = [b; h; w; c] -> 0 < h -> 0 < w ->
      Forall (fun box => length box = 4%nat) boxes ->
      Forall (Forall (fun v => Float32.is_finite v = true)) boxes ->
      length box_indices = length boxes ->
      Forall (fun i => 0 <= i < b) box_indices ->
      0 < th -> 0 < tw ->
      exists out,
        tf_image_crop_and_resize image boxes box_indices (th, tw) = Ok out /\
        shape out = [Z.of_nat (length boxes); th; tw; c] /\
        dtype out = tf_float32;
  crop_and_resize_not_finite :
    forall image boxes box_indices b h w c th tw,
      shape image = [b; h; w; c] -> 0 < h -> 0 < w ->
      Forall (fun box => length box = 4%nat) boxes ->
      Exists (Exists (fun v => Float32.is_finite v = false)) boxes ->
      length box_indices = length boxes ->
      Forall (fun i => 0 <= i < b) box_indices ->
      0 < th -> 0 < tw ->
      exists message,
        tf_image_crop_and_resize image boxes box_indices (th, tw) =
        Raise (InvalidArgumentError message);
  smart_resize_shape :
    forall x size,
      is_image_shape (shape x) = true -> 0 < fst size -> 0 < snd size ->
      exists out,
        smart_resize x size = Ok out /\
        shape out = with_spatial_dims (shape x) size /\
        dtype out = tf_float32;
  cast_shape : forall x d, shape (tf_cast x d) = shape x;
  cast_dtype : forall x d, dtype (tf_cast x d) = d
}.

(* ===================================================================== *)
(** * Inputs of a preprocessing layer                                     *)
(* ===================================================================== *)

(** A layer is called on an image tensor (one image or a batch) or on a
    dictionary of tensors with the images under ["images"]. *)
Inductive Inputs :=
| TensorInputs (images : Tensor)
| DictInputs (entries : gmap string Tensor).

Definition getitem (d : gmap string Tensor) (key : string) : Result Tensor :=
  match d !! key with
  | Some v => Ok v
  | None => Raise (KeyError key)
  end.

(** Modelled from the spec: [keras_cv.utils.preprocessing.ensure_tensor] is
    not among the sources; the spec has the layer work in its configured
    compute precision, so a tensor of another element type is cast. *)
Definition ensure_tensor `{Primitives} (x : Tensor) (d : DType) : Tensor :=
  if DType_eqb (dtype x) d then x else tf_cast x d.

(** The image tensor carried by the inputs. *)
Definition images_of (inputs : Inputs) : option Tensor :=
  match inputs with
  | TensorInputs x => Some x
  | DictInputs d => d !! "images"
  end.

(* ===================================================================== *)
(** * Layer configurations                                                *)
(* ===================================================================== *)

(** The values [get_config] stores: the Python values of the factor
    arguments (numbers, tuples, [None], sampler objects) and strings. *)
Inductive ConfigValue :=
| ConfigPy (v : PyValue)
| ConfigString (s : string).

(** [dict(items)] on a list of pairs: the items are stored in order, so an
    item replaces every earlier item with the same key. *)
Definition py_dict (items : list (string * ConfigValue))
  : gmap string ConfigValue :=
  fold_left (fun d item => <[fst item := snd item]> d) items ∅.

(** [d.items()]. *)
Definition py_items (d : gmap string ConfigValue)
  : list (string * ConfigValue) :=
  map_to_list d.

(** A seed, [None] or an int, as a Python value and back. *)
Definition seed_value (seed : option Z) : PyValue :=
  match seed with
  | Some n => PyNumber (Int n)
  | None => PyNone
  end.

(** Binding the entries of a configuration to keyword parameters (the
    call of the class on the unpacked dictionary): a parameter without an
    entry takes its default.  The result is [None] when the entry is of a
    type the modelled constructors do not take for that parameter. *)
Definition keyword_py (config : gmap string ConfigValue) (name : string)
    (default : PyValue) : option PyValue :=
  match config !! name with
  | None => Some default
  | Some (ConfigPy v) => Some v
  | Some (ConfigString _) => None
  end.

Definition keyword_string (config : gmap string ConfigValue) (name : string)
    (default : string) : option string :=
  match config !! name with
  | None => Some default
  | Some (ConfigString s) => Some s
  | Some (ConfigPy _) => None
  end.

Definition keyword_seed (config : gmap string ConfigValue) : option (option Z) :=
  match config !! "seed" with
  | None | Some (ConfigPy PyNone) => Some None
  | Some (ConfigPy (PyNumber (Int n))) => Some (Some n)
  | Some _ => None
  end.

(* ===================================================================== *)
(** * RandomResizedCrop                                                   *)
(* ===================================================================== *)

Module RandomResizedCrop.

(** The attributes [__init__] sets on [self]; [compute_dtype] comes from
    the keyword arguments handed to the base class. *)
Record t := {
  target_size : Z * Z;
  area_factor : FactorSampler;
  aspect_ratio_factor : FactorSampler;
  interpolation : string;
  seed : option Z;
  compute_dtype : DType
}.

(** The default [(3. / 4., 4. / 3.)]. *)
Definition default_aspect_ratio_factor : PyValue :=
  PyTuple [Float (Float64.ratio 3 4); Float (Float64.ratio 4 3)].

(** The default [(0.08, 1.0)]. *)
Definition default_area_factor : PyValue :=
  PyTuple [Float (Float64.ratio 8 100); Float Float64.one].

(** Reading a local variable that may not have been assigned. *)
Definition read_local {A} (name : string) (v : option A) : Result A :=
  match v with
  | Some x => Ok x
  | None => Raise (UnboundLocalError name)
  end.

Definition no_op_warning : string :=
  "RandomResizedCrop received both `area_factor=0.0` and `aspect_ratio_factor=0.0`. As a result, the layer will perform no augmentation.".

Section Init.

(** [keras_cv.utils.preprocessing.parse_factor(param, min_value,
    max_value, param_name, seed)] is not among the sources: the
    constructor is parameterised by it.  A bound that the call does not
    pass is [None]. *)
Variable parse_factor :
  PyValue -> option number -> option number -> string -> option Z ->
  Result FactorSampler.

(** [__init__]: the constructed layer and the warnings emitted, or the
    exception raised.  [compute_dtype] stands for the keyword arguments that
    are passed on to the base class. *)
Definition __init__ (target_size : Z * Z)
    (area_factor aspect_ratio_factor : PyValue)
    (interpolation : string) (seed : option Z) (compute_dtype : DType)
  : Result (t * list string) :=
  let aspect_ratio_factor := py_or aspect_ratio_factor default_aspect_ratio_factor in
  let? (min_aspect_ratio, max_aspect_ratio) :=
    match aspect_ratio_factor with
    | PyTuple (first :: rest) =>
        Ok (Some (py_min first rest), Some (py_max first rest))
    | PyTuple [] =>
        Raise (ValueError "min() arg is an empty sequence" [])
    | PyFactorSampler _ => Ok (None, None)
    | _ =>
        Raise (ValueError
                 "Expected `aspect_ratio` to be tuple or FactorSampler. Received RandomResizedCrop(aspect_ratio_factor={aspect_ratio_factor})."
                 [aspect_ratio_factor])
    end in
  let? min_value := read_local "min_aspect_ratio" min_aspect_ratio in
  let? max_value := read_local "max_aspect_ratio" max_aspect_ratio in
  let? aspect_ratio_sampler :=
    parse_factor aspect_ratio_factor (Some min_value) (Some max_value)
      "aspect_ratio_factor" seed in
  let? area_sampler :=
    parse_factor area_factor None (Some (Float Float64.one))
      "area_factor" seed in
  let self :=
    {| target_size := target_size;
       area_factor := area_sampler;
       aspect_ratio_factor := aspect_ratio_sampler;
       interpolation := interpolation;
       seed := seed;
       compute_dtype := compute_dtype |} in
  if py_eq_float area_factor Float64.zero
     && py_eq_float aspect_ratio_factor Float64.zero
  then Ok (self, [no_op_warning])
  else Ok (self, []).

End Init.

(** [get_random_transformation]: the boxes [[[y1, x1, y2, x2]]]. *)
Definition get_random_transformation (self : t) : M (list (list float32)) :=
  let* area_factor := call_factor (area_factor self) in
  let* aspect_ratio := call_factor (aspect_ratio_factor self) in
  let new_height :=
    tf_clip_by_value (Float32.sqrt (Float32.div area_factor aspect_ratio))
      Float32.zero Float32.one in
  let new_width :=
    tf_clip_by_value (Float32.sqrt (Float32.mul area_factor aspect_ratio))
      Float32.zero Float32.one in
  let* height_offset :=
    random_uniform
      (tf_minimum Float32.zero (Float32.sub Float32.one new_height))
      (tf_maximum Float32.zero (Float32.sub Float32.one new_height)) in
  let* width_offset :=
    random_uniform
      (tf_minimum Float32.zero (Float32.sub Float32.one new_width))
      (tf_maximum Float32.zero (Float32.sub Float32.one new_width)) in
  let y1 := height_offset in
  let y2 := Float32.add height_offset new_height in
  let x1 := width_offset in
  let x2 := Float32.add width_offset new_width in
  M_ret [[y1; x1; y2; x2]].


Section Call.

Context `{P : Primitives}.

(** The base class method [BaseImageAugmentationLayer.call] is not among
    the sources: [call] is parameterised by it. *)
Variable super_call : t -> Inputs -> bool -> M Inputs.

(** Modelled from the spec: [_ensure_inputs_are_compute_dtype],
    [_format_inputs] and [_format_output] belong to the base class, which
    is not among the sources.  The spec has the layer accept one image
    or a batch, alone or inside a dictionary, and work in its compute
    precision: the images are brought to the compute dtype, a bare tensor
    is wrapped under ["images"] and unwrapped again, and a dictionary
    that carries ["targets"] has them renamed to ["labels"] and back. *)
Definition _ensure_inputs_are_compute_dtype (self : t) (inputs : Inputs)
  : Result Inputs :=
  match inputs with
  | DictInputs d =>
      let? x := getitem d "images" in
      Ok (DictInputs (<["images" := ensure_tensor x (compute_dtype self)]> d))
  | TensorInputs x => Ok (TensorInputs (ensure_tensor x (compute_dtype self)))
  end.

(** Modelled from the spec: [_format_inputs] of the base class (see
    above): the dictionary of tensors, whether the inputs were a dictionary,
    and whether they carried ["targets"]. *)
Definition _format_inputs (inputs : Inputs)
  : gmap string Tensor * bool * bool :=
  match inputs with
  | TensorInputs x => ({["images" := x]}, false, false)
  | DictInputs d =>
      match d !! "targets" with
      | Some targets => (<["labels" := targets]> (delete "targets" d), true, true)
      | None => (d, true, false)
      end
  end.

(** Modelled from the spec: [_format_output] of the base class (see
    above): the inverse of [_format_inputs]. *)
Definition _format_output (output : gmap string Tensor)
    (is_dict use_targets : bool) : Result Inputs :=
  if negb is_dict then
    let? x := getitem output "images" in Ok (TensorInputs x)
  else if use_targets then
    let? labels := getitem output "labels" in
    Ok (DictInputs (<["targets" := labels]> (delete "labels" output)))
  else Ok (DictInputs output).

(** [_resize]. *)
Definition _resize (self : t) (image : Tensor) : Result Tensor :=
  let? outputs := smart_resize image (target_size self) in
  Ok (tf_cast outputs (compute_dtype self)).

(** [augment_image]. *)
Definition augment_image (self : t) (image : Tensor)
    (transformation : list (list float32)) : Result Tensor :=
  let image := tf_expand_dims0 image in
  let boxes := transformation in
  let? augmented_image :=
    tf_image_crop_and_resize image boxes [0] (target_size self) in
  tf_squeeze0 augmented_image.

(** [call]. *)
Definition call (self : t) (inputs : Inputs) (training : bool) : M Inputs :=
  if training then super_call self inputs training
  else
    let* inputs := M_lift (_ensure_inputs_are_compute_dtype self inputs) in
    let '(inputs, is_dict, use_targets) := _format_inputs inputs in
    let output := inputs in
    let* images := M_lift (getitem inputs "images") in
    let* resized := M_lift (_resize self images) in
    let output := <["images" := resized]> output in
    M_lift (_format_output output is_dict use_targets).

End Call.

Section Config.

(** The base class method [get_config] is not among the sources:
    [get_config] is parameterised by the dictionary it returns. *)
Variable super_get_config : t -> gmap string ConfigValue.

(** [get_config]: the base configuration, updated with the five entries of
    this class. *)
Definition get_config (self : t) : gmap string ConfigValue :=
  let config := super_get_config self in
  let config :=
    <["target_size" :=
        ConfigPy (PyTuple [Int (fst (target_size self)); Int (snd (target_size self))])]>
      config in
  let config := <["area_factor" := ConfigPy (PyFactorSampler (area_factor self))]> config in
  let config :=
    <["aspect_ratio_factor" := ConfigPy (PyFactorSampler (aspect_ratio_factor self))]>
      config in
  let config := <["interpolation" := ConfigString (interpolation self)]> config in
  let config := <["seed" := ConfigPy (seed_value (seed self))]> config in
  config.

(** The call of the class on the unpacked configuration, the way Keras
    builds a layer back from a configuration ([Layer.from_config]): the
    constructor is called with the entries as keyword arguments; entries
    it does not name go to the base class, from which [compute_dtype]
    comes.  The result is [None] when [target_size] is missing or an entry
    is outside the types the model of [__init__] takes. *)
Definition from_config
    (parse_factor : PyValue -> option number -> option number -> string ->
                    option Z -> Result FactorSampler)
    (config : gmap string ConfigValue) (compute_dtype : DType)
  : option (Result (t * list string)) :=
  match config !! "target_size" with
  | Some (ConfigPy (PyTuple [Int height; Int width])) =>
      match keyword_py config "area_factor" default_area_factor,
            keyword_py config "aspect_ratio_factor" default_aspect_ratio_factor,
            keyword_string config "interpolation" "bilinear",
            keyword_seed config with
      | Some area_factor, Some aspect_ratio_factor, Some interpolation, Some seed =>
          Some (__init__ parse_factor (height, width) area_factor
                  aspect_ratio_factor interpolation seed compute_dtype)
      | _, _, _, _ => None
      end
  | _ => None
  end.

End Config.

End RandomResizedCrop.

(* ===================================================================== *)
(** * SqueezeAndExciteBlock2D                                             *)
(* ===================================================================== *)

(** The shape of an elementwise operation on two tensors, by the
    broadcasting rule: the dimensions are matched from the last one
    backwards; two dimensions are compatible when they are equal or one of
    them is 1; a missing leading dimension counts as 1. *)
Fixpoint broadcast_reversed (a b : list Z) : option (list Z) :=
  match a, b with
  | [], rest => Some rest
  | rest, [] => Some rest
  | x :: a', y :: b' =>
      if x =? y then option_map (cons x) (broadcast_reversed a' b')
      else if x =? 1 then option_map (cons y) (broadcast_reversed a' b')
      else if y =? 1 then option_map (cons x) (broadcast_reversed a' b')
      else None
  end.

Definition broadcast_shapes (a b : list Z) : option (list Z) :=
  option_map (@rev Z) (broadcast_reversed (rev a) (rev b)).

(** A Keras sublayer object, as the arguments it was built from. *)
Inductive KerasLayer :=
| PoolingLayer (keepdims : bool)
| ConvLayer (filters : Z) (kernel_size : Z * Z) (activation : string).

(** The Keras sublayers and the elementwise product are external
    collaborators: the constructors [GlobalAveragePooling2D(keepdims=...)]
    and [Conv2D(filters, kernel_size, activation=...)], the call of a
    sublayer on a tensor, [tf.math.multiply], and the activation names
    Keras knows. *)
Class KerasLayers := {
  GlobalAveragePooling2D : bool -> Result KerasLayer;
  Conv2D : number -> Z * Z -> string -> Result KerasLayer;
  layer_call : KerasLayer -> Tensor -> Result Tensor;
  tf_math_multiply : Tensor -> Tensor -> Result Tensor;
  activation_known : string -> bool
}.

(** Their documented contracts.
    - the pooling constructor returns the layer;
    - the convolution constructor returns the layer for a positive number
      of filters and a known activation name, and raises [ValueError] for a
      number of filters that is not positive or an unknown activation name;
    and on float32 feature maps [[B; H; W; C]]:
    - the pooling with [keepdims=True] averages over height and width and
      keeps them as dimensions of size 1;
    - a 1x1 convolution with a positive number of filters keeps batch,
      height and width and has that many channels;
    - the product has the broadcast shape of its operands, and raises when
      their shapes do not broadcast. *)
Class KerasLayersContract (K : KerasLayers) : Prop := {
  pooling_init :
    forall keepdims, GlobalAveragePooling2D keepdims = Ok (PoolingLayer keepdims);
  conv_init :
    forall n kernel_size activation,
      0 < n -> activation_known activation = true ->
      Conv2D (Int n) kernel_size activation = Ok (ConvLayer n kernel_size activation);
  conv_init_filters :
    forall n kernel_size activation,
      n <= 0 ->
      exists message interpolated,
        Conv2D (Int n) kernel_size activation =
        Raise (ValueError message interpolated);
  conv_init_activation :
    forall filters kernel_size activation,
      activation_known activation = false ->
      exists message interpolated,
        Conv2D filters kernel_size activation =
        Raise (ValueError message interpolated);
  pooling_shape :
    forall x b h w c,
      shape x = [b; h; w; c] -> dtype x = tf_float32 ->
      exists out,
        layer_call (PoolingLayer true) x = Ok out /\
        shape out = [b; 1; 1; c] /\ dtype out = tf_float32;
  conv_shape :
    forall n activation x b h w c,
      shape x = [b; h; w; c] -> dtype x = tf_float32 -> 0 < n -> 0 < c ->
      exists out,
        layer_call (ConvLayer n (1, 1) activation) x = Ok out /\
        shape out = [b; h; w; n] /\ dtype out = tf_float32;
  multiply_shape :
    forall x y,
      dtype x = tf_float32 -> dtype y = tf_float32 ->
      match broadcast_shapes (shape x) (shape y) with
      | Some s =>
          exists out,
            tf_math_multiply x y = Ok out /\
            shape out = s /\ dtype out = tf_float32
      | None =>
          exists message,
            tf_math_multiply x y = Raise (InvalidArgumentError message)
      end
}.

Module SqueezeAndExciteBlock2D.

(** The attributes set by [__init__]: the arguments, the bottleneck width
    and the three sublayers. *)
Record t := {
  filters : number;
  ratio : number;
  bottleneck_filters : Z;
  squeeze_activation : string;
  excite_activation : string;
  global_average_pool : KerasLayer;
  squeeze_conv : KerasLayer;
  excite_conv : KerasLayer
}.

(** [__init__]: the two argument tests, the bottleneck width
    [int(filters * ratio)], and the three sublayers; a sublayer constructor
    that raises ends the construction. *)
Definition __init__ `{KerasLayers} (filters ratio : number)
    (squeeze_activation excite_activation : string) : Result t :=
  if number_leb ratio (Float Float64.zero) || number_geb ratio (Float Float64.one)
  then
    Raise (ValueError "`ratio` should be a float between 0 and 1. Got {ratio}"
             [PyNumber ratio])
  else if number_leb filters (Int 0) || negb (isinstance_int filters)
  then
    Raise (ValueError "`filters` should be a positive integer. Got {filters}"
             [PyNumber filters])
  else
    let? product := py_mul filters ratio in
    let? bottleneck := py_int product in
    let? global_average_pool := GlobalAveragePooling2D true in
    let? squeeze_conv := Conv2D (Int bottleneck) (1, 1) squeeze_activation in
    let? excite_conv := Conv2D filters (1, 1) excite_activation in
    Ok {| filters := filters;
          ratio := ratio;
          bottleneck_filters := bottleneck;
          squeeze_activation := squeeze_activation;
          excite_activation := excite_activation;
          global_average_pool := global_average_pool;
          squeeze_conv := squeeze_conv;
          excite_conv := excite_conv |}.

(** The claim's conditions: the ratio lies strictly in [(0, 1)], and the
    filter count is a positive integer. *)
Definition ratio_in_range (ratio : number) : bool :=
  number_ltb (Float Float64.zero) ratio && number_ltb ratio (Float Float64.one).

Definition positive_integer (filters : number) : bool :=
  match filters with
  | Int n => 0 <? n
  | Float _ => false
  end.

(** A well-formed number: a float is a valid binary64 value. *)
Definition well_formed (v : number) : bool :=
  match v with
  | Int _ => true
  | Float x => valid_binary Float64.prec Float64.emax x
  end.

(** The filter count, when it is an integer, is within the float range:
    [float(filters)] does not overflow. *)
Definition convertible (filters : number) : bool :=
  match filters with
  | Int n => is_Ok (float_of_int n)
  | Float _ => true
  end.

(** The bottleneck width of line 66, [int(filters * ratio)]. *)
Definition bottleneck_of (filters ratio : number) : Result Z :=
  let? product := py_mul filters ratio in
  py_int product.

(** [call]: the pooling, the two convolutions and the product with the
    inputs; [training] is not read. *)
Definition call `{KerasLayers} (self : t) (inputs : Tensor) (training : bool)
  : Result Tensor :=
  let? x := layer_call (global_average_pool self) inputs in
  let? x := layer_call (squeeze_conv self) x in
  let? x := layer_call (excite_conv self) x in
  let? x := tf_math_multiply x inputs in
  Ok x.

(** [get_config]: the items of the base configuration followed by the four
    entries of this class, as one dictionary.  The base configuration is a
    parameter: the base class method is a Keras one. *)
Definition get_config (base_config : gmap string ConfigValue) (self : t)
  : gmap string ConfigValue :=
  let config :=
    [("filters", ConfigPy (PyNumber (filters self)));
     ("ratio", ConfigPy (PyNumber (ratio self)));
     ("squeeze_activation", ConfigString (squeeze_activation self));
     ("excite_activation", ConfigString (excite_activation self))] in
  py_dict (py_items base_config ++ config).

(** The call of the class on the unpacked configuration, the way Keras
    builds a layer back from a configuration: the constructor is called
    with the entries as keyword arguments.  The result is [None] when
    [filters] is missing or an entry is outside the types the model of
    [__init__] takes. *)
Definition from_config `{KerasLayers} (config : gmap string ConfigValue)
  : option (Result t) :=
  match config !! "filters" with
  | Some (ConfigPy (PyNumber filters)) =>
      match keyword_py config "ratio" (PyNumber (Float (Float64.ratio 1 4))),
            keyword_string config "squeeze_activation" "relu",
            keyword_string config "excite_activation" "sigmoid" with
      | Some (PyNumber ratio), Some squeeze_activation, Some excite_activation =>
          Some (__init__ filters ratio squeeze_activation excite_activation)
      | _, _, _ => None
      end
  | _ => None
  end.

End SqueezeAndExciteBlock2D.

(* ===================================================================== *)
(** * Concrete collaborators                                              *)
(* ===================================================================== *)

Definition to_float32 (v : number) : float32 :=
  match v with
  | Int n => Float32.of_Z n
  | Float x => Float32.of_float64 x
  end.

(** Modelled from the spec: [keras_cv.utils.preprocessing.parse_factor] is
    not among the sources.  The spec's configuration surface takes a factor
    as a range of two floats, a single float or a sampler.  A sampler is
    returned as it is.  A bound the call does not pass takes its default,
    [0.0] for the lower and [1.0] for the upper bound.  A single number is
    the upper end of a range that starts at the lower bound; a tuple is read
    by its first two items.  The range becomes the uniform sampler over it
    (the constant sampler when its ends are equal), and a range that is
    reversed or outside the bounds is a configuration error that names the
    parameter. *)
Definition parse_factor (param : PyValue) (min_value max_value : option number)
    (param_name : string) (seed : option Z) : Result FactorSampler :=
  let min_value := default (Float Float64.zero) min_value in
  let max_value := default (Float Float64.one) max_value in
  match param with
  | PyFactorSampler s => Ok s
  | _ =>
      let? (lower, upper) :=
        match param with
        | PyNumber x => Ok (min_value, x)
        | PyBool b => Ok (min_value, Int (if b then 1 else 0))
        | PyTuple (lower :: upper :: _) => Ok (lower, upper)
        | PyTuple _ => Raise (IndexError "tuple index out of range")
        | _ => Raise (TypeError "'NoneType' object is not subscriptable")
        end in
      if number_gtb lower upper then
        Raise (ValueError (param_name ++ "[0] must be <= " ++ param_name ++ "[1]") [param])
      else if number_ltb lower min_value || number_gtb upper max_value
      then
        Raise (ValueError (param_name ++ " should be inside of its range") [param])
      else Ok (UniformFactorSampler (to_float32 lower) (to_float32 upper))
  end.

(** A stand-in for the numeric kernels: blank images of the documented
    shape.  It shows that the contracts of the primitives can be met. *)
Definition blank (s : list Z) (d : DType) : Tensor :=
  {| shape := s; dtype := d;
     elements := repeat (S754_zero false) (Z.to_nat (fold_right Z.mul 1 s)) |}.

Definition blank_crop_and_resize (image : Tensor) (boxes : list (list float32))
    (box_indices : list Z) (crop_size : Z * Z) : Result Tensor :=
  match shape image with
  | [b; h; w; c] =>
      if (0 <? h) && (0 <? w)
         && forallb (fun box => Nat.eqb (length box) 4) boxes
         && Nat.eqb (length box_indices) (length boxes)
         && forallb (fun i => (0 <=? i) && (i <? b)) box_indices
         && (0 <? fst crop_size) && (0 <? snd crop_size)
      then
        if forallb (forallb Float32.is_finite) boxes
        then Ok (blank [Z.of_nat (length boxes); fst crop_size; snd crop_size; c] tf_float32)
        else Raise (InvalidArgumentError "boxes values must be finite")
      else Raise (InvalidArgumentError "crop_and_resize: invalid arguments")
  | _ => Raise (InvalidArgumentError "crop_and_resize: image must be 4-D")
  end.

Definition blank_smart_resize (x : Tensor) (size : Z * Z) : Result Tensor :=
  if is_image_shape (shape x) && (0 <? fst size) && (0 <? snd size)
  then Ok (blank (with_spatial_dims (shape x) size) tf_float32)
  else Raise (InvalidArgumentError "smart_resize: invalid arguments").

Definition blank_cast (x : Tensor) (d : DType) : Tensor :=
  {| shape := shape x; dtype := d; elements := elements x |}.

Definition blank_primitives : Primitives :=
  {| tf_image_crop_and_resize := blank_crop_and_resize;
     smart_resize := blank_smart_resize;
     tf_cast := blank_cast |}.

(** A stand-in for the Keras sublayers and the product, on shapes. *)
Definition blank_activation_known (name : string) : bool :=
  bool_decide (name ∈ ["relu"; "sigmoid"; "tanh"; "softmax"; "linear"]).

Definition blank_pooling_init (keepdims : bool) : Result KerasLayer :=
  Ok (PoolingLayer keepdims).

Definition blank_conv_init (filters : number) (kernel_size : Z * Z)
    (activation : string) : Result KerasLayer :=
  if negb (blank_activation_known activation) then
    Raise (ValueError "Unknown activation function: {activation}" [])
  else
    match filters with
    | Int n =>
        if 0 <? n then Ok (ConvLayer n kernel_size activation)
        else
          Raise (ValueError
                   "Invalid value for argument `filters`. Expected a strictly positive value. Received filters={filters}"
                   [PyNumber filters])
    | Float _ =>
        Raise (ValueError "`filters` must be an integer. Received filters={filters}"
                 [PyNumber filters])
    end.

Definition blank_layer_call (layer : KerasLayer) (x : Tensor) : Result Tensor :=
  match layer, shape x with
  | PoolingLayer true, [b; _; _; c] => Ok (blank [b; 1; 1; c] (dtype x))
  | PoolingLayer false, [b; _; _; c] => Ok (blank [b; c] (dtype x))
  | ConvLayer n _ _, [b; h; w; c] =>
      if (0 <? n) && (0 <? c) then Ok (blank [b; h; w; n] (dtype x))
      else Raise (InvalidArgumentError "convolution: invalid arguments")
  | _, _ => Raise (InvalidArgumentError "layer: input must be 4-D")
  end.

Definition blank_multiply (x y : Tensor) : Result Tensor :=
  match broadcast_shapes (shape x) (shape y) with
  | Some s => Ok (blank s (dtype x))
  | None => Raise (InvalidArgumentError "Incompatible shapes")
  end.

Definition blank_layers : KerasLayers :=
  {| GlobalAveragePooling2D := blank_pooling_init;
     Conv2D := blank_conv_init;
     layer_call := blank_layer_call;
     tf_math_multiply := blank_multiply;
     activation_known := blank_activation_known |}.

(** The block of the source's usage example: 16 filters, the default ratio:
    4 bottleneck filters. *)
Definition example_block : SqueezeAndExciteBlock2D.t :=
  {| SqueezeAndExciteBlock2D.filters := Int 16;
     SqueezeAndExciteBlock2D.ratio := Float (Float64.ratio 1 4);
     SqueezeAndExciteBlock2D.bottleneck_filters := 4;
     SqueezeAndExciteBlock2D.squeeze_activation := "relu";
     SqueezeAndExciteBlock2D.excite_activation := "sigmoid";
     SqueezeAndExciteBlock2D.global_average_pool := PoolingLayer true;
     SqueezeAndExciteBlock2D.squeeze_conv := ConvLayer 4 (1, 1) "relu";
     SqueezeAndExciteBlock2D.excite_conv := ConvLayer 16 (1, 1) "sigmoid" |}.

(** A generator whose every word is [w]. *)
Definition constant_generator (w : Z) : RandomGenerator :=
  {| stream := fun _ => w; position := 0 |}.

(** The [k]-th unit draw a generator will produce from where it stands. *)
Definition unit_draw (g : RandomGenerator) (k : nat) : float32 :=
  uint32_to_float (stream g (k + position g)%nat).

(** The generator after [k] more scalar draws. *)
Definition advance (g : RandomGenerator) (k : nat) : RandomGenerator :=
  {| stream := stream g; position := (k + position g)%nat |}.

(** The random state whose two generators produce the word [w] forever. *)
Definition constant_state (w : Z) : RandomState :=
  {| sampler_source := constant_generator w;
     _random_generator := constant_generator w |}.

(** The random state after one call of the sampler: two words of the
    samplers' source and two words of the layer's generator are consumed. *)
Definition after_call (s : RandomState) : RandomState :=
  {| sampler_source := advance (sampler_source s) 2;
     _random_generator := advance (_random_generator s) 2 |}.



(** A sampler pinned to the value [v]: every draw returns [v]. *)
Definition fixed_at (f : FactorSampler) (v : float32) : Prop :=
  forall word, sample f (uint32_to_float word) = v.

(** ** The expressions of the sampler, named *)

Module Spec.

(** Line 113: the clipped candidate height. *)
Definition h (area_factor aspect_ratio : float32) : float32 :=
  tf_clip_by_value (Float32.sqrt (Float32.div area_factor aspect_ratio))
    Float32.zero Float32.one.

(** Line 116: the clipped candidate width. *)
Definition w (area_factor aspect_ratio : float32) : float32 :=
  tf_clip_by_value (Float32.sqrt (Float32.mul area_factor aspect_ratio))
    Float32.zero Float32.one.

(** Lines 121-122 and 127-128: the bounds an offset is drawn between. *)
Definition offset_interval (d : float32) : float32 * float32 :=
  (tf_minimum Float32.zero (Float32.sub Float32.one d),
   tf_maximum Float32.zero (Float32.sub Float32.one d)).

(** The generator's draw between two bounds, on the unit draw [rnd]. *)
Definition uniform (interval : float32 * float32) (rnd : float32) : float32 :=
  scale_uniform (fst interval) (snd interval) rnd.

(** Lines 133-138: the four coordinates. *)
Definition rectangle (height_offset width_offset h w : float32)
  : float32 * float32 * float32 * float32 :=
  (height_offset, width_offset,
   Float32.add height_offset h, Float32.add width_offset w).

(** The whole method on the four unit draws of a call. *)
Definition sample_rectangle (area aspect : FactorSampler)
    (rnd_area rnd_aspect rnd_height rnd_width : float32)
  : float32 * float32 * float32 * float32 :=
  let area_factor := sample area rnd_area in
  let aspect_ratio := sample aspect rnd_aspect in
  let h := h area_factor aspect_ratio in
  let w := w area_factor aspect_ratio in
  let height_offset := uniform (offset_interval h) rnd_height in
  let width_offset := uniform (offset_interval w) rnd_width in
  rectangle height_offset width_offset h w.

End Spec.

(** ** The algorithm of the specification, from its words

    Written from the specification's four steps, not from the code: the
    clip is the clamp to a closed interval, by comparisons; the minimum and
    the maximum are those of two numbers; a uniform draw from [[lo, hi]] is
    the point [lo + rnd * (hi - lo)] for a unit draw [rnd]; the rectangle
    is [(height_offset, width_offset, height_offset + h, width_offset +
    w)]. *)

Module Algorithm.

(** [clip(x, lo, hi)]: [lo] for an [x] below [lo], [hi] for an [x] above
    [hi], and [x] itself otherwise. *)
Definition clip (x lo hi : float32) : float32 :=
  if Float32.ltb x lo then lo
  else if Float32.ltb hi x then hi
  else x.

(** [min(a, b)] and [max(a, b)]. *)
Definition min (a b : float32) : float32 := if Float32.leb a b then a else b.
Definition max (a b : float32) : float32 := if Float32.leb a b then b else a.

(** Step 2: [h = clip(sqrt(area_factor / aspect_ratio), 0.0, 1.0)] and
    [w = clip(sqrt(area_factor * aspect_ratio), 0.0, 1.0)]. *)
Definition h (area_factor aspect_ratio : float32) : float32 :=
  clip (Float32.sqrt (Float32.div area_factor aspect_ratio))
    Float32.zero Float32.one.

Definition w (area_factor aspect_ratio : float32) : float32 :=
  clip (Float32.sqrt (Float32.mul area_factor aspect_ratio))
    Float32.zero Float32.one.

(** Step 3: the interval [[min(0, 1 - d), max(0, 1 - d)]]. *)
Definition offset_interval (d : float32) : float32 * float32 :=
  (min Float32.zero (Float32.sub Float32.one d),
   max Float32.zero (Float32.sub Float32.one d)).

(** A value lies in a closed interval. *)
Definition inside (interval : float32 * float32) (v : float32) : bool :=
  Float32.leb (fst interval) v && Float32.leb v (snd interval).

(** Step 3: the uniform draw from an interval, on the unit draw [rnd]. *)
Definition uniform (interval : float32 * float32) (rnd : float32) : float32 :=
  let '(lo, hi) := interval in
  Float32.add lo (Float32.mul rnd (Float32.sub hi lo)).

End Algorithm.

(** The boxes a rectangle is returned as. *)
Definition boxes_of (r : float32 * float32 * float32 * float32)
  : list (list float32) :=
  let '(y1, x1, y2, x2) := r in [[y1; x1; y2; x2]].

(** The layer of the specification's scenario: [target_size=(50,50)],
    [area_factor=(0.5,0.5)], [aspect_ratio_factor=(1.0,1.0)]. *)
Definition scenario_layer : RandomResizedCrop.t :=
  {| RandomResizedCrop.target_size := (50, 50);
     RandomResizedCrop.area_factor :=
       UniformFactorSampler (S754_finite false 8388608 (-24))
                            (S754_finite false 8388608 (-24));
     RandomResizedCrop.aspect_ratio_factor :=
       UniformFactorSampler Float32.one Float32.one;
     RandomResizedCrop.interpolation := "bilinear";
     RandomResizedCrop.seed := Some 7;
     RandomResizedCrop.compute_dtype := tf_float32 |}.

(** The layer with both factors pinned to [1.0]. *)
Definition full_image_layer : RandomResizedCrop.t :=
  {| RandomResizedCrop.target_size := (50, 50);
     RandomResizedCrop.area_factor := UniformFactorSampler Float32.one Float32.one;
     RandomResizedCrop.aspect_ratio_factor :=
       UniformFactorSampler Float32.one Float32.one;
     RandomResizedCrop.interpolation := "bilinear";
     RandomResizedCrop.seed := Some 7;
     RandomResizedCrop.compute_dtype := tf_float32 |}.

(** A layer the constructor accepts whose aspect ratio is pinned to [-2.0]:
    [target_size=(50,50)], [area_factor=(0.5,0.5)],
    [aspect_ratio_factor=(-2.0,-2.0)]. *)
Definition negative_aspect_layer : RandomResizedCrop.t :=
  {| RandomResizedCrop.target_size := (50, 50);
     RandomResizedCrop.area_factor :=
       UniformFactorSampler (S754_finite false 8388608 (-24))
                            (S754_finite false 8388608 (-24));
     RandomResizedCrop.aspect_ratio_factor :=
       UniformFactorSampler (S754_finite true 8388608 (-22))
                            (S754_finite true 8388608 (-22));
     RandomResizedCrop.interpolation := "bilinear";
     RandomResizedCrop.seed := Some 7;
     RandomResizedCrop.compute_dtype := tf_float32 |}.

(** The number of positions the rounding of [SpecFloat] shifts a
    significand [m] with exponent [e] to the right. *)
Definition shift_amount (prec emax m e : Z) : Z :=
  Z.max 0 (fexp prec emax (Zdigits2 m + e) - e).

(** The real number [m * 2^e]. *)
Definition F2R (m e : Z) : R := (IZR m * powerRZ 2 e)%R.

(** The real value of a finite float (and 0 for the others). *)
Definition SF2R (x : spec_float) : R :=
  match x with
  | S754_finite s m e => F2R (cond_Zopp s (Zpos m)) e
  | _ => 0%R
  end.

(** [x] is a rounding of the positive real [v] to the format: with [d] the
    magnitude of [v] and [c] the exponent the format gives to numbers of
    that magnitude, [v] lies between the multiples [s1] and [s1 + 1] of
    [2^c], and [x] has the value [m1 * 2^c] for [m1] one of the two, the
    upper one only when [v] is not the lower one; a finite [x] is
    canonical, with exponent [c], or [c + 1] when the significand has
    moved up to the next power of two. *)
Definition rounds_to (prec emax : Z) (v : R) (x : spec_float) : Prop :=
  exists d s1 m1 : Z,
    let c := fexp prec emax d in
    (powerRZ 2 (d - 1) <= v < powerRZ 2 d)%R /\
    (F2R s1 c <= v < F2R (s1 + 1) c)%R /\
    (m1 = s1 \/ (m1 = s1 + 1 /\ (F2R s1 c < v)%R)) /\
    match x with
    | S754_zero s => s = false /\ m1 = 0
    | S754_finite s m2 e2 =>
        s = false /\ F2R (Zpos m2) e2 = F2R m1 c /\
        e2 = fexp prec emax (Zdigits2 (Zpos m2) + e2) /\
        (e2 = c \/ e2 = c + 1)
    | S754_infinity _ => emax - prec <= c
    | S754_nan => False
    end.

(* ===================================================================== *)
(** * Facts about the floating-point operations                           *)
(* ===================================================================== *)

Section Rounding.

Variables prec emax : Z.

Lemma iter_pos_invariant {A} (P : A -> Prop) (f : A -> A) :
  (forall x, P x -> P (f x)) ->
  forall p x, P x -> P (SpecFloat.iter_pos f p x).
Proof.
  intros Hf. induction p as [p IH | p IH |]; intros x Hx; simpl; auto.
Qed.

Lemma shr_1_nonneg mrs : 0 <= shr_m mrs -> 0 <= shr_m (shr_1 mrs).
Proof.
  destruct mrs as [m r s]. simpl.
  destruct m as [| [p | p |] | p]; simpl; lia.
Qed.

Lemma shr_nonneg mrs e n : 0 <= shr_m mrs -> 0 <= shr_m (fst (shr mrs e n)).
Proof.
  intros Hm. unfold shr. destruct n; simpl; auto.
  apply (iter_pos_invariant (fun x => 0 <= shr_m x)); auto using shr_1_nonneg.
Qed.

Lemma shr_record_of_loc_m m l : shr_m (shr_record_of_loc m l) = m.
Proof. destruct l as [| []]; reflexivity. Qed.

Lemma shr_fexp_nonneg m e l :
  0 <= m -> 0 <= shr_m (fst (shr_fexp prec emax m e l)).
Proof.
  intros Hm. unfold shr_fexp. apply shr_nonneg.
  rewrite shr_record_of_loc_m. exact Hm.
Qed.

Lemma round_nearest_even_nonneg m l : 0 <= m -> 0 <= round_nearest_even m l.
Proof.
  intros Hm. destruct l as [| []]; simpl; try lia.
  destruct (Z.even m); lia.
Qed.

(** Rounding a non-negative significand with a positive sign gives [+0],
    a positive finite number or [+inf]: never NaN, never a negative. *)
Lemma binary_round_aux_nonneg m e l :
  0 <= m -> nonneg_float (binary_round_aux prec emax false m e l).
Proof.
  intros Hm. unfold binary_round_aux.
  pose proof (shr_fexp_nonneg m e l Hm) as H1.
  destruct (shr_fexp prec emax m e l) as [mrs' e'] eqn:E1. simpl in H1.
  pose proof (shr_fexp_nonneg
                (round_nearest_even (shr_m mrs') (loc_of_shr_record mrs'))
                e' loc_Exact (round_nearest_even_nonneg _ _ H1)) as H2.
  destruct (shr_fexp prec emax _ e' loc_Exact) as [mrs'' e''] eqn:E2.
  simpl in H2.
  destruct (shr_m mrs'') as [| p | p]; simpl; auto; try lia.
  destruct (e'' <=? emax - prec); simpl; reflexivity.
Qed.

Lemma SFsqrt_nonneg x :
  nonneg_float x -> nonneg_float (SFsqrt prec emax x).
Proof.
  destruct x as [sx | sx | | sx mx ex]; simpl; intros Hx; subst; simpl; auto.
  unfold SFsqrt_core_binary.
  destruct (Z.sqrtrem _) as [q r] eqn:Eq.
  apply binary_round_aux_nonneg.
  change q with (fst (q, r)). rewrite <- Eq, Z.sqrtrem_sqrt.
  apply Z.sqrt_nonneg.
Qed.

End Rounding.

Section Positive.

Variables prec emax : Z.

Lemma SFltb_zero_positive s x : SFltb (S754_zero s) x = true -> positive_float x.
Proof.
  unfold SFltb. destruct x as [sx | [] | | [] mx ex]; simpl; congruence.
Qed.

(** A float between zero and a finite float is a zero or a positive finite
    float. *)
Lemma SFleb_between x s0 s m e :
  SFleb (S754_zero s0) x = true -> SFleb x (S754_finite s m e) = true ->
  (exists sx, x = S754_zero sx) \/ (exists mx ex, x = S754_finite false mx ex).
Proof.
  unfold SFleb. destruct x as [sx | [] | | [] mx ex]; simpl; try congruence; eauto.
Qed.

(** A positive finite float. *)
Lemma positive_finite x :
  positive_float x -> Float32.is_finite x = true ->
  exists mx ex, x = S754_finite false mx ex.
Proof.
  destruct x as [sx | sx | | sx mx ex]; simpl; try congruence;
    try contradiction.
  intros ->. eauto.
Qed.

Lemma Z_div_eucl_nonneg a b :
  0 <= a -> 0 < b -> 0 <= fst (Z.div_eucl a b).
Proof.
  intros Ha Hb. change (fst (Z.div_eucl a b)) with (a / b).
  apply Z.div_pos; lia.
Qed.

Lemma SFdiv_positive mx ex y :
  positive_float y ->
  nonneg_float (SFdiv prec emax (S754_finite false mx ex) y).
Proof.
  destruct y as [sy | sy | | sy my ey]; simpl; intros Hy; subst; simpl;
    auto; try contradiction.
  unfold SFdiv_core_binary.
  set (m' := match _ - _ - _ with Z0 => _ | Zpos _ => _ | Zneg _ => _ end).
  assert (Hm' : 0 <= m').
  { subst m'. destruct (_ - _ - _); try lia. apply Z.shiftl_nonneg. lia. }
  pose proof (Z_div_eucl_nonneg m' (Zpos my) Hm' ltac:(lia)) as Hq.
  destruct (Z.div_eucl m' (Zpos my)) as [q r]. simpl in Hq.
  apply binary_round_aux_nonneg. exact Hq.
Qed.

Lemma SFmul_positive mx ex y :
  positive_float y ->
  nonneg_float (SFmul prec emax (S754_finite false mx ex) y).
Proof.
  destruct y as [sy | sy | | sy my ey]; simpl; intros Hy; subst; simpl;
    auto; try contradiction.
  apply binary_round_aux_nonneg. lia.
Qed.

Lemma nonneg_not_nan x : nonneg_float x -> Float32.is_nan x = false.
Proof. destruct x; simpl; auto; contradiction. Qed.

End Positive.

(** ** Clipping, minimum and maximum *)

Lemma SFltb_SFleb x y : SFltb x y = true -> SFleb x y = true.
Proof.
  unfold SFltb, SFleb. destruct (SFcompare x y) as [[] |]; congruence.
Qed.

(** A number clipped to [[0, 1]] lies in [[0, 1]]; NaN stays NaN. *)
Lemma clip_in_unit_interval x :
  Float32.is_nan x = false ->
  in_unit_interval (tf_clip_by_value x Float32.zero Float32.one) = true.
Proof.
  intros Hx.
  unfold tf_clip_by_value, tf_minimum, in_unit_interval, Float32.ltb, Float32.leb.
  rewrite Hx. change (Float32.is_nan Float32.one) with false.
  cbv beta iota delta [orb].
  destruct (SFltb x Float32.one) eqn:H1.
  - unfold tf_maximum, Float32.ltb. rewrite Hx.
    change (Float32.is_nan Float32.zero) with false.
    cbv beta iota delta [orb].
    destruct (SFltb Float32.zero x) eqn:H0.
    + rewrite (SFltb_SFleb _ _ H0), (SFltb_SFleb _ _ H1). reflexivity.
    + reflexivity.
  - reflexivity.
Qed.

Lemma clip_nan :
  tf_clip_by_value S754_nan Float32.zero Float32.one = S754_nan.
Proof. reflexivity. Qed.

(** ** Unit draws *)

Lemma uint32_to_float_cases word :
  uint32_to_float word = S754_zero false \/
  exists m e, uint32_to_float word = S754_finite false m e.
Proof.
  unfold uint32_to_float.
  destruct (word mod 2 ^ 23) as [| m | m]; auto.
  destruct (shl_align m (-23) _) as [m' e']. right. eauto.
Qed.

(** A uniform draw from the interval that has collapsed to [[0, 0]] is 0. *)
Lemma scale_uniform_zero word :
  scale_uniform Float32.zero Float32.zero (uint32_to_float word) = Float32.zero.
Proof.
  destruct (uint32_to_float_cases word) as [-> | (m & e & ->)]; reflexivity.
Qed.

(** The range that has collapsed to [[1, 1]] is pinned to 1. *)
Lemma uniform_one_fixed :
  fixed_at (UniformFactorSampler Float32.one Float32.one) Float32.one.
Proof.
  intros word. simpl.
  destruct (uint32_to_float_cases word) as [-> | (m & e & ->)]; reflexivity.
Qed.

(** ** The model on concrete inputs *)

Example uint32_to_float_half :
  uint32_to_float (2 ^ 22) = Float32.of_float64 (Float64.ratio 1 2).
Proof. vm_compute. reflexivity. Qed.

Example uint32_to_float_below_one :
  Float32.ltb (uint32_to_float (2 ^ 23 - 1)) Float32.one = true.
Proof. vm_compute. reflexivity. Qed.

Example uint32_to_float_low_bits :
  uint32_to_float (2 ^ 23 + 2 ^ 22) = uint32_to_float (2 ^ 22).
Proof. vm_compute. reflexivity. Qed.

Example scenario_candidate_height :
  Spec.h (Float32.of_float64 (Float64.ratio 1 2)) Float32.one =
  S754_finite false 11863283 (-24).
Proof. vm_compute. reflexivity. Qed.

Example clip_above_one :
  tf_clip_by_value (Float32.of_Z 3) Float32.zero Float32.one = Float32.one.
Proof. vm_compute. reflexivity. Qed.

Example py_min_max_default :
  py_min (Float (Float64.ratio 3 4)) [Float (Float64.ratio 4 3)] =
    Float (Float64.ratio 3 4) /\
  py_max (Float (Float64.ratio 3 4)) [Float (Float64.ratio 4 3)] =
    Float (Float64.ratio 4 3).
Proof. vm_compute. split; reflexivity. Qed.

Example int_float_comparison :
  number_ltb (Int 1) (Float (Float64.ratio 3 2)) = true /\
  number_ltb (Float (Float64.ratio 3 2)) (Int 1) = false /\
  number_eqb (Int 0) (Float Float64.zero) = true.
Proof. vm_compute. repeat split; reflexivity. Qed.

Example py_int_truncates :
  py_int (Float (Float64.ratio 11 4)) = Ok 2 /\
  py_int (Float (Float64.ratio (-11) 4)) = Ok (-2).
Proof. vm_compute. split; reflexivity. Qed.

Example float_of_int_ties_to_even :
  float_of_int (2 ^ 53 + 1) = Ok (Float64.of_Z (2 ^ 53)).
Proof. vm_compute. reflexivity. Qed.

Example squeeze_excite_default :
  SqueezeAndExciteBlock2D.__init__ (H := blank_layers)
    (Int 16) (Float (Float64.ratio 1 4)) "relu" "sigmoid" =
  Ok example_block.
Proof. vm_compute. reflexivity. Qed.

Example parse_factor_default_lower_bound :
  parse_factor
    (PyTuple [Float (Float64.ratio (-1) 2); Float (Float64.ratio 1 2)])
    None (Some (Float Float64.one)) "area_factor" None =
  Raise (ValueError "area_factor should be inside of its range"
           [PyTuple [Float (Float64.ratio (-1) 2); Float (Float64.ratio 1 2)]]).
Proof. vm_compute. reflexivity. Qed.

Example parse_factor_first_two_items :
  parse_factor
    (PyTuple [Float (Float64.ratio 1 4); Float (Float64.ratio 1 2); Float Float64.one])
    None None "area_factor" None =
  parse_factor
    (PyTuple [Float (Float64.ratio 1 4); Float (Float64.ratio 1 2)])
    None None "area_factor" None.
Proof. vm_compute. reflexivity. Qed.

Example negative_aspect_layer_constructed :
  RandomResizedCrop.__init__ parse_factor (50, 50)
    (PyTuple [Float (Float64.ratio 1 2); Float (Float64.ratio 1 2)])
    (PyTuple [Float (Float64.of_Z (-2)); Float (Float64.of_Z (-2))])
    "bilinear" (Some 7) tf_float32 = Ok (negative_aspect_layer, []).
Proof. vm_compute. reflexivity. Qed.

Example scenario_layer_constructed :
  RandomResizedCrop.__init__ parse_factor (50, 50)
    (PyTuple [Float (Float64.ratio 1 2); Float (Float64.ratio 1 2)])
    (PyTuple [Float Float64.one; Float Float64.one])
    "bilinear" (Some 7) tf_float32 = Ok (scenario_layer, []).
Proof. vm_compute. reflexivity. Qed.

(* ===================================================================== *)
(** * The crop-geometry sampler                                           *)
(* ===================================================================== *)

(** One call of the sampler, unfolded: the two unit draws the factor
    samplers take from their source, the two unit draws taken from the
    layer's generator, and the rectangle built from them. *)
Lemma get_random_transformation_unfold self g :
  RandomResizedCrop.get_random_transformation self g =
  (Ok (boxes_of (Spec.sample_rectangle
                   (RandomResizedCrop.area_factor self)
                   (RandomResizedCrop.aspect_ratio_factor self)
                   (unit_draw (sampler_source g) 0)
                   (unit_draw (sampler_source g) 1)
                   (unit_draw (_random_generator g) 0)
                   (unit_draw (_random_generator g) 1))),
   after_call g).
Proof. reflexivity. Qed.

(** For a sampled area in [[0, 1]] and a positive, finite sampled aspect
    ratio, the candidates before clipping are numbers, not NaN. *)
Lemma candidates_not_nan a r :
  Float32.leb Float32.zero a = true ->
  Float32.leb a Float32.one = true ->
  Float32.ltb Float32.zero r = true ->
  Float32.is_finite r = true ->
  Float32.is_nan (Float32.sqrt (Float32.div a r)) = false /\
  Float32.is_nan (Float32.sqrt (Float32.mul a r)) = false.
Proof.
  intros Ha0 Ha1 Hr Hfin.
  apply SFltb_zero_positive in Hr.
  destruct (positive_finite r Hr Hfin) as (mr & er & ->).
  destruct (SFleb_between _ _ _ _ _ Ha0 Ha1) as [(sa & ->) | (ma & ea & ->)].
  - split; reflexivity.
  - split; apply nonneg_not_nan, SFsqrt_nonneg.
    + apply SFdiv_positive. exact Hr.
    + apply SFmul_positive. exact Hr.
Qed.

(** C8. With the area factor and the aspect-ratio factor both pinned to
    exactly [1.0], every draw has [h = w = 1.0] and returns the full image
    [(0, 0, 1, 1)]. *)
Theorem pinned_to_one_full_image self g :
  fixed_at (RandomResizedCrop.area_factor self) Float32.one ->
  fixed_at (RandomResizedCrop.aspect_ratio_factor self) Float32.one ->
  Spec.h Float32.one Float32.one = Float32.one /\
  Spec.w Float32.one Float32.one = Float32.one /\
  fst (RandomResizedCrop.get_random_transformation self g) =
  Ok [[Float32.zero; Float32.zero; Float32.one; Float32.one]].
Proof.
  intros Harea Haspect.
  split; [reflexivity | split; [reflexivity |]].
  rewrite get_random_transformation_unfold.
  unfold Spec.sample_rectangle, unit_draw.
  rewrite Harea, Haspect.
  change (Spec.h Float32.one Float32.one) with Float32.one.
  change (Spec.w Float32.one Float32.one) with Float32.one.
  change (Spec.offset_interval Float32.one) with (Float32.zero, Float32.zero).
  unfold Spec.uniform. simpl fst. simpl snd.
  rewrite !scale_uniform_zero. reflexivity.
Qed.

Lemma pinned_to_one_full_image_witness :
  Spec.h Float32.one Float32.one = Float32.one /\
  Spec.w Float32.one Float32.one = Float32.one /\
  fst (RandomResizedCrop.get_random_transformation full_image_layer
         (constant_state 123456789)) =
  Ok [[Float32.zero; Float32.zero; Float32.one; Float32.one]].
Proof.
  apply (pinned_to_one_full_image full_image_layer (constant_state 123456789));
    exact uniform_one_fixed.
Defined.

(** ** Determinism and the number of draws *)










(* ===================================================================== *)
(** * The crop resizer                                                    *)
(* ===================================================================== *)

Lemma Forall_forallb_true {A} (Q : A -> Prop) (f : A -> bool) (l : list A) :
  (forall x, Q x -> f x = true) -> Forall Q l -> forallb f l = true.
Proof.
  intros Hf. induction 1 as [| x l Hx _ IH]; simpl; [reflexivity |].
  rewrite (Hf x Hx), IH. reflexivity.
Qed.

Lemma Exists_forallb_false {A} (Q : A -> Prop) (f : A -> bool) (l : list A) :
  (forall x, Q x -> f x = false) -> Exists Q l -> forallb f l = false.
Proof.
  intros Hf. induction 1 as [x l Hx | x l _ IH]; simpl.
  - rewrite (Hf x Hx). reflexivity.
  - rewrite IH. apply andb_false_r.
Qed.

(** The stand-in kernels meet the contracts of the primitives. *)
Lemma blank_primitives_contract : PrimitivesContract blank_primitives.
Proof.
  constructor.
  - intros image boxes box_indices b h w c th tw Hs Hh Hw Hboxes Hfin Hlen Hidx Hth Htw.
    simpl. unfold blank_crop_and_resize. rewrite Hs. simpl.
    rewrite (proj2 (Z.ltb_lt 0 h) Hh), (proj2 (Z.ltb_lt 0 w) Hw),
            (proj2 (Z.ltb_lt 0 th) Hth), (proj2 (Z.ltb_lt 0 tw) Htw).
    rewrite (Forall_forallb_true _ _ _ (fun box H => proj2 (Nat.eqb_eq _ _) H) Hboxes).
    rewrite (proj2 (Nat.eqb_eq _ _) Hlen).
    rewrite (Forall_forallb_true (fun i => 0 <= i < b) _ _); [| | exact Hidx].
    + simpl.
      rewrite (Forall_forallb_true _ (forallb Float32.is_finite) boxes
                 (fun box H => Forall_forallb_true _ _ box (fun v Hv => Hv) H) Hfin).
      eexists. split; [reflexivity |]. split; reflexivity.
    + intros i [H1 H2]. apply andb_true_intro. split; [apply Z.leb_le | apply Z.ltb_lt]; lia.
  - intros image boxes box_indices b h w c th tw Hs Hh Hw Hboxes Hfin Hlen Hidx Hth Htw.
    simpl. unfold blank_crop_and_resize. rewrite Hs. simpl.
    rewrite (proj2 (Z.ltb_lt 0 h) Hh), (proj2 (Z.ltb_lt 0 w) Hw),
            (proj2 (Z.ltb_lt 0 th) Hth), (proj2 (Z.ltb_lt 0 tw) Htw).
    rewrite (Forall_forallb_true _ _ _ (fun box H => proj2 (Nat.eqb_eq _ _) H) Hboxes).
    rewrite (proj2 (Nat.eqb_eq _ _) Hlen).
    rewrite (Forall_forallb_true (fun i => 0 <= i < b) _ _); [| | exact Hidx].
    + simpl.
      rewrite (Exists_forallb_false _ (forallb Float32.is_finite) boxes
                 (fun box H => Exists_forallb_false _ _ box (fun v Hv => Hv) H) Hfin).
      eexists. reflexivity.
    + intros i [H1 H2]. apply andb_true_intro. split; [apply Z.leb_le | apply Z.ltb_lt]; lia.
  - intros x size Hx H1 H2. simpl. unfold blank_smart_resize.
    rewrite Hx, (proj2 (Z.ltb_lt _ _) H1), (proj2 (Z.ltb_lt _ _) H2). simpl.
    eexists. split; [reflexivity |]. split; reflexivity.
  - reflexivity.
  - reflexivity.
Qed.

Section Resizer.

Context `{P : Primitives} (C : PrimitivesContract P).

Lemma ensure_tensor_shape x d : shape (ensure_tensor x d) = shape x.
Proof.
  unfold ensure_tensor. destruct (DType_eqb (dtype x) d); [reflexivity |].
  apply cast_shape.
Qed.

(** [_resize] on an image or a batch: the smart-resize of the input, cast
    to the compute dtype. *)
Lemma resize_ok self x :
  is_image_shape (shape x) = true ->
  0 < fst (RandomResizedCrop.target_size self) ->
  0 < snd (RandomResizedCrop.target_size self) ->
  exists resized,
    smart_resize x (RandomResizedCrop.target_size self) = Ok resized /\
    RandomResizedCrop._resize self x =
      Ok (tf_cast resized (RandomResizedCrop.compute_dtype self)) /\
    shape (tf_cast resized (RandomResizedCrop.compute_dtype self)) =
      with_spatial_dims (shape x) (RandomResizedCrop.target_size self) /\
    dtype (tf_cast resized (RandomResizedCrop.compute_dtype self)) =
      RandomResizedCrop.compute_dtype self.
Proof.
  intros Hx H1 H2.
  destruct (smart_resize_shape x _ Hx H1 H2) as (out & E & Hs & _).
  exists out. unfold RandomResizedCrop._resize. rewrite E. simpl.
  rewrite cast_shape, cast_dtype. auto.
Qed.

End Resizer.

(** ** The inference path *)

(** C5. Called with [training=False] on one image or on a batch, bare or in
    a dictionary, the layer returns the smart-resize of the images to
    [target_size], cast to the compute dtype, so with the spatial size
    [target_size]; the random generator is handed back untouched, whereas
    every call of the rectangle sampler moves it: the sampler is not
    invoked. *)
Theorem inference_path_resizes_without_sampling `{P : Primitives}
    (C : PrimitivesContract P) super_call self inputs g x :
  images_of inputs = Some x ->
  is_image_shape (shape x) = true ->
  0 < fst (RandomResizedCrop.target_size self) ->
  0 < snd (RandomResizedCrop.target_size self) ->
  exists resized out,
    smart_resize (ensure_tensor x (RandomResizedCrop.compute_dtype self))
      (RandomResizedCrop.target_size self) = Ok resized /\
    RandomResizedCrop.call super_call self inputs false g = (Ok out, g) /\
    images_of out = Some (tf_cast resized (RandomResizedCrop.compute_dtype self)) /\
    shape (tf_cast resized (RandomResizedCrop.compute_dtype self)) =
      with_spatial_dims (shape x) (RandomResizedCrop.target_size self) /\
    dtype (tf_cast resized (RandomResizedCrop.compute_dtype self)) =
      RandomResizedCrop.compute_dtype self /\
    snd (RandomResizedCrop.get_random_transformation self g) <> g.
Proof.
  intros Hx Himg Hth Htw.
  set (x' := ensure_tensor x (RandomResizedCrop.compute_dtype self)).
  assert (Himg' : is_image_shape (shape x') = true)
    by (subst x'; rewrite (ensure_tensor_shape C); exact Himg).
  destruct (resize_ok C self x' Himg' Hth Htw) as (resized & E & Er & Hs & Hd).
  exists resized.
  assert (Hmoved : snd (RandomResizedCrop.get_random_transformation self g) <> g).
  { rewrite get_random_transformation_unfold. simpl. intros Hg.
    apply (f_equal (fun s => position (_random_generator s))) in Hg.
    simpl in Hg. lia. }
  assert (Hshape : shape (tf_cast resized (RandomResizedCrop.compute_dtype self)) =
                   with_spatial_dims (shape x) (RandomResizedCrop.target_size self))
    by (rewrite Hs; subst x'; rewrite (ensure_tensor_shape C); reflexivity).
  unfold RandomResizedCrop.call.
  destruct inputs as [t | d]; simpl in Hx.
  - injection Hx as ->.
    unfold M_bind, M_lift. simpl. fold x'.
    unfold getitem at 1. rewrite lookup_singleton_eq.
    rewrite Er. unfold RandomResizedCrop._format_output. simpl.
    unfold getitem. rewrite lookup_insert_eq. simpl.
    eexists. repeat split; try eassumption; reflexivity.
  - unfold M_bind, M_lift. simpl.
    unfold getitem at 1. rewrite Hx. simpl. fold x'.
    rewrite lookup_insert_ne by discriminate.
    destruct (d !! "targets") as [targets |] eqn:Et.
    + unfold getitem at 1.
      rewrite lookup_insert_ne, lookup_delete_ne, lookup_insert_eq by discriminate.
      rewrite Er. unfold RandomResizedCrop._format_output. simpl.
      unfold getitem.
      rewrite lookup_insert_ne, lookup_insert_eq by discriminate. simpl.
      eexists. repeat split; try eassumption.
      simpl. rewrite lookup_insert_ne, lookup_delete_ne, lookup_insert_eq by discriminate.
      reflexivity.
    + unfold getitem at 1. rewrite lookup_insert_eq.
      rewrite Er. unfold RandomResizedCrop._format_output. simpl.
      eexists. repeat split; try eassumption.
      simpl. rewrite lookup_insert_eq. reflexivity.
Qed.

Lemma inference_path_resizes_without_sampling_witness :
  let self := scenario_layer in
  let x := blank [8; 64; 48; 3] tf_uint8 in
  let inputs := DictInputs (<["targets" := blank [8] tf_int32]> {["images" := x]}) in
  let g := constant_state 5 in
  exists resized out,
    smart_resize (Primitives := blank_primitives)
      (ensure_tensor (H := blank_primitives) x (RandomResizedCrop.compute_dtype self))
      (RandomResizedCrop.target_size self) = Ok resized /\
    RandomResizedCrop.call (P := blank_primitives) (fun _ i _ => M_ret i)
      self inputs false g = (Ok out, g) /\
    images_of out =
      Some (tf_cast (Primitives := blank_primitives) resized
              (RandomResizedCrop.compute_dtype self)) /\
    shape (tf_cast (Primitives := blank_primitives) resized
             (RandomResizedCrop.compute_dtype self)) =
      with_spatial_dims (shape x) (RandomResizedCrop.target_size self) /\
    dtype (tf_cast (Primitives := blank_primitives) resized
             (RandomResizedCrop.compute_dtype self)) =
      RandomResizedCrop.compute_dtype self /\
    snd (RandomResizedCrop.get_random_transformation self g) <> g.
Proof.
  apply (inference_path_resizes_without_sampling blank_primitives_contract
           (fun _ i _ => M_ret i) scenario_layer).
  - simpl. rewrite lookup_insert_ne by discriminate. apply lookup_singleton_eq.
  - reflexivity.
  - reflexivity.
  - reflexivity.
Defined.

(* ===================================================================== *)
(** * Construction of RandomResizedCrop                                   *)
(* ===================================================================== *)


(** The five falsy arguments: [None], [0], [0.0], [()] and [False]. *)
Lemma falsy_arguments :
  Forall (fun v => truth v = false)
    [PyNone; PyNumber (Int 0); PyNumber (Float Float64.zero); PyTuple []; PyBool false].
Proof. repeat constructor. Qed.

Section Construction.

Variable parse :
  PyValue -> option number -> option number -> string -> option Z ->
  Result FactorSampler.


(** Whatever the arguments, a construction that succeeds emits no
    warning: where the zero test is reached, [aspect_ratio_factor] is a
    tuple, and a tuple is not equal to [0.0]. *)
Lemma init_never_warns target_size area_factor aspect_ratio_factor
    interpolation seed dt :
  match RandomResizedCrop.__init__ parse target_size area_factor
          aspect_ratio_factor interpolation seed dt with
  | Ok (_, warnings) => warnings = []
  | Raise _ => True
  end.
Proof.
  unfold RandomResizedCrop.__init__.
  destruct (py_or aspect_ratio_factor RandomResizedCrop.default_aspect_ratio_factor)
    as [| b | n | [| first rest] | s]; simpl; auto.
  destruct (parse _ _ _ _ _); simpl; auto.
  destruct (parse _ _ _ _ _); simpl; auto.
  rewrite andb_false_r. reflexivity.
Qed.

(** A sampler object passes the type test, and the constructor then reads
    [min_aspect_ratio], which that branch never assigned. *)
Lemma init_sampler_unbound target_size area_factor s interpolation seed dt :
  RandomResizedCrop.__init__ parse target_size area_factor
    (PyFactorSampler s) interpolation seed dt =
  Raise (UnboundLocalError "min_aspect_ratio").
Proof. reflexivity. Qed.

(** A single number is rejected by the type test when it is not zero, and
    replaced by the default when it is. *)
Lemma init_single_number target_size area_factor n interpolation seed dt :
  RandomResizedCrop.__init__ parse target_size area_factor
    (PyNumber n) interpolation seed dt =
  if number_truth n then
    Raise (ValueError
             "Expected `aspect_ratio` to be tuple or FactorSampler. Received RandomResizedCrop(aspect_ratio_factor={aspect_ratio_factor})."
             [PyNumber n])
  else
    RandomResizedCrop.__init__ parse target_size area_factor
      RandomResizedCrop.default_aspect_ratio_factor interpolation seed dt.
Proof.
  unfold RandomResizedCrop.__init__, py_or. simpl truth.
  destruct (number_truth n); reflexivity.
Qed.

End Construction.

(** C6 (the code departs from it). Of the three documented forms of
    [aspect_ratio_factor], only the tuple constructs a layer: a
    [FactorSampler] raises [UnboundLocalError] for [min_aspect_ratio], which
    is not a configuration error and does not name the parameter, and the
    single float [1.0] is rejected by the type test with the [ValueError]
    that names [aspect_ratio_factor]. *)
Theorem init_documented_forms parse target_size area_factor s
    interpolation seed dt :
  RandomResizedCrop.__init__ parse target_size area_factor
    (PyFactorSampler s) interpolation seed dt =
    Raise (UnboundLocalError "min_aspect_ratio") /\
  value_error_naming "aspect_ratio_factor" (UnboundLocalError "min_aspect_ratio") = false /\
  (exists message,
     RandomResizedCrop.__init__ parse target_size area_factor
       (PyNumber (Float Float64.one)) interpolation seed dt =
       Raise (ValueError message [PyNumber (Float Float64.one)]) /\
     is_substring "aspect_ratio_factor" message = true) /\
  is_Ok (RandomResizedCrop.__init__ parse_factor (50, 50)
           RandomResizedCrop.default_area_factor
           (PyTuple [Float (Float64.ratio 3 4); Float (Float64.ratio 4 3)])
           "bilinear" None tf_float32) = true.
Proof.
  split; [apply init_sampler_unbound |].
  split; [reflexivity |].
  split; [| vm_compute; reflexivity].
  rewrite init_single_number. simpl number_truth. cbv iota.
  eexists. split; [reflexivity |]. vm_compute. reflexivity.
Qed.

(** C7 (the code departs from it). The no-op warning is never emitted: no
    construction that succeeds carries a warning, and with
    [area_factor=0.0] and [aspect_ratio_factor=0.0] the constructor returns
    a layer over the default aspect-ratio range and warns of nothing. *)
Theorem init_zero_factors_no_warning parse target_size area_factor
    aspect_ratio_factor interpolation seed dt :
  match RandomResizedCrop.__init__ parse target_size area_factor
          aspect_ratio_factor interpolation seed dt with
  | Ok (_, warnings) => warnings = []
  | Raise _ => True
  end /\
  RandomResizedCrop.__init__ parse_factor (50, 50)
    (PyNumber (Float Float64.zero)) (PyNumber (Float Float64.zero))
    "bilinear" None tf_float32 =
  Ok ({| RandomResizedCrop.target_size := (50, 50);
         RandomResizedCrop.area_factor :=
           UniformFactorSampler Float32.zero Float32.zero;
         RandomResizedCrop.aspect_ratio_factor :=
           UniformFactorSampler (S754_finite false 12582912 (-24))
                                (S754_finite false 11184811 (-23));
         RandomResizedCrop.interpolation := "bilinear";
         RandomResizedCrop.seed := None;
         RandomResizedCrop.compute_dtype := tf_float32 |}, []) /\
  match RandomResizedCrop.__init__ parse_factor (50, 50)
          (PyNumber (Float Float64.zero))
          (PyTuple [Float Float64.zero; Float Float64.zero])
          "bilinear" None tf_float32 with
  | Ok (_, warnings) => warnings = []
  | Raise _ => False
  end.
Proof.
  split; [apply init_never_warns |].
  split; vm_compute; reflexivity.
Qed.



(* ===================================================================== *)
(** * Rounding: significands and exponents                                *)
(* ===================================================================== *)

Lemma digits2_pos_size p : digits2_pos p = Pos.size p.
Proof. induction p as [p IH | p IH |]; simpl; congruence. Qed.

Lemma Zdigits2_log2 p : Zdigits2 (Zpos p) = Z.log2 (Zpos p) + 1.
Proof.
  simpl. destruct p as [p | p |]; simpl; rewrite ?digits2_pos_size; lia.
Qed.

Lemma Zdigits2_nonneg z : 0 <= Zdigits2 z.
Proof. destruct z; simpl; lia. Qed.

(** A non-negative integer is below two to the number of its digits. *)
Lemma Zdigits2_lt_pow2 z : 0 <= z -> z < 2 ^ Zdigits2 z.
Proof.
  intros Hz. destruct z as [| p | p]; [reflexivity | | lia].
  rewrite Zdigits2_log2.
  pose proof (Z.log2_spec (Zpos p) ltac:(lia)) as [_ H].
  replace (Z.log2 (Zpos p) + 1) with (Z.succ (Z.log2 (Zpos p))) by lia. exact H.
Qed.

(** An integer below [2 ^ k] has at most [k] digits. *)
Lemma Zdigits2_le z k : 0 <= z -> 0 <= k -> z < 2 ^ k -> Zdigits2 z <= k.
Proof.
  intros Hz Hk Hlt. destruct z as [| p | p]; [simpl; lia | | lia].
  rewrite Zdigits2_log2.
  apply (Z.log2_lt_pow2 (Zpos p) k ltac:(lia)) in Hlt. lia.
Qed.

Lemma shr_1_div2 mrs : 0 <= shr_m mrs -> shr_m (shr_1 mrs) = Z.div2 (shr_m mrs).
Proof.
  destruct mrs as [m r s]. simpl.
  destruct m as [| [p | p |] | p]; simpl; intros H; try reflexivity; lia.
Qed.

Lemma iter_shr_1_shiftr p :
  forall mrs, 0 <= shr_m mrs ->
    shr_m (SpecFloat.iter_pos shr_1 p mrs) = Z.shiftr (shr_m mrs) (Zpos p).
Proof.
  assert (Hnn : forall q mrs, 0 <= shr_m mrs ->
                  0 <= shr_m (SpecFloat.iter_pos shr_1 q mrs)).
  { intros q mrs H.
    apply (iter_pos_invariant (fun x => 0 <= shr_m x)); auto using shr_1_nonneg. }
  induction p as [p IH | p IH |]; intros mrs Hm; simpl SpecFloat.iter_pos.
  - rewrite IH, IH, shr_1_div2, Z.div2_spec, !Z.shiftr_shiftr by
      auto using shr_1_nonneg with zarith.
    f_equal. lia.
  - rewrite IH, IH, !Z.shiftr_shiftr by auto with zarith.
    f_equal. lia.
  - rewrite shr_1_div2, Z.div2_spec by assumption. reflexivity.
Qed.

Section RoundingBounds.

Variables prec emax : Z.
Hypothesis prec_nonneg : 0 <= prec.

Lemma shr_fexp_shiftr m e l :
  0 <= m ->
  shr_m (fst (shr_fexp prec emax m e l)) = Z.shiftr m (shift_amount prec emax m e) /\
  snd (shr_fexp prec emax m e l) = e + shift_amount prec emax m e.
Proof.
  intros Hm. unfold shr_fexp, shr, shift_amount.
  destruct (fexp prec emax (Zdigits2 m + e) - e) as [| n | n] eqn:En; simpl fst; simpl snd.
  - rewrite shr_record_of_loc_m. split; [reflexivity | lia].
  - rewrite iter_shr_1_shiftr by (rewrite shr_record_of_loc_m; exact Hm).
    rewrite shr_record_of_loc_m. split; [f_equal; lia | lia].
  - rewrite shr_record_of_loc_m. split; [reflexivity | lia].
Qed.

(** After the shift a significand has at most [prec] digits. *)
Lemma shiftr_shift_amount_bound m e :
  0 <= m -> Z.shiftr m (shift_amount prec emax m e) < 2 ^ prec.
Proof.
  intros Hm.
  assert (Hs : 0 <= shift_amount prec emax m e) by (unfold shift_amount; lia).
  rewrite Z.shiftr_div_pow2 by exact Hs.
  apply Z.div_lt_upper_bound; [apply Z.pow_pos_nonneg; lia |].
  rewrite <- Z.pow_add_r by lia.
  pose proof (Zdigits2_lt_pow2 m Hm) as Hd.
  pose proof (Zdigits2_nonneg m) as Hdn.
  eapply Z.lt_le_trans; [exact Hd |].
  apply Z.pow_le_mono_r; [lia |].
  unfold shift_amount, fexp. lia.
Qed.

Lemma round_nearest_even_bounds m l :
  m <= round_nearest_even m l <= m + 1.
Proof.
  destruct l as [| []]; simpl; try lia. destruct (Z.even m); lia.
Qed.

(** The shape of a rounded result: the significand is shifted, moved by at
    most one, and shifted again; the exponents follow the shifts. *)
Lemma binary_round_aux_shape s m e l :
  0 <= m ->
  exists m1,
    Z.shiftr m (shift_amount prec emax m e) <= m1 <= Z.shiftr m (shift_amount prec emax m e) + 1 /\
    binary_round_aux prec emax s m e l =
    match Z.shiftr m1 (shift_amount prec emax m1 (e + shift_amount prec emax m e)) with
    | Z0 => S754_zero s
    | Zpos p =>
        if e + shift_amount prec emax m e + shift_amount prec emax m1 (e + shift_amount prec emax m e)
           <=? emax - prec
        then S754_finite s p
               (e + shift_amount prec emax m e + shift_amount prec emax m1 (e + shift_amount prec emax m e))
        else S754_infinity s
    | Zneg _ => S754_nan
    end.
Proof.
  intros Hm. unfold binary_round_aux.
  destruct (shr_fexp_shiftr m e l Hm) as [H1m H1e].
  destruct (shr_fexp prec emax m e l) as [mrs' e'] eqn:E1.
  simpl in H1m, H1e. subst e'.
  set (m1 := round_nearest_even (shr_m mrs') (loc_of_shr_record mrs')).
  assert (Hm1 : shr_m mrs' <= m1 <= shr_m mrs' + 1)
    by apply round_nearest_even_bounds.
  assert (H0 : 0 <= shr_m mrs') by (rewrite H1m; apply Z.shiftr_nonneg; exact Hm).
  destruct (shr_fexp_shiftr m1 (e + shift_amount prec emax m e) loc_Exact ltac:(lia))
    as [H2m H2e].
  destruct (shr_fexp prec emax m1 _ loc_Exact) as [mrs'' e''] eqn:E2.
  simpl in H2m, H2e. subst e''.
  exists m1. split; [rewrite <- H1m; exact Hm1 |].
  rewrite H2m. reflexivity.
Qed.

(** A finite rounded result has a significand below [2 ^ prec] and an
    exponent of at most [emax - prec]. *)
Lemma binary_round_aux_finite_bounds s m e l s' p' e' :
  0 <= m ->
  binary_round_aux prec emax s m e l = S754_finite s' p' e' ->
  Zpos p' < 2 ^ prec /\ e' <= emax - prec.
Proof.
  intros Hm Hr.
  destruct (binary_round_aux_shape s m e l Hm) as (m1 & Hm1 & E).
  rewrite E in Hr. clear E.
  assert (H1 : 0 <= m1).
  { pose proof (proj2 (Z.shiftr_nonneg m (shift_amount prec emax m e)) Hm). lia. }
  pose proof (shiftr_shift_amount_bound m1 (e + shift_amount prec emax m e) H1) as Hb.
  destruct (Z.shiftr m1 _) as [| p | p]; try discriminate.
  destruct (_ <=? _) eqn:Ele; try discriminate.
  injection Hr as <- <- <-. split; [exact Hb | apply Z.leb_le; exact Ele].
Qed.

End RoundingBounds.

(** ** binary64: the product of line 66 *)

Lemma pow2_53 : 2 ^ 53 = 9007199254740992.
Proof. reflexivity. Qed.

(** The product of two binary64 significands, scaled by at most [2^918],
    rounds to zero or to a finite float: no overflow. *)
Lemma binary64_product_finite s mx ex my ey :
  Zpos mx < 2 ^ 53 -> Zpos my < 2 ^ 53 -> ex + ey <= 918 ->
  match binary_round_aux 53 1024 s (Zpos (mx * my)) (ex + ey) loc_Exact with
  | S754_zero _ | S754_finite _ _ _ => True
  | S754_infinity _ | S754_nan => False
  end.
Proof.
  intros Hmx Hmy He. rewrite pow2_53 in Hmx, Hmy.
  set (M := Zpos (mx * my)). set (E := ex + ey) in *.
  assert (HM : 0 < M <= 81129638414606663681390495662081).
  { subst M. rewrite Pos2Z.inj_mul. split; [lia |].
    change 81129638414606663681390495662081
      with (9007199254740991 * 9007199254740991).
    apply Z.mul_le_mono_nonneg; lia. }
  destruct (binary_round_aux_shape 53 1024 s M E loc_Exact ltac:(lia))
    as (m1 & Hm1 & ->).
  set (n1 := shift_amount 53 1024 M E) in *.
  pose proof (shiftr_shift_amount_bound 53 1024 ltac:(lia) M E ltac:(lia)) as Hb.
  fold n1 in Hb. rewrite pow2_53 in Hb.
  assert (H0 : 0 <= Z.shiftr M n1) by (apply Z.shiftr_nonneg; lia).
  assert (Hd : Zdigits2 M <= 106).
  { apply Zdigits2_le; [lia | lia |].
    change (2 ^ 106) with 81129638414606681695789005144064. lia. }
  pose proof (Zdigits2_nonneg M) as HdM.
  assert (Hn1 : n1 = Z.max 0 (Z.max (Zdigits2 M + E - 53) (-1074) - E))
    by reflexivity.
  set (n2 := shift_amount 53 1024 m1 (E + n1)).
  assert (Hn2 : n2 = Z.max 0 (Z.max (Zdigits2 m1 + (E + n1) - 53) (-1074) - (E + n1)))
    by reflexivity.
  assert (Hd1 : Zdigits2 m1 + (E + n1) <= 1024).
  { destruct (Z.le_gt_cases (E + n1) 970) as [Hlow | Hhigh].
    - assert (Zdigits2 m1 <= 54); [| lia].
      apply Zdigits2_le; [lia | lia |].
      change (2 ^ 54) with 18014398509481984. lia.
    - assert (Hn53 : n1 = 53) by lia.
      assert (Zdigits2 m1 <= 53); [| lia].
      apply Zdigits2_le; [lia | lia |]. rewrite pow2_53.
      assert (Z.shiftr M n1 < 9007199254740991); [| lia].
      rewrite Hn53, Z.shiftr_div_pow2 by lia. rewrite pow2_53.
      apply Z.div_lt_upper_bound; [lia |].
      change (9007199254740992 * 9007199254740991)
        with 81129638414606672688589750403072.
      clear -HM. lia. }
  assert (Hle : E + n1 + n2 <= 1024 - 53) by lia.
  apply Z.leb_le in Hle. rewrite Hle.
  assert (H2 : 0 <= Z.shiftr m1 n2) by (apply Z.shiftr_nonneg; lia).
  destruct (Z.shiftr m1 n2); auto; lia.
Qed.

(** ** Comparisons *)

Lemma SFcompare_finite_pos m1 e1 m2 e2 :
  SFcompare (S754_finite false m1 e1) (S754_finite false m2 e2) =
  Some (match e1 ?= e2 with
        | Lt => Lt
        | Gt => Gt
        | Eq => Pos.compare_cont Eq m1 m2
        end).
Proof. reflexivity. Qed.

Lemma SFltb_finite_pos m1 e1 m2 e2 :
  SFltb (S754_finite false m1 e1) (S754_finite false m2 e2) = true ->
  e1 < e2 \/ (e1 = e2 /\ Zpos m1 < Zpos m2).
Proof.
  unfold SFltb. rewrite SFcompare_finite_pos. intros Hlt.
  destruct (Z.compare_spec e1 e2) as [He | Hl | Hg].
  - right. split; [exact He |].
    rewrite Pos.compare_cont_spec in Hlt. unfold Pos.switch_Eq in Hlt.
    destruct (Pos.compare_spec m1 m2) as [? | Hlt' | ?]; try discriminate Hlt.
    apply Pos2Z.pos_lt_pos. exact Hlt'.
  - left. exact Hl.
  - discriminate Hlt.
Qed.

Lemma SFcompare_antisym x y :
  SFcompare y x = option_map CompOpp (SFcompare x y).
Proof.
  destruct x as [sx | sx | | sx mx ex], y as [sy | sy | | sy my ey]; simpl;
    try destruct sx; try destruct sy; try reflexivity.
  - rewrite (Z.compare_antisym ex ey).
    destruct (ex ?= ey); simpl; try reflexivity.
    rewrite CompOpp_involutive, Pos.compare_cont_antisym. reflexivity.
  - rewrite (Z.compare_antisym ex ey).
    destruct (ex ?= ey); simpl; try reflexivity.
    rewrite Pos.compare_cont_antisym. reflexivity.
Qed.

(** The significand of a valid binary64 number has at most 53 digits, and
    exactly 53 when the exponent is [-52]. *)
Lemma valid64_digits s m e :
  valid_binary 53 1024 (S754_finite s m e) = true ->
  Zdigits2 (Zpos m) <= 53 /\ (e = -52 -> Zdigits2 (Zpos m) = 53).
Proof.
  unfold valid_binary, bounded, canonical_mantissa.
  intros Hv. apply andb_prop in Hv as [Hc _]. apply Z.eqb_eq in Hc.
  change (Zpos (digits2_pos m)) with (Zdigits2 (Zpos m)) in Hc.
  unfold fexp, emin in Hc. lia.
Qed.

(** A valid binary64 number below 1: its significand is below [2^53] and
    its exponent is at most [-53]. *)
Lemma binary64_below_one m e :
  valid_binary 53 1024 (S754_finite false m e) = true ->
  SFltb (S754_finite false m e) Float64.one = true ->
  Zpos m < 2 ^ 53 /\ e <= -53.
Proof.
  intros Hv Hlt.
  destruct (valid64_digits false m e Hv) as [Hd53 Hd52].
  split.
  - eapply Z.lt_le_trans; [apply Zdigits2_lt_pow2; lia |].
    apply Z.pow_le_mono_r; [lia | exact Hd53].
  - destruct (SFltb_finite_pos m e 4503599627370496 (-52) Hlt) as [He | [He Hm]];
      [lia |].
    specialize (Hd52 He).
    assert (Hdm : Zdigits2 (Zpos m) <= 52).
    { apply Zdigits2_le; [lia | lia |].
      change (2 ^ 52) with 4503599627370496. exact Hm. }
    lia.
Qed.

Lemma Z_float_compare_one n : Z_float_compare n Float64.one = Some (n ?= 1).
Proof.
  unfold Float64.one, Z_float_compare, cond_Zopp.
  change (0 <=? -52) with false. cbv iota.
  change (2 ^ (- -52)) with 4503599627370496.
  f_equal.
  destruct (Z.compare_spec (n * 4503599627370496) 4503599627370496),
           (Z.compare_spec n 1); try reflexivity; lia.
Qed.

Lemma SFmul_nan_r prec emax x : SFmul prec emax x S754_nan = S754_nan.
Proof. destruct x; reflexivity. Qed.

(** The conversion of a positive int gives a zero, a finite float within the
    format's bounds, or [+inf]. *)
Lemma of_Z_positive_cases p :
  (exists s, Float64.of_Z (Zpos p) = S754_zero s) \/
  Float64.of_Z (Zpos p) = S754_infinity false \/
  exists m e, Float64.of_Z (Zpos p) = S754_finite false m e /\
              Zpos m < 2 ^ 53 /\ e <= 971.
Proof.
  unfold Float64.of_Z, binary_normalize, binary_round.
  destruct (shl_align p 0 _) as [mz ez].
  pose proof (binary_round_aux_nonneg Float64.prec Float64.emax (Zpos mz) ez loc_Exact
                ltac:(lia)) as Hnn.
  pose proof (binary_round_aux_finite_bounds Float64.prec Float64.emax
                ltac:(unfold Float64.prec; lia) false (Zpos mz) ez loc_Exact) as Hb.
  destruct (binary_round_aux _ _ false (Zpos mz) ez loc_Exact) as [s | s | | s m e];
    simpl in Hnn.
  - left. exists s. reflexivity.
  - subst s. right. left. reflexivity.
  - contradiction.
  - subst s. right. right. exists m, e. split; [reflexivity |].
    apply (Hb false m e); [lia | reflexivity].
Qed.

(** [int(x)] returns for zero and for every finite float. *)
Lemma py_int_finite x :
  match x with
  | S754_zero _ | S754_finite _ _ _ => True
  | S754_infinity _ | S754_nan => False
  end ->
  exists b, py_int (Float x) = Ok b.
Proof.
  destruct x; simpl; intros H; try contradiction; eauto.
Qed.

(* ===================================================================== *)
(** * Construction of SqueezeAndExciteBlock2D                             *)
(* ===================================================================== *)

(** An integer ratio is never strictly inside [(0, 1)], and the
    constructor's test rejects it. *)
Lemma int_ratio_rejected n :
  SqueezeAndExciteBlock2D.ratio_in_range (Int n) = false /\
  number_leb (Int n) (Float Float64.zero) || number_geb (Int n) (Float Float64.one) = true.
Proof.
  unfold SqueezeAndExciteBlock2D.ratio_in_range, number_geb, number_leb,
    number_ltb, number_compare.
  rewrite Z_float_compare_one.
  change (Z_float_compare n Float64.zero) with (Some (n ?= 0)).
  destruct (Z.compare_spec n 0), (Z.compare_spec n 1); simpl; auto; lia.
Qed.

(** The ratio test of the constructor against the open interval [(0, 1)]:
    they disagree on NaN only, which passes the test. *)
Lemma float_ratio_cases x :
  (SqueezeAndExciteBlock2D.ratio_in_range (Float x) = false /\
   number_leb (Float x) (Float Float64.zero)
   || number_geb (Float x) (Float Float64.one) = true) \/
  (SqueezeAndExciteBlock2D.ratio_in_range (Float x) = false /\
   number_leb (Float x) (Float Float64.zero)
   || number_geb (Float x) (Float Float64.one) = false /\
   x = S754_nan) \/
  (SqueezeAndExciteBlock2D.ratio_in_range (Float x) = true /\
   number_leb (Float x) (Float Float64.zero)
   || number_geb (Float x) (Float Float64.one) = false /\
   exists m e, x = S754_finite false m e /\
               SFltb (S754_finite false m e) Float64.one = true).
Proof.
  destruct x as [s | [] | | [] m e];
    try (left; split; reflexivity);
    try (right; left; repeat split; reflexivity).
  unfold SqueezeAndExciteBlock2D.ratio_in_range, number_geb, number_leb,
    number_ltb, number_compare, SFltb.
  rewrite (SFcompare_antisym (S754_finite false m e) Float64.one).
  change (SFcompare Float64.zero (S754_finite false m e)) with (Some Lt).
  change (SFcompare (S754_finite false m e) Float64.zero) with (Some Gt).
  destruct (SFcompare (S754_finite false m e) Float64.one) as [[] |] eqn:Ec;
    cbn [option_map CompOpp andb orb]; auto.
  - right. right. split; [reflexivity | split; [reflexivity |]].
    exists m, e. split; [reflexivity |]. rewrite Ec. reflexivity.
  - unfold Float64.one in Ec. rewrite SFcompare_finite_pos in Ec. discriminate Ec.
Qed.

Lemma filters_test filters :
  number_leb filters (Int 0) || negb (isinstance_int filters) =
  negb (SqueezeAndExciteBlock2D.positive_integer filters).
Proof.
  destruct filters as [n | x]; simpl.
  - unfold number_leb. simpl. rewrite orb_false_r.
    destruct (Z.compare_spec n 0), (Z.ltb_spec 0 n); simpl; auto; lia.
  - apply orb_true_r.
Qed.

(** The product and truncation of line 66 for a positive integer filter
    count that converts, and a valid ratio below 1. *)
Lemma bottleneck_computed p m e :
  is_Ok (float_of_int (Zpos p)) = true ->
  valid_binary 53 1024 (S754_finite false m e) = true ->
  SFltb (S754_finite false m e) Float64.one = true ->
  exists product bottleneck,
    py_mul (Int (Zpos p)) (Float (S754_finite false m e)) = Ok product /\
    py_int product = Ok bottleneck.
Proof.
  intros Hconv Hv Hlt.
  destruct (binary64_below_one m e Hv Hlt) as [Hm He].
  unfold py_mul, float_of_int in *.
  destruct (of_Z_positive_cases p) as [[s E] | [E | (mx & ex & E & Hmx & Hex)]];
    rewrite E in *.
  - exists (Float (S754_zero (xorb s false))), 0. split; reflexivity.
  - discriminate Hconv.
  - unfold Result_bind.
    destruct (py_int_finite (Float64.mul (S754_finite false mx ex) (S754_finite false m e)))
      as [b Hb].
    { apply (binary64_product_finite (xorb false false) mx ex m e);
        [exact Hmx | exact Hm | lia]. }
    eauto.
Qed.

(** With a NaN ratio the product is NaN, and [int] raises [ValueError]. *)
Lemma bottleneck_nan p :
  is_Ok (float_of_int (Zpos p)) = true ->
  exists x,
    py_mul (Int (Zpos p)) (Float S754_nan) = Ok (Float S754_nan) /\
    float_of_int (Zpos p) = Ok x.
Proof.
  intros Hconv. unfold py_mul.
  destruct (float_of_int (Zpos p)) as [x | err]; [| discriminate Hconv].
  exists x. unfold Result_bind, Float64.mul. rewrite SFmul_nan_r. auto.
Qed.

(* ===================================================================== *)
(** * The sampled rectangle: inside the image                         *)
(* ===================================================================== *)

(** ** Alignment of significands *)

Lemma shl_align_keep m e e' : e <= e' -> shl_align m e e' = (m, e).
Proof.
  intros H. unfold shl_align.
  destruct (e' - e) as [| d | d] eqn:E; try reflexivity. lia.
Qed.

Lemma shl_align_shift m e e' :
  e' <= e ->
  Zpos (fst (shl_align m e e')) = Zpos m * 2 ^ (e - e') /\
  snd (shl_align m e e') = e'.
Proof.
  intros H. unfold shl_align.
  destruct (e' - e) as [| d | d] eqn:E; cbn [fst snd].
  - replace (e - e') with 0 by lia. split; lia.
  - lia.
  - change (Pos.iter xO m d) with (shift_pos d m).
    rewrite shift_pos_correct.
    change (Z.pow_pos 2 d) with (2 ^ Zpos d).
    replace (e - e') with (Zpos d) by lia. split; [lia | reflexivity].
Qed.

Lemma Zdigits2_shift m k :
  0 < m -> 0 <= k -> Zdigits2 (m * 2 ^ k) = Zdigits2 m + k.
Proof.
  intros Hm Hk.
  assert (Hp : 0 < m * 2 ^ k)
    by (apply Z.mul_pos_pos; [lia | apply Z.pow_pos_nonneg; lia]).
  destruct m as [| p | p]; try lia.
  destruct (Z.pos p * 2 ^ k) as [| q | q] eqn:E; try lia.
  rewrite !Zdigits2_log2, <- E, Z.log2_mul_pow2 by lia. lia.
Qed.

Section NoOverflow.

Variables prec emax : Z.
Hypothesis prec_nonneg : 0 <= prec.

(** A significand whose exponent after rounding stays within the format
    rounds to zero or to a finite float. *)
Lemma binary_round_aux_no_overflow s m e l :
  0 <= m ->
  Z.max e (fexp prec emax (Zdigits2 m + e)) + 1 <= emax - prec ->
  match binary_round_aux prec emax s m e l with
  | S754_zero _ | S754_finite _ _ _ => True
  | S754_infinity _ | S754_nan => False
  end.
Proof.
  intros Hm Hbound.
  destruct (binary_round_aux_shape prec emax s m e l Hm) as (m1 & Hm1 & ->).
  pose proof (shiftr_shift_amount_bound prec emax prec_nonneg m e Hm) as Hb.
  set (n1 := shift_amount prec emax m e) in *.
  assert (H0 : 0 <= Z.shiftr m n1) by (apply Z.shiftr_nonneg; exact Hm).
  assert (Hd1 : Zdigits2 m1 <= prec + 1).
  { apply Zdigits2_le; [lia | lia |].
    rewrite Z.pow_add_r by lia. change (2 ^ 1) with 2.
    assert (0 < 2 ^ prec) by (apply Z.pow_pos_nonneg; lia). lia. }
  pose proof (Zdigits2_nonneg m1) as Hd0.
  set (n2 := shift_amount prec emax m1 (e + n1)).
  assert (Hn1 : e + n1 = Z.max e (fexp prec emax (Zdigits2 m + e)))
    by (subst n1; unfold shift_amount; lia).
  assert (Hn2 : n2 <= 1).
  { subst n2. unfold shift_amount. rewrite Hn1. clear -Hd1. unfold fexp. lia. }
  assert (Hn2' : 0 <= n2) by (subst n2; unfold shift_amount; lia).
  assert (Hle : e + n1 + n2 <= emax - prec) by (clear -Hn1 Hn2 Hbound; lia).
  apply Z.leb_le in Hle. rewrite Hle.
  assert (H2 : 0 <= Z.shiftr m1 n2) by (apply Z.shiftr_nonneg; lia).
  destruct (Z.shiftr m1 n2); auto; lia.
Qed.

Lemma binary_round_no_overflow s p e :
  Z.max e (fexp prec emax (Zdigits2 (Zpos p) + e)) + 1 <= emax - prec ->
  match binary_round prec emax s p e with
  | S754_zero _ | S754_finite _ _ _ => True
  | S754_infinity _ | S754_nan => False
  end.
Proof.
  intros Hbound. unfold binary_round.
  change (Zpos (digits2_pos p)) with (Zdigits2 (Zpos p)).
  set (f := fexp prec emax (Zdigits2 (Zpos p) + e)) in *.
  destruct (Z.le_gt_cases e f) as [Hle | Hgt].
  - rewrite shl_align_keep by exact Hle.
    apply binary_round_aux_no_overflow; [lia |]. fold f. exact Hbound.
  - destruct (shl_align_shift p e f ltac:(lia)) as [Hv He].
    destruct (shl_align p e f) as [mz ez]. cbn [fst snd] in Hv, He. subst ez.
    apply binary_round_aux_no_overflow; [lia |].
    rewrite Hv, Zdigits2_shift by lia.
    replace (Zdigits2 (Zpos p) + (e - f) + f) with (Zdigits2 (Zpos p) + e) by lia.
    fold f. lia.
Qed.

(** The difference of two positive finite floats, the second one below the
    first: zero or a positive finite float. *)
Lemma SFsub_below m1 e1 m e k :
  e <= e1 ->
  Zpos m < Zpos m1 * 2 ^ (e1 - e) ->
  Zpos m1 * 2 ^ (e1 - e) <= 2 ^ k -> 0 <= k ->
  Z.max e (fexp prec emax (k + 1 + e)) + 1 <= emax - prec ->
  match SFsub prec emax (S754_finite false m1 e1) (S754_finite false m e) with
  | S754_zero _ => True
  | S754_finite s _ _ => s = false
  | S754_infinity _ | S754_nan => False
  end.
Proof.
  intros He Hlt Hk Hk0 Hbound. cbn [SFsub cond_Zopp].
  rewrite (Z.min_r e1 e) by exact He.
  rewrite (shl_align_keep m e e) by lia. cbn [fst].
  destruct (shl_align_shift m1 e1 e He) as [Hv _]. rewrite Hv.
  destruct (Zpos m1 * 2 ^ (e1 - e) - Zpos m) as [| p | p] eqn:Ed; try lia.
  cbn [binary_normalize].
  assert (Hd : Zdigits2 (Zpos p) <= k + 1).
  { apply Zdigits2_le; [lia | lia |].
    rewrite Z.pow_add_r by lia. change (2 ^ 1) with 2. lia. }
  pose proof (binary_round_no_overflow false p e) as Hfin.
  pose proof (binary_round_aux_nonneg prec emax) as Hnn.
  unfold binary_round in *.
  destruct (shl_align p e _) as [mz ez].
  specialize (Hnn (Zpos mz) ez loc_Exact ltac:(lia)).
  destruct (binary_round_aux prec emax false (Zpos mz) ez loc_Exact);
    cbn [nonneg_float] in Hnn; auto; apply Hfin;
    clear -Hd Hbound; unfold fexp in *; lia.
Qed.

(** The sum of two floats that are not negative is not negative. *)
Lemma SFadd_nonneg x y :
  nonneg_float x -> nonneg_float y -> nonneg_float (SFadd prec emax x y).
Proof.
  destruct x as [sx | sx | | sx mx ex], y as [sy | sy | | sy my ey];
    cbn [SFadd nonneg_float]; intros Hx Hy; subst; try contradiction;
    try exact I; try reflexivity.
  - destruct sx, sy; exact I.
  - cbn [cond_Zopp].
    destruct (Zpos _ + Zpos _) as [| p | p] eqn:E; try lia.
    cbn [binary_normalize]. unfold binary_round.
    destruct (shl_align p _ _) as [mz ez].
    apply binary_round_aux_nonneg. lia.
Qed.

End NoOverflow.

(** ** Extents and offsets *)

(** [1 - h] for a positive binary32 number [h] below 1. *)
Lemma sub_one_below m e :
  Zpos m < 2 ^ 24 ->
  SFltb (S754_finite false m e) Float32.one = true ->
  match Float32.sub Float32.one (S754_finite false m e) with
  | S754_zero _ => True
  | S754_finite s _ _ => s = false
  | S754_infinity _ | S754_nan => False
  end.
Proof.
  intros Hm Hlt.
  apply (SFltb_finite_pos m e 8388608 (-23)) in Hlt.
  assert (He : e <= -23) by lia.
  assert (Hpow : Zpos 8388608 * 2 ^ (-23 - e) = 2 ^ (- e)).
  { change (Zpos 8388608) with (2 ^ 23). rewrite <- Z.pow_add_r by lia.
    f_equal. lia. }
  apply (SFsub_below 24 128 ltac:(lia) 8388608 (-23) m e (- e)); try lia.
  - rewrite Hpow. destruct Hlt as [Hl | [-> Hl]]; [| exact Hl].
    eapply Z.lt_le_trans; [exact Hm |]. apply Z.pow_le_mono_r; lia.
  - unfold fexp, emin. lia.
Qed.

(** A finite square root has a significand of at most 24 bits. *)
Lemma sqrt_finite_bound x m e :
  Float32.sqrt x = S754_finite false m e -> Zpos m < 2 ^ 24.
Proof.
  unfold Float32.sqrt, SFsqrt.
  destruct x as [sx | [] | | [] mx ex]; try discriminate.
  unfold SFsqrt_core_binary.
  destruct (Z.sqrtrem _) as [q r] eqn:Eq.
  intros Hr.
  apply (binary_round_aux_finite_bounds Float32.prec Float32.emax
           ltac:(unfold Float32.prec; lia) _ _ _ _ _ _ _) in Hr; [apply Hr |].
  change q with (fst (q, r)). rewrite <- Eq, Z.sqrtrem_sqrt.
  apply Z.sqrt_nonneg.
Qed.

(** The clipped candidate: [0], [1], or the candidate itself, a positive
    binary32 number below 1. *)
Lemma clip_cases c :
  Float32.is_nan c = false ->
  (forall m e, c = S754_finite false m e -> Zpos m < 2 ^ 24) ->
  tf_clip_by_value c Float32.zero Float32.one = Float32.zero \/
  tf_clip_by_value c Float32.zero Float32.one = Float32.one \/
  exists m e,
    tf_clip_by_value c Float32.zero Float32.one = S754_finite false m e /\
    c = S754_finite false m e /\
    Zpos m < 2 ^ 24 /\ SFltb (S754_finite false m e) Float32.one = true.
Proof.
  intros Hnan Hc. unfold tf_clip_by_value, tf_minimum, Float32.ltb.
  rewrite Hnan. change (Float32.is_nan Float32.one) with false.
  cbv beta iota delta [orb].
  destruct (SFltb c Float32.one) eqn:H1.
  - unfold tf_maximum, Float32.ltb. rewrite Hnan.
    change (Float32.is_nan Float32.zero) with false.
    cbv beta iota delta [orb].
    destruct (SFltb Float32.zero c) eqn:H0; [| left; reflexivity].
    right. right.
    apply SFltb_zero_positive in H0.
    destruct c as [s | s | | s m e]; simpl in H0; try contradiction; subst s.
    + discriminate H1.
    + exists m, e.
      split; [reflexivity |]. split; [reflexivity |].
      split; [apply (Hc m e); reflexivity | exact H1].
  - right. left. reflexivity.
Qed.

(** A candidate of at least 1 is clipped to exactly 1. *)
Lemma clip_saturates c :
  Float32.leb Float32.one c = true ->
  tf_clip_by_value c Float32.zero Float32.one = Float32.one.
Proof.
  intros Hc.
  assert (Hnan : Float32.is_nan c = false) by (destruct c; [reflexivity .. | discriminate Hc | reflexivity]).
  unfold tf_clip_by_value, tf_minimum, Float32.ltb, Float32.leb in *.
  rewrite Hnan. change (Float32.is_nan Float32.one) with false.
  cbv beta iota delta [orb].
  assert (Hlt : SFltb c Float32.one = false).
  { unfold SFltb, SFleb in *. rewrite (SFcompare_antisym Float32.one c).
    destruct (SFcompare Float32.one c) as [[] |]; try discriminate; reflexivity. }
  rewrite Hlt. reflexivity.
Qed.

Lemma nonneg_leb_zero x : nonneg_float x -> Float32.leb Float32.zero x = true.
Proof.
  destruct x as [s | s | | s m e]; simpl; intros H; try contradiction; subst;
    reflexivity.
Qed.

(** A uniform draw from the offset interval of a remainder [d >= 0]. *)
Lemma offset_nonneg d word :
  match d with
  | S754_zero _ => True
  | S754_finite s _ _ => s = false
  | S754_infinity _ | S754_nan => False
  end ->
  nonneg_float
    (scale_uniform (tf_minimum Float32.zero d) (tf_maximum Float32.zero d)
       (uint32_to_float word)).
Proof.
  intros Hd.
  destruct d as [s | s | | s md ed]; try contradiction.
  - destruct (uint32_to_float_cases word) as [-> | (m & e & ->)];
      destruct s; exact I.
  - subst s.
    change (tf_minimum Float32.zero (S754_finite false md ed)) with Float32.zero.
    change (tf_maximum Float32.zero (S754_finite false md ed))
      with (S754_finite false md ed).
    unfold scale_uniform.
    change (Float32.sub (S754_finite false md ed) Float32.zero)
      with (S754_finite false md ed).
    apply SFadd_nonneg; [| exact I].
    destruct (uint32_to_float_cases word) as [-> | (m & e & ->)]; [exact I |].
    apply SFmul_positive. reflexivity.
Qed.

(** The near and the far edge along one dimension: neither is negative or
    NaN. *)
Lemma edge_nonneg c word :
  Float32.is_nan c = false ->
  (forall m e, c = S754_finite false m e -> Zpos m < 2 ^ 24) ->
  let extent := tf_clip_by_value c Float32.zero Float32.one in
  let offset := Spec.uniform (Spec.offset_interval extent) (uint32_to_float word) in
  nonneg_float offset /\ nonneg_float (Float32.add offset extent).
Proof.
  intros Hnan Hc extent offset.
  assert (Hextent : nonneg_float extent /\
                    match Float32.sub Float32.one extent with
                    | S754_zero _ => True
                    | S754_finite s _ _ => s = false
                    | S754_infinity _ | S754_nan => False
                    end).
  { subst extent.
    destruct (clip_cases c Hnan Hc) as [-> | [-> | (m & e & -> & _ & Hm & Hlt)]].
    - split; [exact I | reflexivity].
    - split; [reflexivity | exact I].
    - split; [reflexivity | apply sub_one_below; assumption]. }
  destruct Hextent as [Hnn Hsub].
  assert (Hoff : nonneg_float offset) by (apply offset_nonneg; exact Hsub).
  split; [exact Hoff |]. apply SFadd_nonneg; assumption.
Qed.

(** With the extent clipped to 1 the offset interval is [[0, 0]]: the
    offset is 0 and the far edge is 1. *)
Lemma full_extent_edges word :
  Spec.uniform (Spec.offset_interval Float32.one) (uint32_to_float word) =
    Float32.zero /\
  Float32.add
    (Spec.uniform (Spec.offset_interval Float32.one) (uint32_to_float word))
    Float32.one = Float32.one.
Proof.
  change (Spec.offset_interval Float32.one) with (Float32.zero, Float32.zero).
  unfold Spec.uniform. cbn [fst snd].
  rewrite scale_uniform_zero. split; reflexivity.
Qed.

(** ** Rounding as a function of the value *)

(** Powers of two over the reals. *)
Lemma pow2_pos e : (0 < powerRZ 2 e)%R.
Proof. apply powerRZ_lt. lra. Qed.

Lemma pow2_add a b : powerRZ 2 (a + b) = (powerRZ 2 a * powerRZ 2 b)%R.
Proof. apply powerRZ_add. lra. Qed.

Lemma pow2_IZR n : 0 <= n -> powerRZ 2 n = IZR (2 ^ n).
Proof.
  intros Hn. destruct n as [| p | p]; try lia; [reflexivity |].
  rewrite <- Zpower_pos_powerRZ. reflexivity.
Qed.

Lemma pow2_le a b : a <= b -> (powerRZ 2 a <= powerRZ 2 b)%R.
Proof.
  intros H. replace b with (a + (b - a)) by lia.
  rewrite pow2_add, (pow2_IZR (b - a)) by lia.
  pose proof (pow2_pos a) as Ha.
  assert (1 <= IZR (2 ^ (b - a)))%R.
  { apply IZR_le. assert (0 < 2 ^ (b - a)) by (apply Z.pow_pos_nonneg; lia). lia. }
  nra.
Qed.

Lemma pow2_lt a b : a < b -> (powerRZ 2 a < powerRZ 2 b)%R.
Proof.
  intros H. replace b with (a + (b - a)) by lia.
  rewrite pow2_add, (pow2_IZR (b - a)) by lia.
  pose proof (pow2_pos a) as Ha.
  assert (2 <= IZR (2 ^ (b - a)))%R.
  { apply IZR_le. replace (b - a) with (1 + (b - a - 1)) by lia.
    rewrite Z.pow_add_r by lia.
    assert (0 < 2 ^ (b - a - 1)) by (apply Z.pow_pos_nonneg; lia). lia. }
  nra.
Qed.

Lemma pow2_lt_inv a b : (powerRZ 2 a < powerRZ 2 b)%R -> a < b.
Proof.
  intros H. destruct (Z.lt_ge_cases a b) as [Hlt | Hge]; [exact Hlt |].
  pose proof (pow2_le b a Hge). lra.
Qed.

(** Moving a power of two between the significand and the exponent. *)
Lemma F2R_shift m e k : 0 <= k -> F2R (m * 2 ^ k) e = F2R m (e + k).
Proof.
  intros Hk. unfold F2R.
  rewrite mult_IZR, <- pow2_IZR, (Z.add_comm e k), pow2_add by lia. ring.
Qed.

(** At one exponent, values compare as their significands. *)
Lemma F2R_le m1 m2 e : (F2R m1 e <= F2R m2 e)%R <-> m1 <= m2.
Proof.
  unfold F2R. pose proof (pow2_pos e). split; intros Hle.
  - apply le_IZR. nra.
  - apply IZR_le in Hle. nra.
Qed.

Lemma F2R_lt m1 m2 e : (F2R m1 e < F2R m2 e)%R <-> m1 < m2.
Proof.
  unfold F2R. pose proof (pow2_pos e). split; intros Hlt.
  - apply lt_IZR. nra.
  - apply IZR_lt in Hlt. nra.
Qed.

(** ** Digits *)

(** A positive integer of [k] digits lies in [[2^(k-1), 2^k)]. *)
Lemma Zdigits2_pow2_le m : 0 < m -> 2 ^ (Zdigits2 m - 1) <= m.
Proof.
  intros Hm. destruct m as [| p | p]; try lia.
  rewrite Zdigits2_log2.
  replace (Z.log2 (Zpos p) + 1 - 1) with (Z.log2 (Zpos p)) by lia.
  apply Z.log2_spec. lia.
Qed.

Lemma Zdigits2_unique m k : 2 ^ (k - 1) <= m < 2 ^ k -> 0 < k -> Zdigits2 m = k.
Proof.
  intros [Hlo Hhi] Hk.
  assert (Hm : 0 < m).
  { assert (0 < 2 ^ (k - 1)) by (apply Z.pow_pos_nonneg; lia). lia. }
  pose proof (Zdigits2_le m k ltac:(lia) ltac:(lia) Hhi) as H1.
  pose proof (Zdigits2_lt_pow2 m ltac:(lia)) as H2.
  pose proof (Zdigits2_nonneg m) as H0.
  assert (k - 1 < Zdigits2 m); [| lia].
  apply (Z.pow_lt_mono_r_iff 2); [lia | lia | lia].
Qed.

(** The magnitude of a positive number [m * 2^e]. *)
Lemma F2R_magnitude m e :
  0 < m ->
  (powerRZ 2 (Zdigits2 m - 1 + e) <= F2R m e < powerRZ 2 (Zdigits2 m + e))%R.
Proof.
  intros Hm. unfold F2R.
  pose proof (Zdigits2_pow2_le m Hm) as Hlo.
  pose proof (Zdigits2_lt_pow2 m ltac:(lia)) as Hhi.
  assert (Hd : 0 < Zdigits2 m).
  { destruct m; try lia. simpl. lia. }
  rewrite !pow2_add, (pow2_IZR (Zdigits2 m - 1)), (pow2_IZR (Zdigits2 m)) by lia.
  pose proof (pow2_pos e).
  apply IZR_le in Hlo. apply IZR_lt in Hhi. split; nra.
Qed.

(** ** Exact shifts *)

(** Shifting out bits that are all zero, in two steps. *)
Lemma divide_shiftr a b m :
  0 <= a -> 0 <= b -> (2 ^ (a + b) | m) -> (2 ^ a | m) /\ (2 ^ b | Z.shiftr m a).
Proof.
  intros Ha Hb [q Hq]. rewrite Z.pow_add_r in Hq by lia.
  assert (H2a : 0 < 2 ^ a) by (apply Z.pow_pos_nonneg; lia).
  split.
  - exists (q * 2 ^ b). lia.
  - exists q. rewrite Z.shiftr_div_pow2 by lia.
    replace m with (q * 2 ^ b * 2 ^ a) by lia.
    apply Z.div_mul. lia.
Qed.

Lemma shr_1_exact mrs :
  0 <= shr_m mrs -> shr_r mrs = false -> shr_s mrs = false -> (2 | shr_m mrs) ->
  shr_r (shr_1 mrs) = false /\ shr_s (shr_1 mrs) = false.
Proof.
  destruct mrs as [m r s]. simpl. intros Hm -> -> [q Hq].
  destruct m as [| [p | p |] | p]; simpl; auto; lia.
Qed.

(** A shift that drops only zero bits leaves the round and sticky bits
    clear. *)
Lemma iter_shr_1_exact p :
  forall mrs,
    0 <= shr_m mrs -> shr_r mrs = false -> shr_s mrs = false ->
    (2 ^ Zpos p | shr_m mrs) ->
    shr_r (SpecFloat.iter_pos shr_1 p mrs) = false /\
    shr_s (SpecFloat.iter_pos shr_1 p mrs) = false.
Proof.
  assert (Hnn : forall q mrs, 0 <= shr_m mrs ->
                  0 <= shr_m (SpecFloat.iter_pos shr_1 q mrs)).
  { intros q mrs H.
    apply (iter_pos_invariant (fun x => 0 <= shr_m x)); auto using shr_1_nonneg. }
  induction p as [p IH | p IH |]; intros mrs Hm Hr Hs Hdiv; simpl SpecFloat.iter_pos.
  - replace (Zpos p~1) with (1 + (Zpos p + Zpos p)) in Hdiv by lia.
    destruct (divide_shiftr 1 (Zpos p + Zpos p) _ ltac:(lia) ltac:(lia) Hdiv) as [H1 H2].
    destruct (shr_1_exact mrs Hm Hr Hs H1) as [Hr1 Hs1].
    pose proof (shr_1_nonneg mrs Hm) as Hm1.
    rewrite <- Z.div2_spec, <- shr_1_div2 in H2 by exact Hm.
    destruct (divide_shiftr (Zpos p) (Zpos p) _ ltac:(lia) ltac:(lia) H2) as [H3 H4].
    destruct (IH _ Hm1 Hr1 Hs1 H3) as [Hr2 Hs2].
    rewrite <- (iter_shr_1_shiftr p _ Hm1) in H4.
    apply IH; auto.
  - replace (Zpos p~0) with (Zpos p + Zpos p) in Hdiv by lia.
    destruct (divide_shiftr (Zpos p) (Zpos p) _ ltac:(lia) ltac:(lia) Hdiv) as [H3 H4].
    destruct (IH _ Hm Hr Hs H3) as [Hr2 Hs2].
    rewrite <- (iter_shr_1_shiftr p _ Hm) in H4.
    apply IH; auto.
  - apply shr_1_exact; assumption.
Qed.

Section ExactShape.

Variables prec emax : Z.

(** The shape of a rounded result, with the exact case: a significand
    whose shifted-out bits are all zero is not moved. *)
Lemma binary_round_aux_exact_shape s m e :
  0 <= m ->
  exists m1,
    Z.shiftr m (shift_amount prec emax m e) <= m1 <= Z.shiftr m (shift_amount prec emax m e) + 1 /\
    ((2 ^ shift_amount prec emax m e | m) -> m1 = Z.shiftr m (shift_amount prec emax m e)) /\
    binary_round_aux prec emax s m e loc_Exact =
    match Z.shiftr m1 (shift_amount prec emax m1 (e + shift_amount prec emax m e)) with
    | Z0 => S754_zero s
    | Zpos p =>
        if e + shift_amount prec emax m e + shift_amount prec emax m1 (e + shift_amount prec emax m e)
           <=? emax - prec
        then S754_finite s p
               (e + shift_amount prec emax m e + shift_amount prec emax m1 (e + shift_amount prec emax m e))
        else S754_infinity s
    | Zneg _ => S754_nan
    end.
Proof.
  intros Hm. unfold binary_round_aux.
  destruct (shr_fexp_shiftr prec emax m e loc_Exact Hm) as [H1m H1e].
  assert (Hexact : (2 ^ shift_amount prec emax m e | m) ->
                   loc_of_shr_record (fst (shr_fexp prec emax m e loc_Exact)) = loc_Exact).
  { unfold shr_fexp, shr, shift_amount.
    destruct (fexp prec emax (Zdigits2 m + e) - e) as [| n | n] eqn:En;
      cbn [fst]; try reflexivity.
    intros Hdiv. rewrite Z.max_r in Hdiv by lia.
    destruct (iter_shr_1_exact n (shr_record_of_loc m loc_Exact))
      as [Hr Hs]; try reflexivity; try assumption.
    destruct (SpecFloat.iter_pos shr_1 n _) as [m' r' s'].
    simpl in Hr, Hs. subst. reflexivity. }
  destruct (shr_fexp prec emax m e loc_Exact) as [mrs' e'] eqn:E1.
  simpl in H1m, H1e, Hexact. subst e'.
  set (m1 := round_nearest_even (shr_m mrs') (loc_of_shr_record mrs')).
  assert (Hm1 : shr_m mrs' <= m1 <= shr_m mrs' + 1)
    by apply round_nearest_even_bounds.
  assert (H0 : 0 <= shr_m mrs') by (rewrite H1m; apply Z.shiftr_nonneg; exact Hm).
  destruct (shr_fexp_shiftr prec emax m1 (e + shift_amount prec emax m e) loc_Exact ltac:(lia))
    as [H2m H2e].
  destruct (shr_fexp prec emax m1 _ loc_Exact) as [mrs'' e''] eqn:E2.
  simpl in H2m, H2e. subst e''.
  exists m1. split; [rewrite <- H1m; exact Hm1 |].
  split.
  - intros Hdiv. subst m1. rewrite (Hexact Hdiv), <- H1m. reflexivity.
  - rewrite H2m. reflexivity.
Qed.

End ExactShape.

Section RoundsTo.

Variables prec emax : Z.
Hypothesis prec_pos : 0 < prec.

(** A shifted significand and its successor bracket the original. *)
Lemma shiftr_bracket m n :
  0 <= m -> 0 <= n ->
  Z.shiftr m n * 2 ^ n <= m < (Z.shiftr m n + 1) * 2 ^ n.
Proof.
  intros Hm Hn. rewrite Z.shiftr_div_pow2 by exact Hn.
  assert (H2 : 0 < 2 ^ n) by (apply Z.pow_pos_nonneg; lia).
  pose proof (Z.mul_div_le m (2 ^ n) H2).
  pose proof (Z.mul_succ_div_gt m (2 ^ n) H2).
  lia.
Qed.

(** The rounding step of [SpecFloat] on a significand that has at least
    the digits of the format is a rounding of the value. *)
Lemma binary_round_aux_rounds m e :
  0 < m -> e <= fexp prec emax (Zdigits2 m + e) ->
  rounds_to prec emax (F2R m e) (binary_round_aux prec emax false m e loc_Exact).
Proof.
  intros Hm He.
  set (d := Zdigits2 m + e) in *. set (c := fexp prec emax d) in *.
  destruct (binary_round_aux_exact_shape prec emax false m e ltac:(lia))
    as (m1 & Hm1 & Hexact & Er).
  assert (Hn1 : shift_amount prec emax m e = c - e)
    by (unfold shift_amount; fold d c; lia).
  rewrite Hn1 in *.
  replace (e + (c - e)) with c in Er by lia.
  set (s1 := Z.shiftr m (c - e)) in *.
  destruct (shiftr_bracket m (c - e) ltac:(lia) ltac:(lia)) as [Hlo Hhi].
  fold s1 in Hlo, Hhi.
  assert (Hs1 : 0 <= s1) by (apply Z.shiftr_nonneg; lia).
  exists d, s1, m1. fold c. cbv zeta.
  assert (Hshift : forall x, F2R x c = F2R (x * 2 ^ (c - e)) e).
  { intros x. rewrite F2R_shift by lia. f_equal. lia. }
  split.
  { unfold d. replace (Zdigits2 m + e - 1) with (Zdigits2 m - 1 + e) by lia.
    apply F2R_magnitude; exact Hm. }
  split; [rewrite !Hshift; split; [apply F2R_le | apply F2R_lt]; assumption |].
  split.
  { destruct (Z.eq_dec m1 s1) as [-> | Hne]; [left; reflexivity |].
    right. split; [lia |]. rewrite Hshift. apply F2R_lt.
    destruct (Z.eq_dec (s1 * 2 ^ (c - e)) m) as [Heq | Hneq]; [| lia].
    exfalso. apply Hne, Hexact. exists s1. lia. }
  rewrite Er. clear Er Hexact Hshift.
  pose proof (Zdigits2_pow2_le m Hm) as Hdlo.
  pose proof (Zdigits2_lt_pow2 m ltac:(lia)) as Hdhi.
  assert (Hdm : 0 < Zdigits2 m) by (destruct m; try lia; simpl; lia).
  assert (H2n : 0 < 2 ^ (c - e)) by (apply Z.pow_pos_nonneg; lia).
  destruct (Z.le_gt_cases (emin prec emax) (d - prec)) as [Hnormal | Hsub].
  - (* normal range: [prec] digits are kept *)
    assert (Hc : c = d - prec) by (unfold c, fexp; lia).
    assert (Hn : c - e = Zdigits2 m - prec) by (unfold d in Hc; lia).
    assert (Hs1lo : 2 ^ (prec - 1) <= s1).
    { assert (2 ^ (prec - 1) < s1 + 1); [| lia].
      apply (Z.mul_lt_mono_pos_r (2 ^ (c - e))); [exact H2n |].
      rewrite <- Z.pow_add_r by lia.
      replace (prec - 1 + (c - e)) with (Zdigits2 m - 1) by lia. lia. }
    assert (Hs1hi : s1 < 2 ^ prec).
    { apply (Z.mul_lt_mono_pos_r (2 ^ (c - e))); [exact H2n |].
      rewrite <- Z.pow_add_r by lia.
      replace (prec + (c - e)) with (Zdigits2 m) by lia. lia. }
    assert (H2p : 0 < 2 ^ (prec - 1)) by (apply Z.pow_pos_nonneg; lia).
    assert (H2pp : 2 ^ prec = 2 * 2 ^ (prec - 1)).
    { replace prec with (1 + (prec - 1)) at 1 by lia.
      rewrite Z.pow_add_r by lia. reflexivity. }
    destruct (Z.eq_dec m1 (2 ^ prec)) as [Hover | Hno].
    + (* the significand has moved up to [2^prec] *)
      assert (Hd1 : Zdigits2 m1 = prec + 1).
      { apply Zdigits2_unique; [| lia]. rewrite Hover.
        replace (prec + 1 - 1) with prec by lia. split; [lia |].
        rewrite Z.pow_add_r by lia. lia. }
      assert (Hn2 : shift_amount prec emax m1 c = 1)
        by (unfold shift_amount, fexp; rewrite Hd1; lia).
      rewrite Hn2, Hover.
      replace (Z.shiftr (2 ^ prec) 1) with (2 ^ (prec - 1))
        by (rewrite Z.shiftr_div_pow2, H2pp by lia; change (2 ^ 1) with 2;
            rewrite Z.mul_comm, Z.div_mul by lia; reflexivity).
      assert (Ep : exists p, 2 ^ (prec - 1) = Zpos p)
        by (destruct (2 ^ (prec - 1)) as [| p | p]; try lia; eauto).
      destruct Ep as [p Ep]. rewrite Ep.
      destruct (c + 1 <=? emax - prec) eqn:Ele.
      * split; [reflexivity |]. split.
        { rewrite <- Ep, H2pp.
          rewrite (Z.mul_comm 2), (F2R_shift _ c 1) by lia. reflexivity. }
        split; [| right; reflexivity].
        assert (Hdp : Zdigits2 (Zpos p) = prec).
        { apply Zdigits2_unique; [| lia]. rewrite <- Ep. lia. }
        rewrite Hdp. unfold fexp. lia.
      * apply Z.leb_gt in Ele. lia.
    + assert (Hd1 : Zdigits2 m1 = prec) by (apply Zdigits2_unique; lia).
      assert (Hn2 : shift_amount prec emax m1 c = 0)
        by (unfold shift_amount, fexp; rewrite Hd1; lia).
      rewrite Hn2, Z.shiftr_0_r, Z.add_0_r.
      destruct m1 as [| p | p]; try lia.
      destruct (c <=? emax - prec) eqn:Ele.
      * split; [reflexivity |]. split; [reflexivity |].
        split; [| left; reflexivity].
        rewrite Hd1. unfold fexp. lia.
      * apply Z.leb_gt in Ele. lia.
  - (* subnormal range *)
    assert (Hc : c = emin prec emax) by (unfold c, fexp; lia).
    assert (Hs1hi : s1 < 2 ^ (prec - 1)).
    { apply (Z.mul_lt_mono_pos_r (2 ^ (c - e))); [exact H2n |].
      rewrite <- Z.pow_add_r by lia.
      eapply Z.le_lt_trans; [exact Hlo |].
      eapply Z.lt_le_trans; [exact Hdhi |].
      apply Z.pow_le_mono_r; [lia |]. unfold d in Hsub. lia. }
    assert (Hd1 : Zdigits2 m1 <= prec).
    { apply Zdigits2_le; [lia | lia |].
      replace prec with (1 + (prec - 1)) by lia.
      rewrite Z.pow_add_r by lia. lia. }
    pose proof (Zdigits2_nonneg m1) as Hd0.
    assert (Hn2 : shift_amount prec emax m1 c = 0)
      by (unfold shift_amount, fexp; lia).
    rewrite Hn2, Z.shiftr_0_r, Z.add_0_r.
    destruct m1 as [| p | p]; [split; reflexivity | | lia].
    destruct (c <=? emax - prec) eqn:Ele.
    + split; [reflexivity |]. split; [reflexivity |].
      split; [| left; reflexivity].
      unfold fexp. lia.
    + apply Z.leb_gt in Ele. lia.
Qed.

End RoundsTo.

(** Alignment keeps the value. *)
Lemma shl_align_F2R m e e' :
  e' <= e -> F2R (Zpos (fst (shl_align m e e'))) e' = F2R (Zpos m) e.
Proof.
  intros H. destruct (shl_align_shift m e e' H) as [-> _].
  rewrite F2R_shift by lia. f_equal. lia.
Qed.

Section Monotone.

Variables prec emax : Z.
Hypothesis prec_pos : 0 < prec.

(** So is the rounding of any positive [m * 2^e], which first aligns the
    significand. *)
Lemma binary_round_rounds p e :
  rounds_to prec emax (F2R (Zpos p) e) (binary_round prec emax false p e).
Proof.
  unfold binary_round.
  change (Zpos (digits2_pos p)) with (Zdigits2 (Zpos p)).
  set (f := fexp prec emax (Zdigits2 (Zpos p) + e)).
  destruct (Z.le_gt_cases e f) as [Hle | Hgt].
  - rewrite shl_align_keep by exact Hle.
    apply binary_round_aux_rounds; [exact prec_pos | lia | exact Hle].
  - destruct (shl_align_shift p e f ltac:(lia)) as [Hv He].
    pose proof (shl_align_F2R p e f ltac:(lia)) as HR.
    destruct (shl_align p e f) as [mz ez]. cbn [fst snd] in Hv, He, HR. subst ez.
    rewrite <- HR.
    apply binary_round_aux_rounds; [exact prec_pos | lia |].
    rewrite Hv, Zdigits2_shift by lia.
    replace (Zdigits2 (Zpos p) + (e - f) + f) with (Zdigits2 (Zpos p) + e) by lia.
    fold f. lia.
Qed.

(** A canonical representation: the exponent is the one the format gives
    to a number of that magnitude. *)
Lemma canonical_magnitude mb eb d :
  eb = fexp prec emax (Zdigits2 (Zpos mb) + eb) ->
  (powerRZ 2 (d - 1) <= F2R (Zpos mb) eb)%R ->
  fexp prec emax d <= eb.
Proof.
  intros Hc Hd.
  pose proof (F2R_magnitude (Zpos mb) eb ltac:(lia)) as [_ Hhi].
  assert (d - 1 < Zdigits2 (Zpos mb) + eb) by (apply pow2_lt_inv; lra).
  rewrite Hc. unfold fexp. lia.
Qed.

(** Rounding is monotone: the rounding of a number that is at most a
    canonical float is at most that float. *)
Lemma rounds_to_le v x mb eb :
  rounds_to prec emax v x ->
  eb = fexp prec emax (Zdigits2 (Zpos mb) + eb) ->
  (v <= F2R (Zpos mb) eb)%R ->
  match x with
  | S754_zero _ => True
  | S754_finite _ m e => (F2R (Zpos m) e <= F2R (Zpos mb) eb)%R
  | S754_infinity _ => emax - prec <= eb
  | S754_nan => False
  end.
Proof.
  intros (d & s1 & m1 & Hmag & Hbr & Hm1 & Hx) Hcan Hle. cbv zeta in *.
  set (c := fexp prec emax d) in *.
  assert (Hc : c <= eb).
  { apply (canonical_magnitude mb eb d Hcan). lra. }
  destruct x as [s | s | | s m e]; auto.
  - lia.
  - destruct Hx as (_ & -> & _ & _).
    assert (HB : F2R (Zpos mb) eb = F2R (Zpos mb * 2 ^ (eb - c)) c).
    { rewrite F2R_shift by lia. f_equal. lia. }
    rewrite HB in *. apply F2R_le.
    destruct Hm1 as [-> | [-> Hlt]].
    + apply (F2R_le _ _ c). lra.
    + assert (s1 < Zpos mb * 2 ^ (eb - c)); [| lia].
      apply (F2R_lt _ _ c). lra.
Qed.

(** And the rounding of a number that is at least a canonical float is at
    least that float. *)
Lemma rounds_to_ge v x mb eb :
  rounds_to prec emax v x ->
  eb = fexp prec emax (Zdigits2 (Zpos mb) + eb) ->
  (F2R (Zpos mb) eb <= v)%R ->
  match x with
  | S754_finite _ m e => (F2R (Zpos mb) eb <= F2R (Zpos m) e)%R
  | S754_infinity _ => True
  | S754_zero _ | S754_nan => False
  end.
Proof.
  intros (d & s1 & m1 & Hmag & Hbr & Hm1 & Hx) Hcan Hle. cbv zeta in *.
  set (c := fexp prec emax d) in *.
  assert (HB : (F2R (Zpos mb) eb <= F2R s1 c)%R).
  { destruct (Z.le_gt_cases c eb) as [Hc | Hc].
    - assert (HB : F2R (Zpos mb) eb = F2R (Zpos mb * 2 ^ (eb - c)) c).
      { rewrite F2R_shift by lia. f_equal. lia. }
      rewrite HB in *. apply F2R_le.
      assert (Zpos mb * 2 ^ (eb - c) < s1 + 1); [| lia].
      apply (F2R_lt _ _ c). lra.
    - (* the float has a smaller exponent: it lies below the binade *)
      assert (Hnormal : c = d - prec) by (unfold c, fexp in *; lia).
      assert (Hdb : Zdigits2 (Zpos mb) <= prec) by (unfold fexp in Hcan; lia).
      pose proof (F2R_magnitude (Zpos mb) eb ltac:(lia)) as [_ Hhi].
      assert (Hpow : (powerRZ 2 (Zdigits2 (Zpos mb) + eb) <= powerRZ 2 (d - 1))%R)
        by (apply pow2_le; lia).
      assert (Hs1 : 2 ^ (prec - 1) <= s1).
      { assert (2 ^ (prec - 1) < s1 + 1); [| lia].
        apply (F2R_lt _ _ c).
        replace (F2R (2 ^ (prec - 1)) c) with (powerRZ 2 (d - 1)); [lra |].
        unfold F2R. rewrite <- pow2_IZR, <- pow2_add by lia. f_equal. lia. }
      apply (F2R_le _ _ c) in Hs1.
      replace (F2R (2 ^ (prec - 1)) c) with (powerRZ 2 (d - 1)) in Hs1; [lra |].
      unfold F2R. rewrite <- pow2_IZR, <- pow2_add by lia. f_equal. lia. }
  assert (Hpos : (0 < F2R (Zpos mb) eb)%R).
  { unfold F2R. pose proof (pow2_pos eb). assert (0 < IZR (Zpos mb))%R by (apply IZR_lt; lia). nra. }
  assert (Hm1' : s1 <= m1) by (destruct Hm1 as [-> | [-> _]]; lia).
  apply (F2R_le _ _ c) in Hm1'.
  destruct x as [s | s | | s m e]; auto.
  - destruct Hx as [_ ->]. unfold F2R in Hm1' at 2. lra.
  - destruct Hx as (_ & -> & _ & _). lra.
Qed.

End Monotone.

(** Values of sums, differences and products. *)
Lemma F2R_add m1 m2 e : F2R (m1 + m2) e = (F2R m1 e + F2R m2 e)%R.
Proof. unfold F2R. rewrite plus_IZR. ring. Qed.

Lemma F2R_sub m1 m2 e : F2R (m1 - m2) e = (F2R m1 e - F2R m2 e)%R.
Proof. unfold F2R. rewrite minus_IZR. ring. Qed.

Lemma F2R_mul m1 e1 m2 e2 : F2R (m1 * m2) (e1 + e2) = (F2R m1 e1 * F2R m2 e2)%R.
Proof. unfold F2R. rewrite mult_IZR, pow2_add. ring. Qed.

Lemma F2R_pos m e : 0 < m -> (0 < F2R m e)%R.
Proof.
  intros Hm. unfold F2R. pose proof (pow2_pos e).
  apply IZR_lt in Hm. nra.
Qed.

Section Operations.

Variables prec emax : Z.
Hypothesis prec_pos : 0 < prec.

(** On canonical floats the comparison of [SpecFloat] is the comparison of
    the values. *)
Lemma SFleb_canonical m1 e1 m2 e2 :
  e1 = fexp prec emax (Zdigits2 (Zpos m1) + e1) ->
  e2 = fexp prec emax (Zdigits2 (Zpos m2) + e2) ->
  (F2R (Zpos m1) e1 <= F2R (Zpos m2) e2)%R ->
  SFleb (S754_finite false m1 e1) (S754_finite false m2 e2) = true.
Proof.
  intros H1 H2 Hle. unfold SFleb. rewrite SFcompare_finite_pos.
  destruct (Z.compare_spec e1 e2) as [He | Hl | Hg]; [| reflexivity |].
  - subst e2. apply F2R_le in Hle.
    rewrite Pos.compare_cont_spec. unfold Pos.switch_Eq.
    destruct (Pos.compare_spec m1 m2) as [? | ? | Hgt]; try reflexivity.
    apply Pos2Z.pos_lt_pos in Hgt. lia.
  - exfalso.
    pose proof (F2R_magnitude (Zpos m1) e1 ltac:(lia)) as [Hlo _].
    pose proof (F2R_magnitude (Zpos m2) e2 ltac:(lia)) as [_ Hhi].
    assert (Hd1 : Zdigits2 (Zpos m1) = prec) by (unfold fexp in *; lia).
    assert (Hd2 : Zdigits2 (Zpos m2) <= prec) by (unfold fexp in H2; lia).
    assert (Hpow : (powerRZ 2 (Zdigits2 (Zpos m2) + e2)
                    <= powerRZ 2 (Zdigits2 (Zpos m1) - 1 + e1))%R)
      by (apply pow2_le; lia).
    lra.
Qed.

(** A finite float is at most itself. *)
Lemma SFleb_refl_finite m e :
  SFleb (S754_finite false m e) (S754_finite false m e) = true.
Proof.
  unfold SFleb. rewrite SFcompare_finite_pos, Z.compare_refl.
  rewrite Pos.compare_cont_spec, Pos.compare_refl. reflexivity.
Qed.

(** Sum, difference and product of positive finite floats are roundings
    of the exact sum, difference and product. *)
Lemma SFadd_rounds m1 e1 m2 e2 :
  rounds_to prec emax (F2R (Zpos m1) e1 + F2R (Zpos m2) e2)
    (SFadd prec emax (S754_finite false m1 e1) (S754_finite false m2 e2)).
Proof.
  cbn [SFadd cond_Zopp].
  rewrite <- (shl_align_F2R m1 e1 (Z.min e1 e2)) by lia.
  rewrite <- (shl_align_F2R m2 e2 (Z.min e1 e2)) by lia.
  rewrite <- F2R_add.
  destruct (Zpos _ + Zpos _) as [| p | p] eqn:E; try lia.
  cbn [binary_normalize]. apply binary_round_rounds. exact prec_pos.
Qed.

Lemma SFsub_rounds m1 e1 m2 e2 :
  (F2R (Zpos m2) e2 < F2R (Zpos m1) e1)%R ->
  rounds_to prec emax (F2R (Zpos m1) e1 - F2R (Zpos m2) e2)
    (SFsub prec emax (S754_finite false m1 e1) (S754_finite false m2 e2)).
Proof.
  intros Hlt. cbn [SFsub cond_Zopp].
  rewrite <- (shl_align_F2R m1 e1 (Z.min e1 e2)) in * by lia.
  rewrite <- (shl_align_F2R m2 e2 (Z.min e1 e2)) in * by lia.
  rewrite <- F2R_sub. apply F2R_lt in Hlt.
  destruct (Zpos _ - Zpos _) as [| p | p] eqn:E; try lia.
  cbn [binary_normalize]. apply binary_round_rounds. exact prec_pos.
Qed.

Lemma SFmul_rounds m1 e1 m2 e2 :
  e1 + e2 <= fexp prec emax (Zdigits2 (Zpos (m1 * m2)) + (e1 + e2)) ->
  rounds_to prec emax (F2R (Zpos m1) e1 * F2R (Zpos m2) e2)
    (SFmul prec emax (S754_finite false m1 e1) (S754_finite false m2 e2)).
Proof.
  intros He. cbn [SFmul xorb].
  rewrite <- F2R_mul, <- Pos2Z.inj_mul.
  apply binary_round_aux_rounds; [exact prec_pos | lia | exact He].
Qed.

End Operations.

(** ** Unit draws *)

(** A unit draw that is not zero is [k / 2^23] for some [0 < k < 2^23],
    with a significand of 24 bits. *)
Lemma uint32_to_float_value word :
  uint32_to_float word = S754_zero false \/
  exists m e k,
    uint32_to_float word = S754_finite false m e /\
    F2R (Zpos m) e = F2R k (-23) /\ 0 < k < 2 ^ 23 /\
    Zdigits2 (Zpos m) = 24.
Proof.
  unfold uint32_to_float.
  pose proof (Z.mod_pos_bound word (2 ^ 23) ltac:(lia)) as Hk.
  destruct (word mod 2 ^ 23) as [| k | k]; auto.
  right.
  change (Zpos (digits2_pos k)) with (Zdigits2 (Zpos k)).
  assert (Hd : 0 < Zdigits2 (Zpos k) <= 23).
  { split; [simpl; lia |]. apply Zdigits2_le; lia. }
  assert (Hf : fexp Float32.prec Float32.emax (Zdigits2 (Zpos k) + -23) =
               Zdigits2 (Zpos k) - 47)
    by (unfold fexp, emin, Float32.prec, Float32.emax; lia).
  rewrite Hf.
  destruct (shl_align_shift k (-23) (Zdigits2 (Zpos k) - 47) ltac:(lia)) as [Hv He].
  pose proof (shl_align_F2R k (-23) (Zdigits2 (Zpos k) - 47) ltac:(lia)) as HR.
  destruct (shl_align k (-23) _) as [m e]. cbn [fst snd] in Hv, He, HR. subst e.
  exists m, (Zdigits2 (Zpos k) - 47), (Zpos k).
  split; [reflexivity |]. split; [exact HR |]. split; [lia |].
  rewrite Hv, Zdigits2_shift by lia. lia.
Qed.

(** The value of the binary32 number 1. *)
Lemma F2R_one : F2R 8388608 (-23) = 1%R.
Proof.
  change 8388608 with (1 * 2 ^ 23). rewrite F2R_shift by lia.
  unfold F2R. simpl. lra.
Qed.

Lemma pow2_neg24 : (16777216 * powerRZ 2 (-24) = 1)%R.
Proof.
  change 16777216%R with (IZR (2 ^ 24)). rewrite <- pow2_IZR, <- pow2_add by lia.
  reflexivity.
Qed.

(** A positive binary32 number below 1 is at most [1 - 2^-24]. *)
Lemma below_one_value m e :
  Zpos m < 2 ^ 24 ->
  SFltb (S754_finite false m e) Float32.one = true ->
  (0 < F2R (Zpos m) e <= 1 - powerRZ 2 (-24))%R.
Proof.
  intros Hm Hlt. split; [apply F2R_pos; lia |].
  apply (SFltb_finite_pos m e 8388608 (-23)) in Hlt.
  pose proof pow2_neg24 as H24. pose proof (pow2_pos (-24)) as Hp.
  destruct Hlt as [He | [-> Hm']].
  - assert (Hle : (F2R (Zpos m) e <= F2R (2 ^ 24 - 1) e)%R) by (apply F2R_le; lia).
    assert (Hpe : (powerRZ 2 e <= powerRZ 2 (-24))%R) by (apply pow2_le; lia).
    pose proof (pow2_pos e) as Hpp.
    unfold F2R in *. change (IZR (2 ^ 24 - 1)) with 16777215%R in Hle. nra.
  - assert (Hle : (F2R (Zpos m) (-23) <= F2R (2 ^ 23 - 1) (-23))%R) by (apply F2R_le; lia).
    assert (H23 : powerRZ 2 (-23) = (2 * powerRZ 2 (-24))%R).
    { replace (-23) with (1 + -24) by lia. rewrite pow2_add. simpl. lra. }
    unfold F2R in *. change (IZR (2 ^ 23 - 1)) with 8388607%R in Hle. rewrite H23 in *. nra.
Qed.

(** [1 - h] for a positive binary32 number [h] below 1: a positive
    canonical float with a 24-bit significand, together with the canonical
    float [s * 2^c] just below or at the exact difference, from which the
    result is at most one unit in the last place away. *)
Lemma sub_one_value mh eh :
  Zpos mh < 2 ^ 24 ->
  SFltb (S754_finite false mh eh) Float32.one = true ->
  exists md ed s c,
    Float32.sub Float32.one (S754_finite false mh eh) = S754_finite false md ed /\
    Zdigits2 (Zpos md) = 24 /\ -47 <= ed <= -23 /\
    2 ^ 23 <= Zpos s < 2 ^ 24 /\ -47 <= c <= -24 /\
    (F2R (Zpos s) c <= 1 - F2R (Zpos mh) eh)%R /\
    (F2R (Zpos md) ed <= F2R (Zpos s + 1) c)%R /\
    (F2R (Zpos s) c <= F2R (Zpos md) ed)%R /\
    ed = fexp 24 128 (Zdigits2 (Zpos md) + ed).
Proof.
  intros Hm Hlt.
  destruct (below_one_value mh eh Hm Hlt) as [Hh0 Hh1].
  pose proof (SFsub_rounds 24 128 ltac:(lia) 8388608 (-23) mh eh) as Hd.
  rewrite F2R_one in Hd. specialize (Hd ltac:(pose proof (pow2_pos (-24)); lra)).
  change (SFsub 24 128 (S754_finite false 8388608 (-23)) (S754_finite false mh eh))
    with (Float32.sub Float32.one (S754_finite false mh eh)) in Hd.
  destruct Hd as (dd & s1 & m1 & Hmag & Hbr & Hm1 & Hx). cbv zeta in *.
  set (v := (1 - F2R (Zpos mh) eh)%R) in *.
  assert (Hv : (powerRZ 2 (-24) <= v < 1)%R) by (unfold v; lra).
  assert (Hdd : -23 <= dd <= 0).
  { split.
    - assert (-24 < dd); [| lia]. apply pow2_lt_inv. lra.
    - assert (dd - 1 < 0); [| lia]. apply pow2_lt_inv.
      change (powerRZ 2 0) with 1%R. lra. }
  assert (Hc : fexp 24 128 dd = dd - 24) by (unfold fexp, emin; lia).
  rewrite Hc in *. set (c := dd - 24) in *.
  assert (Hpow : F2R (2 ^ 23) c = powerRZ 2 (dd - 1)).
  { unfold F2R. rewrite <- pow2_IZR, <- pow2_add by lia. f_equal. lia. }
  assert (Hpow' : F2R (2 ^ 24) c = powerRZ 2 dd).
  { unfold F2R. rewrite <- pow2_IZR, <- pow2_add by lia. f_equal. lia. }
  assert (Hs1 : 2 ^ 23 <= s1 < 2 ^ 24).
  { split.
    - assert (2 ^ 23 < s1 + 1); [| lia]. apply (F2R_lt _ _ c). lra.
    - apply (F2R_lt _ _ c). lra. }
  assert (Hm1' : s1 <= m1 <= s1 + 1) by (destruct Hm1 as [-> | [-> _]]; lia).
  destruct s1 as [| s | s]; try lia.
  destruct (Float32.sub Float32.one (S754_finite false mh eh)) as [sd | sd | | sd md ed].
  - lia.
  - lia.
  - contradiction.
  - destruct Hx as (-> & Hval & Hcan & He2).
    exists md, ed, s, c.
    split; [reflexivity |].
    split; [unfold fexp, emin in Hcan; lia |].
    split; [lia |]. split; [lia |]. split; [lia |].
    split; [lra |].
    split; [rewrite Hval; apply F2R_le; lia |].
    split; [rewrite Hval; apply F2R_le; lia | exact Hcan].
Qed.

(** A finite rounding is positive and canonical. *)
Lemma rounds_to_canonical prec emax v s m e :
  rounds_to prec emax v (S754_finite s m e) ->
  s = false /\ e = fexp prec emax (Zdigits2 (Zpos m) + e).
Proof.
  intros (d & s1 & m1 & _ & _ & _ & Hs & _ & Hc & _). auto.
Qed.

Lemma one_canonical : -23 = fexp 24 128 (Zdigits2 (Zpos 8388608) + -23).
Proof. reflexivity. Qed.

(** The product of a unit draw with a float [d] of 24 bits that is at most
    one unit in the last place above the canonical float [s * 2^c]: zero,
    or a canonical float that is at most [s * 2^c]. *)
Lemma mul_unit_draw mu eu k md ed s c :
  F2R (Zpos mu) eu = F2R k (-23) -> 0 < k < 2 ^ 23 -> Zdigits2 (Zpos mu) = 24 ->
  Zdigits2 (Zpos md) = 24 ->
  2 ^ 23 <= Zpos s < 2 ^ 24 -> -149 <= c < 104 ->
  (F2R (Zpos md) ed <= F2R (Zpos s + 1) c)%R ->
  Float32.mul (S754_finite false mu eu) (S754_finite false md ed) = S754_zero false \/
  exists mp ep,
    Float32.mul (S754_finite false mu eu) (S754_finite false md ed) =
      S754_finite false mp ep /\
    ep = fexp 24 128 (Zdigits2 (Zpos mp) + ep) /\
    (F2R (Zpos mp) ep <= F2R (Zpos s) c)%R.
Proof.
  intros Hu Hk Hdu Hdd Hs Hc Hd.
  assert (Hdigits : 47 <= Zdigits2 (Zpos (mu * md))).
  { pose proof (Zdigits2_pow2_le (Zpos mu) ltac:(lia)) as H1.
    pose proof (Zdigits2_pow2_le (Zpos md) ltac:(lia)) as H2.
    rewrite Hdu in H1. rewrite Hdd in H2.
    pose proof (Zdigits2_lt_pow2 (Zpos (mu * md)) ltac:(lia)) as H3.
    pose proof (Zdigits2_nonneg (Zpos (mu * md))) as H0.
    assert (46 < Zdigits2 (Zpos (mu * md))); [| lia].
    apply (Z.pow_lt_mono_r_iff 2); [lia | lia |].
    eapply Z.le_lt_trans; [| exact H3].
    rewrite Pos2Z.inj_mul. change (2 ^ 46) with (2 ^ (24 - 1) * 2 ^ (24 - 1)).
    apply Z.mul_le_mono_nonneg; lia. }
  pose proof (SFmul_rounds 24 128 ltac:(lia) mu eu md ed
                ltac:(unfold fexp; lia)) as Hp.
  change (SFmul 24 128 (S754_finite false mu eu) (S754_finite false md ed))
    with (Float32.mul (S754_finite false mu eu) (S754_finite false md ed)) in Hp.
  assert (Hcan : c = fexp 24 128 (Zdigits2 (Zpos s) + c)).
  { rewrite (Zdigits2_unique (Zpos s) 24) by lia. unfold fexp, emin. lia. }
  assert (Hle : (F2R (Zpos mu) eu * F2R (Zpos md) ed <= F2R (Zpos s) c)%R).
  { rewrite Hu.
    assert (Hk' : (F2R k (-23) <= F2R (2 ^ 23 - 1) (-23))%R) by (apply F2R_le; lia).
    assert (Hk0 : (0 < F2R k (-23))%R) by (apply F2R_pos; lia).
    assert (Hd0 : (0 < F2R (Zpos md) ed)%R) by (apply F2R_pos; lia).
    assert (Hone : (F2R (2 ^ 23 - 1) (-23) = 1 - powerRZ 2 (-23))%R).
    { rewrite F2R_sub. change (2 ^ 23) with 8388608. rewrite F2R_one.
      unfold F2R. ring. }
    rewrite Hone in Hk'.
    assert (Ht : (8388608 * powerRZ 2 (-23) = 1)%R).
    { pose proof F2R_one as H1. unfold F2R in H1. exact H1. }
    pose proof (pow2_pos (-23)) as Htp. pose proof (pow2_pos c) as Hcp.
    assert (Hs' : (8388608 <= IZR (Zpos s))%R) by (apply IZR_le; lia).
    unfold F2R in Hd, Hk', Hk0, Hd0 |- *. rewrite plus_IZR in Hd.
    set (t := powerRZ 2 (-23)) in *. set (X := powerRZ 2 c) in *.
    set (S := IZR (Zpos s)) in *. set (U := (IZR k * t)%R) in *.
    set (D := (IZR (Zpos md) * powerRZ 2 ed)%R) in *.
    assert (H1 : (U * D <= (1 - t) * D)%R) by nra.
    assert (H2 : ((1 - t) * D <= (1 - t) * ((S + 1) * X))%R) by nra.
    assert (H3 : ((1 - t) * ((S + 1) * X) <= S * X)%R).
    { assert (1 <= t * (S + 1))%R by nra.
      assert ((1 - t) * (S + 1) <= S)%R by nra.
      nra. }
    lra. }
  pose proof (rounds_to_le 24 128 _ _ s c Hp Hcan Hle) as Hres.
  destruct (Float32.mul _ _) as [sp | sp | | sp mp ep].
  - left. destruct Hp as (? & ? & ? & _ & _ & _ & -> & _). reflexivity.
  - lia.
  - contradiction.
  - right. destruct (rounds_to_canonical _ _ _ _ _ _ Hp) as [-> Hcp].
    exists mp, ep. auto.
Qed.

(** Adding an extent to a canonical offset, the exact sum being at most 1:
    the far edge is at least the offset and at most 1. *)
Lemma add_within mp ep mh eh :
  ep = fexp 24 128 (Zdigits2 (Zpos mp) + ep) ->
  (F2R (Zpos mp) ep + F2R (Zpos mh) eh <= 1)%R ->
  Float32.leb (S754_finite false mp ep)
    (Float32.add (S754_finite false mp ep) (S754_finite false mh eh)) = true /\
  Float32.leb (Float32.add (S754_finite false mp ep) (S754_finite false mh eh))
    Float32.one = true.
Proof.
  intros Hcan Hsum.
  pose proof (SFadd_rounds 24 128 ltac:(lia) mp ep mh eh) as Hy.
  change (SFadd 24 128 (S754_finite false mp ep) (S754_finite false mh eh))
    with (Float32.add (S754_finite false mp ep) (S754_finite false mh eh)) in Hy.
  pose proof (F2R_pos (Zpos mh) eh ltac:(lia)) as Hh.
  pose proof (rounds_to_le 24 128 _ _ 8388608 (-23) Hy one_canonical
                ltac:(rewrite F2R_one; exact Hsum)) as Hup.
  pose proof (rounds_to_ge 24 128 ltac:(lia) _ _ mp ep Hy Hcan ltac:(lra)) as Hlo.
  destruct (Float32.add _ _) as [sy | sy | | sy my ey];
    cbv beta iota in Hup, Hlo; try contradiction; try lia.
  destruct (rounds_to_canonical _ _ _ _ _ _ Hy) as [-> Hcy].
  split.
  - apply (SFleb_canonical 24 128); assumption.
  - apply (SFleb_canonical 24 128); [exact Hcy | exact one_canonical | exact Hup].
Qed.

(** The near and the far edge along one dimension lie in this order, and
    the far edge is at most 1. *)
Lemma edge_within c word :
  Float32.is_nan c = false ->
  (forall m e, c = S754_finite false m e -> Zpos m < 2 ^ 24) ->
  let extent := tf_clip_by_value c Float32.zero Float32.one in
  let offset := Spec.uniform (Spec.offset_interval extent) (uint32_to_float word) in
  Float32.leb offset (Float32.add offset extent) = true /\
  Float32.leb (Float32.add offset extent) Float32.one = true.
Proof.
  intros Hnan Hc extent offset. subst offset extent.
  destruct (clip_cases c Hnan Hc) as [-> | [-> | (mh & eh & -> & _ & Hm & Hlt)]].
  - (* the extent is 0: the offset is the unit draw itself *)
    change (Spec.offset_interval Float32.zero) with (Float32.zero, Float32.one).
    unfold Spec.uniform, scale_uniform. cbn [fst snd].
    change (Float32.sub Float32.one Float32.zero) with Float32.one.
    destruct (uint32_to_float_value word) as [-> | (mu & eu & k & -> & Hu & Hk & Hdu)];
      [split; reflexivity |].
    destruct (mul_unit_draw mu eu k 8388608 (-23) 16777215 (-24) Hu Hk Hdu
                ltac:(reflexivity) ltac:(lia) ltac:(lia))
      as [Hp | (mp & ep & Hp & Hcan & Hle)].
    { replace (F2R 8388608 (-23)) with (F2R (8388608 * 2 ^ 1) (-24))
        by (rewrite F2R_shift by lia; reflexivity).
      apply F2R_le. lia. }
    + change (S754_finite false 8388608 (-23)) with Float32.one in Hp.
      rewrite Hp. split; reflexivity.
    + change (S754_finite false 8388608 (-23)) with Float32.one in Hp.
      rewrite Hp.
      change (Float32.add (S754_finite false mp ep) Float32.zero)
        with (S754_finite false mp ep).
      split; [apply SFleb_refl_finite |].
      apply (SFleb_canonical 24 128); [exact Hcan | exact one_canonical |].
      rewrite F2R_one.
      assert (F2R 16777215 (-24) <= 1)%R; [| lra].
      pose proof pow2_neg24. pose proof (pow2_pos (-24)). unfold F2R. nra.
  - (* the extent is 1 *)
    destruct (full_extent_edges word) as [E1 E2].
    rewrite E2, E1. split; reflexivity.
  - (* the extent is a positive number below 1 *)
    destruct (sub_one_value mh eh Hm Hlt)
      as (md & ed & s & c' & Hsub & Hdd & Hed & Hs & Hc' & Hsv & Hdv & _ & _).
    destruct (below_one_value mh eh Hm Hlt) as [Hh0 Hh1].
    unfold Spec.uniform, Spec.offset_interval, scale_uniform. cbn [fst snd].
    rewrite Hsub.
    change (tf_minimum Float32.zero (S754_finite false md ed)) with Float32.zero.
    change (tf_maximum Float32.zero (S754_finite false md ed))
      with (S754_finite false md ed).
    change (Float32.sub (S754_finite false md ed) Float32.zero)
      with (S754_finite false md ed).
    assert (Hzero : Float32.leb Float32.zero
                      (Float32.add Float32.zero (S754_finite false mh eh)) = true /\
                    Float32.leb (Float32.add Float32.zero (S754_finite false mh eh))
                      Float32.one = true).
    { change (Float32.add Float32.zero (S754_finite false mh eh))
        with (S754_finite false mh eh).
      split; [reflexivity | apply SFltb_SFleb; exact Hlt]. }
    destruct (uint32_to_float_value word) as [-> | (mu & eu & k & -> & Hu & Hk & Hdu)];
      [exact Hzero |].
    destruct (mul_unit_draw mu eu k md ed s c' Hu Hk Hdu Hdd Hs ltac:(lia) Hdv)
      as [Hp | (mp & ep & Hp & Hcan & Hle)]; rewrite Hp.
    + exact Hzero.
    + change (Float32.add (S754_finite false mp ep) Float32.zero)
        with (S754_finite false mp ep).
      apply add_within; [exact Hcan | lra].
Qed.

(** X1. For a sampled area in [[0, 1]] and a positive, finite sampled
    aspect ratio (draws for which no candidate is NaN),
    [get_random_transformation] returns a rectangle inside the image:
    [0 <= y1 <= y2 <= 1] and [0 <= x1 <= x2 <= 1] in binary32, whatever
    the two offset draws are.  The roundings of [1 - h], of the offset and
    of [offset + h] never push an edge out of [[0, 1]] or past the other
    edge. *)
Theorem rectangle_within_image self g :
  let a := sample (RandomResizedCrop.area_factor self) (unit_draw (sampler_source g) 0) in
  let r := sample (RandomResizedCrop.aspect_ratio_factor self) (unit_draw (sampler_source g) 1) in
  Float32.leb Float32.zero a = true ->
  Float32.leb a Float32.one = true ->
  Float32.ltb Float32.zero r = true ->
  Float32.is_finite r = true ->
  exists y1 x1 y2 x2,
    fst (RandomResizedCrop.get_random_transformation self g) = Ok [[y1; x1; y2; x2]] /\
    Float32.leb Float32.zero y1 = true /\ Float32.leb y1 y2 = true /\
    Float32.leb y2 Float32.one = true /\
    Float32.leb Float32.zero x1 = true /\ Float32.leb x1 x2 = true /\
    Float32.leb x2 Float32.one = true.
Proof.
  intros a r Ha0 Ha1 Hr Hfin.
  destruct (candidates_not_nan a r Ha0 Ha1 Hr Hfin) as [Hh Hw].
  rewrite get_random_transformation_unfold.
  unfold Spec.sample_rectangle, Spec.rectangle, Spec.h, Spec.w. fold a r.
  set (word_h := stream (_random_generator g) (0 + position (_random_generator g))%nat).
  set (word_w := stream (_random_generator g) (1 + position (_random_generator g))%nat).
  destruct (edge_nonneg (Float32.sqrt (Float32.div a r)) word_h Hh
              (sqrt_finite_bound _)) as [Hy1 _].
  destruct (edge_nonneg (Float32.sqrt (Float32.mul a r)) word_w Hw
              (sqrt_finite_bound _)) as [Hx1 _].
  destruct (edge_within (Float32.sqrt (Float32.div a r)) word_h Hh
              (sqrt_finite_bound _)) as [Hy12 Hy2].
  destruct (edge_within (Float32.sqrt (Float32.mul a r)) word_w Hw
              (sqrt_finite_bound _)) as [Hx12 Hx2].
  do 4 eexists. split; [reflexivity |].
  repeat split; try assumption; apply nonneg_leb_zero; assumption.
Qed.

Lemma rectangle_within_image_witness :
  exists y1 x1 y2 x2,
    fst (RandomResizedCrop.get_random_transformation scenario_layer
           (constant_state (2 ^ 22))) = Ok [[y1; x1; y2; x2]] /\
    Float32.leb Float32.zero y1 = true /\ Float32.leb y1 y2 = true /\
    Float32.leb y2 Float32.one = true /\
    Float32.leb Float32.zero x1 = true /\ Float32.leb x1 x2 = true /\
    Float32.leb x2 Float32.one = true.
Proof.
  apply (rectangle_within_image scenario_layer (constant_state (2 ^ 22)));
    vm_compute; reflexivity.
Defined.

(** X2. When the candidate height [sqrt(area_factor / aspect_ratio)] is at
    least 1, the clip saturates: the height offset is drawn from [[0, 0]]
    and the rectangle spans the whole height, [y1 = 0] and [y2 = 1],
    whatever the offset draw is. *)
Theorem tall_candidate_spans_height self g :
  let a := sample (RandomResizedCrop.area_factor self) (unit_draw (sampler_source g) 0) in
  let r := sample (RandomResizedCrop.aspect_ratio_factor self) (unit_draw (sampler_source g) 1) in
  Float32.leb Float32.one (Float32.sqrt (Float32.div a r)) = true ->
  exists x1 x2,
    fst (RandomResizedCrop.get_random_transformation self g) =
    Ok [[Float32.zero; x1; Float32.one; x2]].
Proof.
  intros a r Hc.
  rewrite get_random_transformation_unfold.
  unfold Spec.sample_rectangle, Spec.rectangle, Spec.h. fold a r.
  rewrite (clip_saturates _ Hc).
  destruct (full_extent_edges (stream (_random_generator g) (0 + position (_random_generator g))%nat)) as [E1 E2].
  unfold unit_draw. rewrite E2, E1.
  do 2 eexists. reflexivity.
Qed.

Lemma tall_candidate_spans_height_witness :
  let self :=
    {| RandomResizedCrop.target_size := (50, 50);
       RandomResizedCrop.area_factor := UniformFactorSampler Float32.one Float32.one;
       RandomResizedCrop.aspect_ratio_factor :=
         UniformFactorSampler (S754_finite false 12582912 (-24))
                              (S754_finite false 12582912 (-24));
       RandomResizedCrop.interpolation := "bilinear";
       RandomResizedCrop.seed := None;
       RandomResizedCrop.compute_dtype := tf_float32 |} in
  exists x1 x2,
    fst (RandomResizedCrop.get_random_transformation self (constant_state 77)) =
    Ok [[Float32.zero; x1; Float32.one; x2]].
Proof.
  intros self.
  apply (tall_candidate_spans_height self (constant_state 77)).
  vm_compute. reflexivity.
Defined.

(** X3. When the candidate width [sqrt(area_factor * aspect_ratio)] is at
    least 1, the rectangle spans the whole width: [x1 = 0] and [x2 = 1],
    whatever the offset draw is. *)
Theorem wide_candidate_spans_width self g :
  let a := sample (RandomResizedCrop.area_factor self) (unit_draw (sampler_source g) 0) in
  let r := sample (RandomResizedCrop.aspect_ratio_factor self) (unit_draw (sampler_source g) 1) in
  Float32.leb Float32.one (Float32.sqrt (Float32.mul a r)) = true ->
  exists y1 y2,
    fst (RandomResizedCrop.get_random_transformation self g) =
    Ok [[y1; Float32.zero; y2; Float32.one]].
Proof.
  intros a r Hc.
  rewrite get_random_transformation_unfold.
  unfold Spec.sample_rectangle, Spec.rectangle, Spec.w. fold a r.
  rewrite (clip_saturates _ Hc).
  destruct (full_extent_edges (stream (_random_generator g) (1 + position (_random_generator g))%nat)) as [E1 E2].
  unfold unit_draw. rewrite E2, E1.
  do 2 eexists. reflexivity.
Qed.

Lemma wide_candidate_spans_width_witness :
  let self :=
    {| RandomResizedCrop.target_size := (50, 50);
       RandomResizedCrop.area_factor := UniformFactorSampler Float32.one Float32.one;
       RandomResizedCrop.aspect_ratio_factor :=
         UniformFactorSampler (S754_finite false 11184811 (-23))
                              (S754_finite false 11184811 (-23));
       RandomResizedCrop.interpolation := "bilinear";
       RandomResizedCrop.seed := None;
       RandomResizedCrop.compute_dtype := tf_float32 |} in
  exists y1 y2,
    fst (RandomResizedCrop.get_random_transformation self (constant_state 77)) =
    Ok [[y1; Float32.zero; y2; Float32.one]].
Proof.
  intros self.
  apply (wide_candidate_spans_width self (constant_state 77)).
  vm_compute. reflexivity.
Defined.

(* ===================================================================== *)
(** * The sampler against the algorithm of the specification             *)
(* ===================================================================== *)

(** ** Comparisons *)

Lemma SFcompare_not_nan x y :
  Float32.is_nan x = false -> Float32.is_nan y = false ->
  exists c, SFcompare x y = Some c.
Proof.
  destruct x as [sx | sx | | sx mx ex], y as [sy | sy | | sy my ey];
    simpl; intros Hx Hy; try discriminate; eauto.
Qed.

(** Among numbers, what is not above is at most. *)
Lemma SFleb_of_not_ltb x y :
  Float32.is_nan x = false -> Float32.is_nan y = false ->
  SFltb y x = false -> SFleb x y = true.
Proof.
  intros Hx Hy. unfold SFltb, SFleb.
  rewrite (SFcompare_antisym x y).
  destruct (SFcompare_not_nan x y Hx Hy) as [c ->].
  destruct c; simpl; congruence.
Qed.

Lemma SFltb_asym x y : SFltb x y = true -> SFltb y x = false.
Proof.
  unfold SFltb. rewrite (SFcompare_antisym x y).
  destruct (SFcompare x y) as [[] |]; simpl; congruence.
Qed.

(** A positive finite float that is neither below nor above 1 is 1. *)
Lemma compare_one_eq m e :
  SFltb (S754_finite false m e) Float32.one = false ->
  SFltb Float32.one (S754_finite false m e) = false ->
  S754_finite false m e = Float32.one.
Proof.
  unfold SFltb. rewrite (SFcompare_antisym (S754_finite false m e) Float32.one).
  unfold Float32.one. rewrite SFcompare_finite_pos.
  destruct (e ?= -23) eqn:He; cbn [option_map CompOpp]; try discriminate.
  apply Z.compare_eq in He. subst e.
  rewrite Pos.compare_cont_spec. unfold Pos.switch_Eq.
  destruct (m ?= 8388608)%positive eqn:Hm; cbn [CompOpp]; try discriminate.
  apply Pos.compare_eq in Hm. subst m. reflexivity.
Qed.

(** ** Sums with zero *)

Lemma add_zero_comm x :
  Float32.add x Float32.zero = Float32.add Float32.zero x.
Proof. destruct x as [[] | [] | | [] m e]; reflexivity. Qed.

Lemma add_zero_sign x s :
  Float32.add (Float32.add x Float32.zero) (S754_zero s) =
  Float32.add (Float32.add x Float32.zero) Float32.zero.
Proof. destruct x as [[] | [] | | [] m e], s; reflexivity. Qed.

Lemma add_nan_r x : Float32.add x S754_nan = S754_nan.
Proof. destruct x as [[] | [] | | [] m e]; reflexivity. Qed.

(** The draw of the code and the draw of the algorithm from an interval
    that starts at 0. *)
Lemma uniform_agrees hi rnd :
  Spec.uniform (Float32.zero, hi) rnd = Algorithm.uniform (Float32.zero, hi) rnd.
Proof.
  unfold Spec.uniform, Algorithm.uniform, scale_uniform. cbn [fst snd].
  apply add_zero_comm.
Qed.

(** ** The clip and the offset interval, case by case *)

(** The clip of the code and the clamp of the algorithm on a candidate
    [c], and the two offset intervals: [c] is NaN; or both clip to 0 (up to
    the sign of zero) and the interval is [[0, 1]]; or both clip to 1 and
    the interval is [[0, 0]]; or [c] is a positive number below 1, kept by
    both, and the interval is [[0, 1 - c]]. *)
Lemma clip_interval_cases c :
  (forall m e, c = S754_finite false m e -> Zpos m < 2 ^ 24) ->
  let extent := tf_clip_by_value c Float32.zero Float32.one in
  let extent' := Algorithm.clip c Float32.zero Float32.one in
  c = S754_nan \/
  (extent = Float32.zero /\ (exists s, extent' = S754_zero s) /\
   Spec.offset_interval extent = (Float32.zero, Float32.one) /\
   Algorithm.offset_interval extent' = (Float32.zero, Float32.one)) \/
  (extent = Float32.one /\ extent' = Float32.one /\
   Spec.offset_interval extent = (Float32.zero, Float32.zero) /\
   Algorithm.offset_interval extent' = (Float32.zero, Float32.zero)) \/
  (exists m e,
     c = S754_finite false m e /\ extent = c /\ extent' = c /\
     Zpos m < 2 ^ 24 /\ SFltb c Float32.one = true /\
     Spec.offset_interval extent = (Float32.zero, Float32.sub Float32.one c) /\
     Algorithm.offset_interval extent' = (Float32.zero, Float32.sub Float32.one c)).
Proof.
  intros Hc. cbv zeta.
  destruct c as [s | [] | | [] m e].
  - right. left. destruct s; repeat split; eauto.
  - right. left. repeat split; eauto.
  - right. right. left. repeat split.
  - left. reflexivity.
  - right. left. repeat split; eauto.
  - assert (E : tf_clip_by_value (S754_finite false m e) Float32.zero Float32.one =
                if SFltb (S754_finite false m e) Float32.one
                then S754_finite false m e else Float32.one).
    { unfold tf_clip_by_value, tf_minimum, tf_maximum, Float32.ltb.
      cbn [Float32.is_nan orb].
      destruct (SFltb (S754_finite false m e) Float32.one); reflexivity. }
    assert (E' : Algorithm.clip (S754_finite false m e) Float32.zero Float32.one =
                 if SFltb (S754_finite false m e) Float32.one
                 then S754_finite false m e else Float32.one).
    { unfold Algorithm.clip, Float32.ltb.
      change (SFltb (S754_finite false m e) Float32.zero) with false. cbv iota.
      destruct (SFltb (S754_finite false m e) Float32.one) eqn:H1.
      - rewrite (SFltb_asym _ _ H1). reflexivity.
      - destruct (SFltb Float32.one (S754_finite false m e)) eqn:H2; [reflexivity |].
        apply compare_one_eq; assumption. }
    rewrite E, E'.
    destruct (SFltb (S754_finite false m e) Float32.one) eqn:H1.
    + right. right. right. exists m, e.
      pose proof (Hc m e eq_refl) as Hm.
      destruct (sub_one_value m e Hm H1)
        as (md & ed & _ & _ & Hsub & _).
      repeat split; try assumption.
      * unfold Spec.offset_interval. rewrite Hsub. reflexivity.
      * unfold Algorithm.offset_interval. rewrite Hsub. reflexivity.
    + right. right. left. repeat split.
Qed.

Lemma algorithm_clip_nan c :
  Float32.is_nan (Algorithm.clip c Float32.zero Float32.one) = false ->
  Float32.is_nan c = false.
Proof. destruct c; [reflexivity .. | intros H; exact H | reflexivity]. Qed.

(** The clamp of the algorithm sends a number into [[0, 1]]. *)
Lemma algorithm_clip_in_unit_interval c :
  Float32.is_nan c = false ->
  in_unit_interval (Algorithm.clip c Float32.zero Float32.one) = true.
Proof.
  intros Hc. unfold Algorithm.clip, Float32.ltb.
  destruct (SFltb c Float32.zero) eqn:H0; [reflexivity |].
  destruct (SFltb Float32.one c) eqn:H1; [reflexivity |].
  unfold in_unit_interval, Float32.leb.
  rewrite (SFleb_of_not_ltb Float32.zero c eq_refl Hc H0).
  rewrite (SFleb_of_not_ltb c Float32.one Hc eq_refl H1).
  reflexivity.
Qed.

(** Along one dimension, the offset and the far edge of the code are those
    of the algorithm, for every candidate and every unit draw. *)
Lemma edge_is_algorithm c rnd :
  (forall m e, c = S754_finite false m e -> Zpos m < 2 ^ 24) ->
  let extent := tf_clip_by_value c Float32.zero Float32.one in
  let offset := Spec.uniform (Spec.offset_interval extent) rnd in
  let extent' := Algorithm.clip c Float32.zero Float32.one in
  let offset' := Algorithm.uniform (Algorithm.offset_interval extent') rnd in
  offset = offset' /\ Float32.add offset extent = Float32.add offset' extent'.
Proof.
  intros Hc. cbv zeta.
  destruct (clip_interval_cases c Hc)
    as [-> | [(E & (s & E') & I & I') | [(E & E' & I & I') |
        (m & e & -> & E & E' & _ & _ & I & I')]]].
  - change (tf_clip_by_value S754_nan Float32.zero Float32.one) with S754_nan.
    change (Algorithm.clip S754_nan Float32.zero Float32.one) with S754_nan.
    unfold Spec.uniform, scale_uniform. rewrite !add_nan_r. split; reflexivity.
  - rewrite I, I', E, E', <- uniform_agrees. split; [reflexivity |].
    unfold Spec.uniform, scale_uniform. cbn [fst snd].
    symmetry. apply add_zero_sign.
  - rewrite I, I', E, E', <- uniform_agrees. split; reflexivity.
  - rewrite I, I', E, E', <- uniform_agrees. split; reflexivity.
Qed.

(** ** The offsets *)

(** A unit draw scaled to [[0, 1]]: zero, or a canonical float of at most
    [1 - 2^-24]. *)
Lemma offset_unit word :
  let offset := scale_uniform Float32.zero Float32.one (uint32_to_float word) in
  offset = Float32.zero \/
  exists mp ep,
    offset = S754_finite false mp ep /\
    ep = fexp 24 128 (Zdigits2 (Zpos mp) + ep) /\
    (F2R (Zpos mp) ep <= F2R 16777215 (-24))%R.
Proof.
  cbv zeta. unfold scale_uniform.
  change (Float32.sub Float32.one Float32.zero) with Float32.one.
  destruct (uint32_to_float_value word) as [-> | (mu & eu & k & -> & Hu & Hk & Hdu)];
    [left; reflexivity |].
  destruct (mul_unit_draw mu eu k 8388608 (-23) 16777215 (-24) Hu Hk Hdu
              ltac:(reflexivity) ltac:(lia) ltac:(lia))
    as [Hp | (mp & ep & Hp & Hcan & Hle)].
  { replace (F2R 8388608 (-23)) with (F2R (8388608 * 2 ^ 1) (-24))
      by (rewrite F2R_shift by lia; reflexivity).
    apply F2R_le. lia. }
  - change (S754_finite false 8388608 (-23)) with Float32.one in Hp.
    rewrite Hp. left. reflexivity.
  - change (S754_finite false 8388608 (-23)) with Float32.one in Hp.
    rewrite Hp. right. exists mp, ep. auto.
Qed.

(** A unit draw scaled to [[0, 1 - h]] for a positive [h] below 1: zero, or
    a canonical float that is at most [1 - h], as a float and as a real. *)
Lemma offset_below mh eh word :
  Zpos mh < 2 ^ 24 ->
  SFltb (S754_finite false mh eh) Float32.one = true ->
  let d := Float32.sub Float32.one (S754_finite false mh eh) in
  let offset := scale_uniform Float32.zero d (uint32_to_float word) in
  exists md ed,
    d = S754_finite false md ed /\
    (offset = Float32.zero \/
     exists mp ep,
       offset = S754_finite false mp ep /\
       ep = fexp 24 128 (Zdigits2 (Zpos mp) + ep) /\
       SFleb (S754_finite false mp ep) (S754_finite false md ed) = true /\
       (F2R (Zpos mp) ep + F2R (Zpos mh) eh <= 1)%R).
Proof.
  intros Hm Hlt. cbv zeta.
  destruct (sub_one_value mh eh Hm Hlt)
    as (md & ed & s & c & Hsub & Hdd & Hed & Hs & Hc & Hsv & Hdv & Hlow & Hcand).
  rewrite Hsub. exists md, ed. split; [reflexivity |].
  unfold scale_uniform.
  change (Float32.sub (S754_finite false md ed) Float32.zero)
    with (S754_finite false md ed).
  destruct (uint32_to_float_value word) as [-> | (mu & eu & k & -> & Hu & Hk & Hdu)];
    [left; reflexivity |].
  destruct (mul_unit_draw mu eu k md ed s c Hu Hk Hdu Hdd Hs ltac:(lia) Hdv)
    as [Hp | (mp & ep & Hp & Hcan & Hle)]; rewrite Hp.
  - left. reflexivity.
  - right. exists mp, ep. split; [reflexivity |]. split; [exact Hcan |].
    split; [| lra].
    apply (SFleb_canonical 24 128); [exact Hcan | exact Hcand | lra].
Qed.

(** Along one dimension, for a candidate that is a number, the offset lies
    in the interval of the algorithm. *)
Lemma edge_inside c word :
  Float32.is_nan c = false ->
  (forall m e, c = S754_finite false m e -> Zpos m < 2 ^ 24) ->
  Algorithm.inside
    (Algorithm.offset_interval (Algorithm.clip c Float32.zero Float32.one))
    (Spec.uniform
       (Spec.offset_interval (tf_clip_by_value c Float32.zero Float32.one))
       (uint32_to_float word)) = true.
Proof.
  intros Hnan Hc.
  destruct (clip_interval_cases c Hc)
    as [-> | [(E & _ & I & I') | [(E & E' & I & I') |
        (m & e & -> & E & E' & Hm & Hlt & I & I')]]].
  - discriminate Hnan.
  - rewrite I, I'. unfold Spec.uniform. cbn [fst snd].
    destruct (offset_unit word) as [-> | (mp & ep & -> & Hcan & Hle)];
      [reflexivity |].
    unfold Algorithm.inside. cbn [fst snd]. apply andb_true_intro.
    split; [reflexivity |].
    apply (SFleb_canonical 24 128); [exact Hcan | exact one_canonical |].
    rewrite F2R_one.
    assert (F2R 16777215 (-24) <= 1)%R; [| lra].
    pose proof pow2_neg24. pose proof (pow2_pos (-24)). unfold F2R. nra.
  - rewrite I, I'. unfold Spec.uniform. cbn [fst snd].
    rewrite scale_uniform_zero. reflexivity.
  - rewrite I, I'. unfold Spec.uniform. cbn [fst snd].
    destruct (offset_below m e word Hm Hlt) as (md & ed & -> & Hoff).
    destruct Hoff as [-> | (mp & ep & -> & _ & Hle & _)]; [reflexivity |].
    unfold Algorithm.inside. cbn [fst snd]. apply andb_true_intro.
    split; [reflexivity | exact Hle].
Qed.

(** ** The rounding error of the far edge *)

Lemma SF2R_one : SF2R Float32.one = 1%R.
Proof. exact F2R_one. Qed.

(** A finite rounding of a real of at most 1 is less than [2^-24] away
    from it. *)
Lemma rounds_to_error v x :
  rounds_to 24 128 v x -> (v <= 1)%R -> Float32.is_finite x = true ->
  (Rabs (SF2R x - v) < powerRZ 2 (-24))%R.
Proof.
  intros (d & s1 & m1 & Hmag & Hbr & Hm1 & Hx) Hv Hfin. cbv zeta in *.
  assert (Hval : SF2R x = F2R m1 (fexp 24 128 d)).
  { destruct x as [s | s | | s m e]; simpl in Hfin; try discriminate.
    - destruct Hx as [_ ->]. unfold SF2R, F2R. simpl. ring.
    - destruct Hx as (-> & Hval & _). exact Hval. }
  rewrite Hval. clear Hx Hval Hfin.
  assert (Hd : d <= 1).
  { assert (d - 1 < 1); [| lia]. apply pow2_lt_inv.
    change (powerRZ 2 1) with (2 * 1)%R. lra. }
  assert (Hstep : forall c, F2R (s1 + 1) c = (F2R s1 c + powerRZ 2 c)%R)
    by (intros c; unfold F2R; rewrite plus_IZR; ring).
  destruct (Z.eq_dec d 1) as [-> | Hne].
  - change (fexp 24 128 1) with (-23) in *.
    change (powerRZ 2 (1 - 1)) with 1%R in Hmag.
    assert (Hv1 : v = 1%R) by lra. subst v.
    rewrite <- F2R_one in Hbr.
    assert (Hs1 : s1 = 8388608).
    { destruct Hbr as [H1 H2]. apply F2R_le in H1. apply F2R_lt in H2. lia. }
    subst s1. rewrite F2R_one in *.
    destruct Hm1 as [-> | [_ Hlt]]; [| lra].
    rewrite F2R_one. replace (1 - 1)%R with 0%R by ring.
    rewrite Rabs_R0. apply pow2_pos.
  - assert (Hc : fexp 24 128 d <= -24) by (unfold fexp, emin; lia).
    pose proof (pow2_le _ _ Hc) as Hp.
    rewrite Hstep in Hbr.
    destruct Hm1 as [-> | [-> Hlt]].
    + apply Rabs_def1; lra.
    + rewrite Hstep. apply Rabs_def1; lra.
Qed.

Lemma leb_one_finite y :
  nonneg_float y -> Float32.leb y Float32.one = true -> Float32.is_finite y = true.
Proof.
  destruct y as [s | s | | s m e]; simpl; intros Hy Hle; try contradiction;
    try reflexivity.
  subst s. discriminate Hle.
Qed.

Lemma leb_finite_below x y :
  nonneg_float x -> Float32.leb x y = true -> Float32.is_finite y = true ->
  Float32.is_finite x = true.
Proof.
  destruct x as [s | s | | s m e]; simpl; intros Hx Hle Hy; try contradiction;
    try reflexivity.
  subst s. destruct y as [sy | sy | | sy my ey]; try discriminate Hy;
    discriminate Hle.
Qed.

(** Along one dimension, for a candidate that is a number: the offset, the
    far edge and the extent are finite, and the far edge is the sum of the
    offset and the extent up to less than [2^-24]. *)
Lemma edge_error c word :
  Float32.is_nan c = false ->
  (forall m e, c = S754_finite false m e -> Zpos m < 2 ^ 24) ->
  let extent := tf_clip_by_value c Float32.zero Float32.one in
  let offset := Spec.uniform (Spec.offset_interval extent) (uint32_to_float word) in
  let far := Float32.add offset extent in
  Float32.is_finite offset = true /\ Float32.is_finite far = true /\
  Float32.is_finite extent = true /\
  (Rabs (SF2R far - SF2R offset - SF2R extent) < powerRZ 2 (-24))%R.
Proof.
  intros Hnan Hc extent offset far.
  destruct (edge_nonneg c word Hnan Hc) as [Hoff Hfar].
  destruct (edge_within c word Hnan Hc) as [Hle Hone].
  fold extent offset far in Hoff, Hfar, Hle, Hone.
  assert (Hff : Float32.is_finite far = true) by (apply leb_one_finite; assumption).
  assert (Hfo : Float32.is_finite offset = true)
    by (apply (leb_finite_below offset far); assumption).
  split; [exact Hfo |]. split; [exact Hff |].
  pose proof (pow2_pos (-24)) as Hpos.
  assert (Hzero : forall x, (Rabs (x - x - 0) < powerRZ 2 (-24))%R).
  { intros x. replace (x - x - 0)%R with 0%R by ring. rewrite Rabs_R0. exact Hpos. }
  clear Hoff Hfar Hle Hone Hfo.
  subst far offset extent.
  destruct (clip_cases c Hnan Hc) as [E | [E | (mh & eh & E & _ & Hm & Hlt)]];
    rewrite E in *.
  - split; [reflexivity |].
    change (Spec.offset_interval Float32.zero) with (Float32.zero, Float32.one).
    unfold Spec.uniform. cbn [fst snd].
    destruct (offset_unit word) as [-> | (mp & ep & -> & _ & _)]; apply Hzero.
  - split; [reflexivity |].
    destruct (full_extent_edges word) as [E1 E2]. rewrite E2, E1.
    change (SF2R Float32.zero) with 0%R. rewrite SF2R_one.
    replace (1 - 0 - 1)%R with 0%R by ring. rewrite Rabs_R0. exact Hpos.
  - split; [reflexivity |].
    unfold Spec.uniform, Spec.offset_interval in *. cbn [fst snd] in *.
    destruct (offset_below mh eh word Hm Hlt) as (md & ed & Hd & Hcases).
    rewrite Hd in *.
    change (tf_minimum Float32.zero (S754_finite false md ed)) with Float32.zero in *.
    change (tf_maximum Float32.zero (S754_finite false md ed))
      with (S754_finite false md ed) in *.
    destruct Hcases as [Hz | (mp & ep & Hp & Hcan & _ & Hsum)].
    + rewrite Hz in *.
      change (Float32.add Float32.zero (S754_finite false mh eh))
        with (S754_finite false mh eh).
      change (SF2R Float32.zero) with 0%R.
      replace (SF2R (S754_finite false mh eh) - 0 - SF2R (S754_finite false mh eh))%R
        with 0%R by ring.
      rewrite Rabs_R0. exact Hpos.
    + rewrite Hp in *.
      pose proof (SFadd_rounds 24 128 ltac:(lia) mp ep mh eh) as Hy.
      change (SFadd 24 128 (S754_finite false mp ep) (S754_finite false mh eh))
        with (Float32.add (S754_finite false mp ep) (S754_finite false mh eh)) in Hy.
      pose proof (rounds_to_error _ _ Hy Hsum Hff) as Herr.
      change (SF2R (S754_finite false mp ep)) with (F2R (Zpos mp) ep).
      change (SF2R (S754_finite false mh eh)) with (F2R (Zpos mh) eh).
      match goal with
      | |- (Rabs ?a < _)%R =>
          match type of Herr with
          | (Rabs ?b < _)%R => replace a with b by ring
          end
      end.
      exact Herr.
Qed.

(** Every coordinate of the rectangle, for a sampled area in [[0, 1]] and a
    positive, finite sampled aspect ratio: finite, and each far edge the sum
    of the near edge and the extent up to less than [2^-24]. *)
Lemma rectangle_edges self g :
  let a := sample (RandomResizedCrop.area_factor self) (unit_draw (sampler_source g) 0) in
  let r := sample (RandomResizedCrop.aspect_ratio_factor self) (unit_draw (sampler_source g) 1) in
  let h := Spec.h a r in
  let w := Spec.w a r in
  Float32.leb Float32.zero a = true ->
  Float32.leb a Float32.one = true ->
  Float32.ltb Float32.zero r = true ->
  Float32.is_finite r = true ->
  exists y1 x1 y2 x2,
    fst (RandomResizedCrop.get_random_transformation self g) = Ok [[y1; x1; y2; x2]] /\
    y2 = Float32.add y1 h /\ x2 = Float32.add x1 w /\
    (Float32.is_finite y1 = true /\ Float32.is_finite y2 = true /\
     Float32.is_finite h = true /\
     (Rabs (SF2R y2 - SF2R y1 - SF2R h) < powerRZ 2 (-24))%R) /\
    (Float32.is_finite x1 = true /\ Float32.is_finite x2 = true /\
     Float32.is_finite w = true /\
     (Rabs (SF2R x2 - SF2R x1 - SF2R w) < powerRZ 2 (-24))%R).
Proof.
  intros a r h w Ha0 Ha1 Hr Hfin.
  destruct (candidates_not_nan a r Ha0 Ha1 Hr Hfin) as [Hh Hw].
  rewrite get_random_transformation_unfold.
  unfold Spec.sample_rectangle, Spec.rectangle. fold a r. fold h w.
  do 4 eexists. split; [reflexivity |].
  split; [reflexivity |]. split; [reflexivity |].
  split.
  - exact (edge_error _ (stream (_random_generator g)
                           (0 + position (_random_generator g))%nat)
             Hh (sqrt_finite_bound _)).
  - exact (edge_error _ (stream (_random_generator g)
                           (1 + position (_random_generator g))%nat)
             Hw (sqrt_finite_bound _)).
Qed.

(** C1. Every call of [get_random_transformation] returns exactly the
    rectangle of the specification's algorithm, and leaves the random state
    as after one call: with [area_factor] and [aspect_ratio] the values the
    two factor samplers return, [h] is the clamp of [sqrt(area_factor /
    aspect_ratio)] to [[0, 1]], [w] the clamp of [sqrt(area_factor *
    aspect_ratio)], the height offset is the uniform draw from [[min(0, 1 -
    h), max(0, 1 - h)]] on the first unit draw of the layer's generator, the
    width offset the one from [[min(0, 1 - w), max(0, 1 - w)]] on the second,
    and the result is [(height_offset, width_offset, height_offset + h,
    width_offset + w)].  Whenever [h] is a number it lies in [[0, 1]] and
    the height offset lies in its interval, and likewise for [w] and the
    width offset (a NaN candidate gives NaN coordinates, in the code as in
    the algorithm). *)
Theorem sampler_follows_algorithm self g :
  let area_factor :=
    sample (RandomResizedCrop.area_factor self) (unit_draw (sampler_source g) 0) in
  let aspect_ratio :=
    sample (RandomResizedCrop.aspect_ratio_factor self) (unit_draw (sampler_source g) 1) in
  let h := Algorithm.h area_factor aspect_ratio in
  let w := Algorithm.w area_factor aspect_ratio in
  let height_offset :=
    Algorithm.uniform (Algorithm.offset_interval h) (unit_draw (_random_generator g) 0) in
  let width_offset :=
    Algorithm.uniform (Algorithm.offset_interval w) (unit_draw (_random_generator g) 1) in
  RandomResizedCrop.get_random_transformation self g =
    (Ok [[height_offset; width_offset;
          Float32.add height_offset h; Float32.add width_offset w]],
     after_call g) /\
  (Float32.is_nan h = false ->
   in_unit_interval h = true /\
   Algorithm.inside (Algorithm.offset_interval h) height_offset = true) /\
  (Float32.is_nan w = false ->
   in_unit_interval w = true /\
   Algorithm.inside (Algorithm.offset_interval w) width_offset = true).
Proof.
  intros area_factor aspect_ratio h w height_offset width_offset.
  set (c_h := Float32.sqrt (Float32.div area_factor aspect_ratio)).
  set (c_w := Float32.sqrt (Float32.mul area_factor aspect_ratio)).
  assert (Bh : forall m e, c_h = S754_finite false m e -> Zpos m < 2 ^ 24)
    by (apply sqrt_finite_bound).
  assert (Bw : forall m e, c_w = S754_finite false m e -> Zpos m < 2 ^ 24)
    by (apply sqrt_finite_bound).
  destruct (edge_is_algorithm c_h (unit_draw (_random_generator g) 0) Bh) as [Eh1 Eh2].
  destruct (edge_is_algorithm c_w (unit_draw (_random_generator g) 1) Bw) as [Ew1 Ew2].
  assert (E : RandomResizedCrop.get_random_transformation self g =
              (Ok [[height_offset; width_offset;
                    Float32.add height_offset h; Float32.add width_offset w]],
               after_call g)).
  { rewrite get_random_transformation_unfold.
    unfold Spec.sample_rectangle, Spec.rectangle, Spec.h, Spec.w, boxes_of.
    fold area_factor aspect_ratio. fold c_h c_w.
    rewrite Eh2, Ew2, Eh1, Ew1. reflexivity. }
  split; [exact E |].
  split; intros Hnan.
  - apply algorithm_clip_nan in Hnan.
    split; [apply algorithm_clip_in_unit_interval; exact Hnan |].
    subst height_offset. unfold h, Algorithm.h. fold c_h. rewrite <- Eh1.
    apply edge_inside; assumption.
  - apply algorithm_clip_nan in Hnan.
    split; [apply algorithm_clip_in_unit_interval; exact Hnan |].
    subst width_offset. unfold w, Algorithm.w. fold c_w. rewrite <- Ew1.
    apply edge_inside; assumption.
Qed.

Lemma sampler_follows_algorithm_witness :
  let g := constant_state (2 ^ 22) in
  let h := Algorithm.h (S754_finite false 8388608 (-24)) Float32.one in
  let w := Algorithm.w (S754_finite false 8388608 (-24)) Float32.one in
  let height_offset :=
    Algorithm.uniform (Algorithm.offset_interval h) (unit_draw (_random_generator g) 0) in
  let width_offset :=
    Algorithm.uniform (Algorithm.offset_interval w) (unit_draw (_random_generator g) 1) in
  RandomResizedCrop.get_random_transformation scenario_layer g =
    (Ok [[height_offset; width_offset;
          Float32.add height_offset h; Float32.add width_offset w]],
     after_call g) /\
  (in_unit_interval h = true /\
   Algorithm.inside (Algorithm.offset_interval h) height_offset = true) /\
  (in_unit_interval w = true /\
   Algorithm.inside (Algorithm.offset_interval w) width_offset = true).
Proof.
  destruct (sampler_follows_algorithm scenario_layer (constant_state (2 ^ 22)))
    as (E & Hh & Hw).
  split; [exact E |].
  split; [apply Hh; reflexivity | apply Hw; reflexivity].
Defined.

(** C2 (as amended). For a sampled area in [[0, 1]] and a positive, finite
    sampled aspect ratio, the sampler returns a rectangle [(y1, x1, y2, x2)]
    of finite coordinates with [y2] the binary32 sum [y1 + h] and [x2] the
    binary32 sum [x1 + w], where [h] and [w] are the clipped candidates of
    the call and lie in [[0, 1]].  The extents hold up to the rounding of
    these sums: as real numbers, [y2 - y1] differs from [h] and [x2 - x1]
    from [w] by less than [2^-24].  (The binary32 difference [y2 - y1],
    itself rounded, need not give back [h].) *)
Theorem rectangle_extent self g :
  let a := sample (RandomResizedCrop.area_factor self) (unit_draw (sampler_source g) 0) in
  let r := sample (RandomResizedCrop.aspect_ratio_factor self) (unit_draw (sampler_source g) 1) in
  let h := Spec.h a r in
  let w := Spec.w a r in
  Float32.leb Float32.zero a = true ->
  Float32.leb a Float32.one = true ->
  Float32.ltb Float32.zero r = true ->
  Float32.is_finite r = true ->
  exists y1 x1 y2 x2,
    fst (RandomResizedCrop.get_random_transformation self g) = Ok [[y1; x1; y2; x2]] /\
    y2 = Float32.add y1 h /\ x2 = Float32.add x1 w /\
    in_unit_interval h = true /\ in_unit_interval w = true /\
    Float32.is_finite y1 = true /\ Float32.is_finite y2 = true /\
    Float32.is_finite x1 = true /\ Float32.is_finite x2 = true /\
    (Rabs (SF2R y2 - SF2R y1 - SF2R h) < powerRZ 2 (-24))%R /\
    (Rabs (SF2R x2 - SF2R x1 - SF2R w) < powerRZ 2 (-24))%R.
Proof.
  intros a r h w Ha0 Ha1 Hr Hfin.
  destruct (candidates_not_nan a r Ha0 Ha1 Hr Hfin) as [Hh Hw].
  destruct (rectangle_edges self g Ha0 Ha1 Hr Hfin)
    as (y1 & x1 & y2 & x2 & E & Ey & Ex & (Hy1 & Hy2 & _ & Hey) & (Hx1 & Hx2 & _ & Hex)).
  exists y1, x1, y2, x2.
  split; [exact E |]. split; [exact Ey |]. split; [exact Ex |].
  split; [apply clip_in_unit_interval; exact Hh |].
  split; [apply clip_in_unit_interval; exact Hw |].
  repeat split; assumption.
Qed.

Lemma rectangle_extent_witness :
  let h := S754_finite false 11863283 (-24) in
  exists y1 x1 y2 x2,
    fst (RandomResizedCrop.get_random_transformation scenario_layer
           (constant_state (2 ^ 22))) = Ok [[y1; x1; y2; x2]] /\
    y2 = Float32.add y1 h /\ x2 = Float32.add x1 h /\
    in_unit_interval h = true /\ in_unit_interval h = true /\
    Float32.is_finite y1 = true /\ Float32.is_finite y2 = true /\
    Float32.is_finite x1 = true /\ Float32.is_finite x2 = true /\
    (Rabs (SF2R y2 - SF2R y1 - SF2R h) < powerRZ 2 (-24))%R /\
    (Rabs (SF2R x2 - SF2R x1 - SF2R h) < powerRZ 2 (-24))%R.
Proof.
  apply (rectangle_extent scenario_layer (constant_state (2 ^ 22)));
    vm_compute; reflexivity.
Defined.

(** C2 (as stated) fails in binary32.  In the specification's scenario
    ([area_factor=(0.5,0.5)], [aspect_ratio_factor=(1.0,1.0)]) with unit
    draws of [0.5]: [h = 11863283 * 2^-24] (0.70710677), the height offset
    is [y1 = 9827866 * 2^-26] (0.14644662), the sum [y1 + h] lies midway
    between two binary32 numbers and rounds to [y2 = 14320250 * 2^-24], and
    [y2 - y1] lies midway again and rounds to [11863284 * 2^-24]: one unit
    in the last place above [h]. *)
Lemma rectangle_extent_not_exact :
  let self := scenario_layer in
  let g := constant_state (2 ^ 22) in
  let a := sample (RandomResizedCrop.area_factor self) (unit_draw (sampler_source g) 0) in
  let r := sample (RandomResizedCrop.aspect_ratio_factor self) (unit_draw (sampler_source g) 1) in
  let h := Spec.h a r in
  let y1 := S754_finite false 9827866 (-26) in
  let y2 := S754_finite false 14320250 (-24) in
  RandomResizedCrop.__init__ parse_factor (50, 50)
    (PyTuple [Float (Float64.ratio 1 2); Float (Float64.ratio 1 2)])
    (PyTuple [Float Float64.one; Float Float64.one])
    "bilinear" (Some 7) tf_float32 = Ok (self, []) /\
  Float32.leb Float32.zero a = true /\ Float32.leb a Float32.one = true /\
  Float32.ltb Float32.zero r = true /\ Float32.is_finite r = true /\
  h = S754_finite false 11863283 (-24) /\
  fst (RandomResizedCrop.get_random_transformation self g) = Ok [[y1; y1; y2; y2]] /\
  Float32.sub y2 y1 = S754_finite false 11863284 (-24) /\
  Float32.eqb (Float32.sub y2 y1) h = false.
Proof. vm_compute. repeat split; reflexivity. Qed.

(** C3 (as amended). For an image of any positive height and width and the
    rectangle the sampler produces from a sampled area in [[0, 1]] and a
    positive, finite sampled aspect ratio, [augment_image] returns an image
    whose height and width are exactly [target_size] (the channels are
    those of the input). *)
Theorem augment_image_has_target_size `{P : Primitives}
    (C : PrimitivesContract P) self g image h w c :
  let a := sample (RandomResizedCrop.area_factor self) (unit_draw (sampler_source g) 0) in
  let r := sample (RandomResizedCrop.aspect_ratio_factor self) (unit_draw (sampler_source g) 1) in
  Float32.leb Float32.zero a = true ->
  Float32.leb a Float32.one = true ->
  Float32.ltb Float32.zero r = true ->
  Float32.is_finite r = true ->
  shape image = [h; w; c] -> 0 < h -> 0 < w ->
  0 < fst (RandomResizedCrop.target_size self) ->
  0 < snd (RandomResizedCrop.target_size self) ->
  exists boxes out,
    fst (RandomResizedCrop.get_random_transformation self g) = Ok boxes /\
    RandomResizedCrop.augment_image self image boxes = Ok out /\
    shape out = [fst (RandomResizedCrop.target_size self);
                 snd (RandomResizedCrop.target_size self); c].
Proof.
  intros a r Ha0 Ha1 Hr Hfin Hs Hh Hw Hth Htw.
  destruct (rectangle_edges self g Ha0 Ha1 Hr Hfin)
    as (y1 & x1 & y2 & x2 & E & _ & _ & (Hy1 & Hy2 & _) & (Hx1 & Hx2 & _)).
  exists [[y1; x1; y2; x2]]. rewrite E.
  destruct (RandomResizedCrop.target_size self) as [th tw] eqn:Ets.
  simpl in Hth, Htw.
  destruct (crop_and_resize_shape (tf_expand_dims0 image) [[y1; x1; y2; x2]] [0]
              1 h w c th tw) as (out & Eo & Hout & _); try assumption.
  - simpl. rewrite Hs. reflexivity.
  - repeat constructor.
  - repeat constructor; assumption.
  - reflexivity.
  - repeat constructor; lia.
  - unfold RandomResizedCrop.augment_image. rewrite Ets, Eo. simpl.
    unfold tf_squeeze0. rewrite Hout. simpl.
    eexists. split; [reflexivity |]. split; reflexivity.
Qed.

Lemma augment_image_has_target_size_witness :
  exists boxes out,
    fst (RandomResizedCrop.get_random_transformation scenario_layer
           (constant_state (2 ^ 22))) = Ok boxes /\
    RandomResizedCrop.augment_image (P := blank_primitives) scenario_layer
      (blank [30; 21; 3] tf_uint8) boxes = Ok out /\
    shape out = [50; 50; 3].
Proof.
  apply (augment_image_has_target_size blank_primitives_contract scenario_layer
           (constant_state (2 ^ 22)) (blank [30; 21; 3] tf_uint8) 30 21 3);
    try (vm_compute; reflexivity); simpl; lia.
Defined.

(** C3 (as stated) fails for rectangles the sampler produces on a layer the
    constructor accepts.  With [aspect_ratio_factor=(-2.0, -2.0)] the
    candidates are square roots of negative numbers: the sampler returns
    the rectangle [(NaN, NaN, NaN, NaN)], and on it [augment_image] raises
    the error of the crop-and-resize primitive instead of returning an
    image, whatever primitive meets the contract. *)
Lemma augment_image_nan_rectangle :
  RandomResizedCrop.__init__ parse_factor (50, 50)
    (PyTuple [Float (Float64.ratio 1 2); Float (Float64.ratio 1 2)])
    (PyTuple [Float (Float64.of_Z (-2)); Float (Float64.of_Z (-2))])
    "bilinear" (Some 7) tf_float32 = Ok (negative_aspect_layer, []) /\
  fst (RandomResizedCrop.get_random_transformation negative_aspect_layer
         (constant_state (2 ^ 22))) =
    Ok [[S754_nan; S754_nan; S754_nan; S754_nan]] /\
  (forall P : Primitives, PrimitivesContract P ->
     exists message,
       RandomResizedCrop.augment_image negative_aspect_layer
         (blank [30; 21; 3] tf_uint8)
         [[S754_nan; S754_nan; S754_nan; S754_nan]] =
       Raise (InvalidArgumentError message)).
Proof.
  split; [vm_compute; reflexivity |].
  split; [vm_compute; reflexivity |].
  intros P C.
  destruct (crop_and_resize_not_finite
              (tf_expand_dims0 (blank [30; 21; 3] tf_uint8))
              [[S754_nan; S754_nan; S754_nan; S754_nan]] [0] 1 30 21 3 50 50)
    as (message & E); try reflexivity; try lia.
  - repeat constructor.
  - left. left. reflexivity.
  - repeat constructor; lia.
  - exists message. unfold RandomResizedCrop.augment_image.
    change (RandomResizedCrop.target_size negative_aspect_layer) with (50, 50).
    rewrite E. reflexivity.
Qed.

(* ===================================================================== *)
(** * The layer's methods: any finite box, any inputs                     *)
(* ===================================================================== *)

Lemma forallb_true_Forall {A} (f : A -> bool) (l : list A) :
  forallb f l = true -> Forall (fun x => f x = true) l.
Proof.
  induction l as [| x l IH]; simpl; intros H; constructor;
    apply andb_prop in H; destruct H; auto.
Qed.

Lemma forallb_false_Exists {A} (f : A -> bool) (l : list A) :
  forallb f l = false -> Exists (fun x => f x = false) l.
Proof.
  induction l as [| x l IH]; simpl; intros H; [discriminate H |].
  destruct (f x) eqn:E; [right; apply IH; exact H | left; exact E].
Qed.

(** X4. [augment_image] on an image of positive height and width and a
    single box of four coordinates.  When the four coordinates are finite
    (inside the image or not), it returns an image of exactly [target_size]
    with the channels of the input, and of type float32 whatever the compute
    dtype of the layer and the type of the input are: unlike [_resize],
    [augment_image] does not cast back to the compute dtype.  When a
    coordinate is NaN or an infinity, it raises the error of the
    crop-and-resize primitive. *)
Theorem augment_image_finite_box `{P : Primitives} (C : PrimitivesContract P)
    self image box h w c :
  shape image = [h; w; c] -> 0 < h -> 0 < w ->
  0 < fst (RandomResizedCrop.target_size self) ->
  0 < snd (RandomResizedCrop.target_size self) ->
  length box = 4%nat ->
  if forallb Float32.is_finite box then
    exists out,
      RandomResizedCrop.augment_image self image [box] = Ok out /\
      shape out = [fst (RandomResizedCrop.target_size self);
                   snd (RandomResizedCrop.target_size self); c] /\
      dtype out = tf_float32
  else
    exists message,
      RandomResizedCrop.augment_image self image [box] =
      Raise (InvalidArgumentError message).
Proof.
  intros Hs Hh Hw Hth Htw Hbox.
  destruct (RandomResizedCrop.target_size self) as [th tw] eqn:Ets.
  simpl in Hth, Htw.
  assert (Hshape : shape (tf_expand_dims0 image) = [1; h; w; c])
    by (simpl; rewrite Hs; reflexivity).
  assert (Hlen : Forall (fun b : list float32 => length b = 4%nat) [box])
    by (repeat constructor; exact Hbox).
  assert (Hidx : Forall (fun i => 0 <= i < 1) [0]) by (repeat constructor; lia).
  destruct (forallb Float32.is_finite box) eqn:Hfin.
  - destruct (crop_and_resize_shape (tf_expand_dims0 image) [box] [0]
                1 h w c th tw Hshape Hh Hw Hlen) as (out & E & Hout & Hd);
      try assumption; try reflexivity.
    { repeat constructor. apply forallb_true_Forall. exact Hfin. }
    unfold RandomResizedCrop.augment_image. rewrite Ets, E. cbn [Result_bind].
    unfold tf_squeeze0. rewrite Hout.
    eexists. split; [reflexivity |]. split; [reflexivity | exact Hd].
  - destruct (crop_and_resize_not_finite (tf_expand_dims0 image) [box] [0]
                1 h w c th tw Hshape Hh Hw Hlen) as (message & E);
      try assumption; try reflexivity.
    { left. apply forallb_false_Exists. exact Hfin. }
    unfold RandomResizedCrop.augment_image. rewrite Ets, E. cbn [Result_bind].
    eexists. reflexivity.
Qed.

Lemma augment_image_finite_box_witness :
  let self :=
    {| RandomResizedCrop.target_size := (50, 50);
       RandomResizedCrop.area_factor := UniformFactorSampler Float32.one Float32.one;
       RandomResizedCrop.aspect_ratio_factor :=
         UniformFactorSampler Float32.one Float32.one;
       RandomResizedCrop.interpolation := "bilinear";
       RandomResizedCrop.seed := None;
       RandomResizedCrop.compute_dtype := tf_float16 |} in
  exists out,
    RandomResizedCrop.augment_image (P := blank_primitives) self
      (blank [300; 217; 3] tf_uint8)
      [[Float32.of_Z (-1); S754_finite false 8388608 (-24); Float32.of_Z 2;
        Float32.zero]] = Ok out /\
    shape out = [50; 50; 3] /\ dtype out = tf_float32.
Proof.
  intros self.
  apply (augment_image_finite_box blank_primitives_contract self
           (blank [300; 217; 3] tf_uint8)
           [Float32.of_Z (-1); S754_finite false 8388608 (-24); Float32.of_Z 2;
            Float32.zero] 300 217 3);
    simpl; try reflexivity; lia.
Defined.

(** X5. Called with [training=False] on a dictionary that has no
    ["images"] entry, the layer raises [KeyError] for ["images"] and hands
    the random generator back untouched. *)
Theorem inference_missing_images `{P : Primitives} super_call self d g :
  d !! "images" = None ->
  RandomResizedCrop.call super_call self (DictInputs d) false g =
  (Raise (KeyError "images"), g).
Proof.
  intros Hd. unfold RandomResizedCrop.call, M_bind, M_lift.
  cbn [RandomResizedCrop._ensure_inputs_are_compute_dtype].
  unfold getitem. rewrite Hd. reflexivity.
Qed.

Lemma inference_missing_images_witness :
  RandomResizedCrop.call (P := blank_primitives) (fun _ i _ => M_ret i) scenario_layer
    (DictInputs {["labels" := blank [8] tf_int32]}) false (constant_state 5) =
  (Raise (KeyError "images"), constant_state 5).
Proof.
  apply (inference_missing_images (P := blank_primitives)).
  vm_compute. reflexivity.
Defined.

(** X6. Called with [training=False], the layer never draws from its
    random generator: whatever the inputs are, and whether the call returns
    or raises, the generator comes back as it was. *)
Theorem inference_never_draws `{P : Primitives} super_call self inputs g :
  snd (RandomResizedCrop.call super_call self inputs false g) = g.
Proof.
  unfold RandomResizedCrop.call, M_bind, M_lift.
  destruct (RandomResizedCrop._ensure_inputs_are_compute_dtype self inputs)
    as [inputs' |]; [| reflexivity].
  destruct (RandomResizedCrop._format_inputs inputs') as [[entries is_dict] use_targets].
  destruct (getitem entries "images") as [images |]; [| reflexivity].
  destruct (RandomResizedCrop._resize self images) as [resized |]; reflexivity.
Qed.

(** X7. Called with [training=False] on a dictionary that does not carry
    both ["targets"] and ["labels"], the layer returns the same dictionary
    with ["images"] replaced by the resized images: every other entry
    (labels, targets, bounding boxes) comes back unchanged, under its own
    key. *)
Theorem inference_keeps_other_entries `{P : Primitives} (C : PrimitivesContract P)
    super_call self d g x :
  d !! "images" = Some x ->
  is_image_shape (shape x) = true ->
  0 < fst (RandomResizedCrop.target_size self) ->
  0 < snd (RandomResizedCrop.target_size self) ->
  d !! "targets" = None \/ d !! "labels" = None ->
  exists resized,
    RandomResizedCrop._resize self
      (ensure_tensor x (RandomResizedCrop.compute_dtype self)) = Ok resized /\
    RandomResizedCrop.call super_call self (DictInputs d) false g =
      (Ok (DictInputs (<["images" := resized]> d)), g).
Proof.
  intros Hx Himg Hth Htw Hkeys.
  set (x' := ensure_tensor x (RandomResizedCrop.compute_dtype self)).
  assert (Himg' : is_image_shape (shape x') = true)
    by (subst x'; rewrite (ensure_tensor_shape C); exact Himg).
  destruct (resize_ok C self x' Himg' Hth Htw) as (out & _ & Er & _).
  eexists. split; [exact Er |].
  unfold RandomResizedCrop.call, M_bind, M_lift.
  cbn [RandomResizedCrop._ensure_inputs_are_compute_dtype].
  unfold getitem at 1. rewrite Hx. cbn [Result_bind]. fold x'.
  cbn [RandomResizedCrop._format_inputs].
  rewrite lookup_insert_ne by discriminate.
  destruct (d !! "targets") as [targets |] eqn:Et.
  - destruct Hkeys as [Hk | Hl]; [discriminate |].
    unfold getitem at 1.
    rewrite lookup_insert_ne, lookup_delete_ne, lookup_insert_eq by discriminate.
    rewrite Er. unfold RandomResizedCrop._format_output. cbn [negb].
    unfold getitem.
    rewrite lookup_insert_ne, lookup_insert_eq by discriminate. cbn [Result_bind].
    do 3 f_equal. apply map_eq. intros key.
    destruct (decide (key = "targets")) as [-> | H1].
    { rewrite lookup_insert_eq, lookup_insert_ne by discriminate.
      symmetry. exact Et. }
    rewrite lookup_insert_ne by congruence.
    destruct (decide (key = "labels")) as [-> | H2].
    { rewrite lookup_delete_eq, lookup_insert_ne by discriminate.
      symmetry. exact Hl. }
    rewrite lookup_delete_ne by congruence.
    destruct (decide (key = "images")) as [-> | H3].
    { rewrite !lookup_insert_eq. reflexivity. }
    rewrite !lookup_insert_ne by congruence.
    rewrite lookup_delete_ne by congruence.
    rewrite lookup_insert_ne by congruence. reflexivity.
  - unfold getitem at 1. rewrite lookup_insert_eq.
    rewrite Er. unfold RandomResizedCrop._format_output. cbn [negb].
    rewrite insert_insert_eq. reflexivity.
Qed.

Lemma inference_keeps_other_entries_witness :
  let self := scenario_layer in
  let x := blank [2; 6; 4; 3] tf_uint8 in
  let d : gmap string Tensor :=
    <["targets" := blank [2] tf_int32]> {["images" := x]} in
  exists resized,
    RandomResizedCrop._resize (P := blank_primitives) self
      (ensure_tensor (H := blank_primitives) x (RandomResizedCrop.compute_dtype self)) =
      Ok resized /\
    RandomResizedCrop.call (P := blank_primitives) (fun _ i _ => M_ret i)
      self (DictInputs d) false (constant_state 5) =
      (Ok (DictInputs (<["images" := resized]> d)), constant_state 5).
Proof.
  intros self x d.
  apply (inference_keeps_other_entries blank_primitives_contract
           (fun _ i _ => M_ret i) self d (constant_state 5) x).
  - vm_compute. reflexivity.
  - reflexivity.
  - reflexivity.
  - reflexivity.
  - right. vm_compute. reflexivity.
Defined.

(** X8. The [interpolation] attribute is stored and never read: a layer
    that differs in nothing but [interpolation] samples the same
    rectangles, crops, resizes and answers a call with [training=False] in
    exactly the same way. *)
Theorem interpolation_is_not_read `{P : Primitives} super_call self other :
  let self' :=
    {| RandomResizedCrop.target_size := RandomResizedCrop.target_size self;
       RandomResizedCrop.area_factor := RandomResizedCrop.area_factor self;
       RandomResizedCrop.aspect_ratio_factor :=
         RandomResizedCrop.aspect_ratio_factor self;
       RandomResizedCrop.interpolation := other;
       RandomResizedCrop.seed := RandomResizedCrop.seed self;
       RandomResizedCrop.compute_dtype := RandomResizedCrop.compute_dtype self |} in
  RandomResizedCrop.get_random_transformation self' =
    RandomResizedCrop.get_random_transformation self /\
  (forall image transformation,
     RandomResizedCrop.augment_image self' image transformation =
     RandomResizedCrop.augment_image self image transformation) /\
  (forall image,
     RandomResizedCrop._resize self' image = RandomResizedCrop._resize self image) /\
  (forall inputs g,
     RandomResizedCrop.call super_call self' inputs false g =
     RandomResizedCrop.call super_call self inputs false g).
Proof.
  intros self'. split; [reflexivity |]. split; [reflexivity |].
  split; [reflexivity |].
  intros inputs g. unfold RandomResizedCrop.call.
  destruct inputs; reflexivity.
Qed.

(* ===================================================================== *)
(** * RandomResizedCrop: what a construction holds, and its configuration *)
(* ===================================================================== *)

(** X9. A construction that succeeds was given a non-empty tuple as
    [aspect_ratio_factor], or a falsy value, which stands for the default
    tuple; the layer holds what [parse_factor] returned for that tuple,
    called with the tuple's own minimum and maximum as bounds, and for
    [area_factor], called with the upper bound [1.0] and no lower bound; it
    holds [target_size], [interpolation] and [seed] as they were passed, and
    no warning is emitted. *)
Theorem init_success_inversion parse target_size area_factor aspect_ratio_factor
    interpolation seed dt self warnings :
  RandomResizedCrop.__init__ parse target_size area_factor aspect_ratio_factor
    interpolation seed dt = Ok (self, warnings) ->
  exists first rest,
    py_or aspect_ratio_factor RandomResizedCrop.default_aspect_ratio_factor =
      PyTuple (first :: rest) /\
    parse (PyTuple (first :: rest)) (Some (py_min first rest)) (Some (py_max first rest))
      "aspect_ratio_factor" seed = Ok (RandomResizedCrop.aspect_ratio_factor self) /\
    parse area_factor None (Some (Float Float64.one)) "area_factor" seed =
      Ok (RandomResizedCrop.area_factor self) /\
    RandomResizedCrop.target_size self = target_size /\
    RandomResizedCrop.interpolation self = interpolation /\
    RandomResizedCrop.seed self = seed /\
    RandomResizedCrop.compute_dtype self = dt /\
    warnings = [].
Proof.
  unfold RandomResizedCrop.__init__.
  destruct (py_or aspect_ratio_factor RandomResizedCrop.default_aspect_ratio_factor)
    as [| b | n | [| first rest] | s]; cbn [Result_bind RandomResizedCrop.read_local];
    try discriminate.
  destruct (parse (PyTuple (first :: rest)) _ _ _ _) as [aspect |] eqn:Easpect;
    cbn [Result_bind]; [| discriminate].
  destruct (parse area_factor _ _ _ _) as [area |] eqn:Earea;
    cbn [Result_bind]; [| discriminate].
  cbn [py_eq_float]. rewrite andb_false_r.
  intros [= <- <-]. exists first, rest. repeat split; assumption.
Qed.

Lemma init_success_inversion_witness :
  exists first rest,
    py_or (PyTuple [Float Float64.one; Float Float64.one])
      RandomResizedCrop.default_aspect_ratio_factor = PyTuple (first :: rest) /\
    parse_factor (PyTuple (first :: rest)) (Some (py_min first rest))
      (Some (py_max first rest)) "aspect_ratio_factor" (Some 7) =
      Ok (RandomResizedCrop.aspect_ratio_factor scenario_layer) /\
    parse_factor (PyTuple [Float (Float64.ratio 1 2); Float (Float64.ratio 1 2)])
      None (Some (Float Float64.one)) "area_factor" (Some 7) =
      Ok (RandomResizedCrop.area_factor scenario_layer) /\
    RandomResizedCrop.target_size scenario_layer = (50, 50) /\
    RandomResizedCrop.interpolation scenario_layer = "bilinear" /\
    RandomResizedCrop.seed scenario_layer = Some 7 /\
    RandomResizedCrop.compute_dtype scenario_layer = tf_float32 /\
    @nil string = [].
Proof.
  apply (init_success_inversion parse_factor (50, 50)
           (PyTuple [Float (Float64.ratio 1 2); Float (Float64.ratio 1 2)])
           (PyTuple [Float Float64.one; Float Float64.one])
           "bilinear" (Some 7) tf_float32 scenario_layer []).
  vm_compute. reflexivity.
Defined.

(** X10. The configuration of a layer does not build the layer back:
    [get_config] stores the two factors as the sampler objects the layer
    holds, not as the arguments it was given, and the constructor called on
    these entries raises [UnboundLocalError] for [min_aspect_ratio], for
    every layer and whatever the base class contributes. *)
Theorem config_round_trip_raises parse super_get_config self dt :
  RandomResizedCrop.from_config parse
    (RandomResizedCrop.get_config super_get_config self) dt =
  Some (Raise (UnboundLocalError "min_aspect_ratio")).
Proof.
  unfold RandomResizedCrop.from_config, RandomResizedCrop.get_config.
  unfold keyword_py, keyword_string, keyword_seed.
  rewrite !lookup_insert_eq.
  rewrite !(lookup_insert_ne _ _ "interpolation") by discriminate.
  rewrite lookup_insert_eq.
  rewrite !(lookup_insert_ne _ _ "aspect_ratio_factor") by discriminate.
  rewrite lookup_insert_eq.
  rewrite !(lookup_insert_ne _ _ "area_factor") by discriminate.
  rewrite lookup_insert_eq.
  rewrite !(lookup_insert_ne _ _ "target_size") by discriminate.
  rewrite lookup_insert_eq.
  destruct (RandomResizedCrop.seed self); reflexivity.
Qed.

(* ===================================================================== *)
(** * SqueezeAndExciteBlock2D: invariants, configuration and call         *)
(* ===================================================================== *)

Lemma py_int_nonneg x b : nonneg_float x -> py_int (Float x) = Ok b -> 0 <= b.
Proof.
  destruct x as [s | s | | s m e]; simpl; intros Hx Hb; try discriminate.
  - injection Hb as <-. lia.
  - subst s. injection Hb as <-. simpl.
    destruct (Z.leb_spec 0 e).
    + apply Z.mul_nonneg_nonneg; [lia | apply Z.pow_nonneg; lia].
    + apply Z.div_pos; [lia |]. apply Z.pow_pos_nonneg; lia.
Qed.

(** The product of the float of a positive int and a positive finite
    float is not negative. *)
Lemma py_mul_nonneg p m e product :
  py_mul (Int (Zpos p)) (Float (S754_finite false m e)) = Ok product ->
  exists x, product = Float x /\ nonneg_float x.
Proof.
  unfold py_mul, float_of_int.
  destruct (of_Z_positive_cases p) as [[s E] | [E | (mx & ex & E & _)]];
    rewrite E; cbn [Result_bind]; intros [= <-].
  - eexists. split; [reflexivity |]. exact I.
  - eexists. split; [reflexivity |].
    apply (binary_round_aux_nonneg Float64.prec Float64.emax). lia.
Qed.

(** The stand-in sublayers meet the contracts of the Keras layers. *)
Lemma blank_layers_contract : KerasLayersContract blank_layers.
Proof.
  constructor.
  - reflexivity.
  - intros n kernel_size activation Hn Ha. simpl in *. unfold blank_conv_init.
    rewrite Ha, (proj2 (Z.ltb_lt 0 n) Hn). reflexivity.
  - intros n kernel_size activation Hn. simpl. unfold blank_conv_init.
    destruct (blank_activation_known activation); cbn [negb]; [| eauto].
    destruct (Z.ltb_spec 0 n); [lia | eauto].
  - intros filters kernel_size activation Ha. simpl in *. unfold blank_conv_init.
    rewrite Ha. cbn [negb]. eauto.
  - intros x b h w c Hs Hd. simpl. unfold blank_layer_call. rewrite Hs, Hd.
    eexists. split; [reflexivity |]. split; reflexivity.
  - intros n activation x b h w c Hs Hd Hn Hc. simpl. unfold blank_layer_call.
    rewrite Hs, Hd, (proj2 (Z.ltb_lt 0 n) Hn), (proj2 (Z.ltb_lt 0 c) Hc).
    eexists. split; [reflexivity |]. split; reflexivity.
  - intros x y Hx Hy. simpl. unfold blank_multiply. rewrite Hx.
    destruct (broadcast_shapes (shape x) (shape y)) as [s |].
    + eexists. split; [reflexivity |]. split; reflexivity.
    + eexists. reflexivity.
Qed.

Section Construction.

Context `{K : KerasLayers}.

(** A construction that succeeds has passed both tests. *)
Lemma squeeze_excite_init_tests filters ratio squeeze_activation
    excite_activation self :
  SqueezeAndExciteBlock2D.__init__ filters ratio squeeze_activation
    excite_activation = Ok self ->
  (exists p, filters = Int (Zpos p)) /\
  number_leb ratio (Float Float64.zero) || number_geb ratio (Float Float64.one) = false.
Proof.
  unfold SqueezeAndExciteBlock2D.__init__.
  destruct (_ || _); [discriminate |].
  rewrite filters_test.
  destruct filters as [[| p | p] | x]; try discriminate.
  intros _. split; [eauto | reflexivity].
Qed.

(** A construction that succeeds stores its arguments, the bottleneck
    width of line 66 and the sublayers the three constructors returned. *)
Lemma squeeze_excite_init_stores filters ratio squeeze_activation
    excite_activation self :
  SqueezeAndExciteBlock2D.__init__ filters ratio squeeze_activation
    excite_activation = Ok self ->
  SqueezeAndExciteBlock2D.filters self = filters /\
  SqueezeAndExciteBlock2D.ratio self = ratio /\
  SqueezeAndExciteBlock2D.squeeze_activation self = squeeze_activation /\
  SqueezeAndExciteBlock2D.excite_activation self = excite_activation /\
  SqueezeAndExciteBlock2D.bottleneck_of filters ratio =
    Ok (SqueezeAndExciteBlock2D.bottleneck_filters self) /\
  GlobalAveragePooling2D true = Ok (SqueezeAndExciteBlock2D.global_average_pool self) /\
  Conv2D (Int (SqueezeAndExciteBlock2D.bottleneck_filters self)) (1, 1)
    squeeze_activation = Ok (SqueezeAndExciteBlock2D.squeeze_conv self) /\
  Conv2D filters (1, 1) excite_activation =
    Ok (SqueezeAndExciteBlock2D.excite_conv self).
Proof.
  unfold SqueezeAndExciteBlock2D.__init__, SqueezeAndExciteBlock2D.bottleneck_of.
  destruct (_ || _); [discriminate |].
  destruct (_ || _); [discriminate |].
  destruct (py_mul filters ratio) as [product |]; [| discriminate].
  cbn [Result_bind].
  destruct (py_int product) as [bottleneck |]; [| discriminate].
  cbn [Result_bind].
  destruct (GlobalAveragePooling2D true) as [pool |]; [| discriminate].
  cbn [Result_bind].
  destruct (Conv2D (Int bottleneck) (1, 1) squeeze_activation) as [squeeze |] eqn:Es;
    [| discriminate].
  cbn [Result_bind].
  destruct (Conv2D filters (1, 1) excite_activation) as [excite |];
    [| discriminate].
  cbn [Result_bind]. intros [= <-]. repeat split. exact Es.
Qed.

(** The constructor is the two tests, line 66 and the three sublayer
    constructors, in this order. *)
Lemma squeeze_excite_init_steps filters ratio squeeze_activation excite_activation :
  number_leb ratio (Float Float64.zero) || number_geb ratio (Float Float64.one) = false ->
  SqueezeAndExciteBlock2D.positive_integer filters = true ->
  SqueezeAndExciteBlock2D.__init__ filters ratio squeeze_activation excite_activation =
  let? bottleneck := SqueezeAndExciteBlock2D.bottleneck_of filters ratio in
  let? global_average_pool := GlobalAveragePooling2D true in
  let? squeeze_conv := Conv2D (Int bottleneck) (1, 1) squeeze_activation in
  let? excite_conv := Conv2D filters (1, 1) excite_activation in
  Ok {| SqueezeAndExciteBlock2D.filters := filters;
        SqueezeAndExciteBlock2D.ratio := ratio;
        SqueezeAndExciteBlock2D.bottleneck_filters := bottleneck;
        SqueezeAndExciteBlock2D.squeeze_activation := squeeze_activation;
        SqueezeAndExciteBlock2D.excite_activation := excite_activation;
        SqueezeAndExciteBlock2D.global_average_pool := global_average_pool;
        SqueezeAndExciteBlock2D.squeeze_conv := squeeze_conv;
        SqueezeAndExciteBlock2D.excite_conv := excite_conv |}.
Proof.
  intros Hratio Hfilters.
  unfold SqueezeAndExciteBlock2D.__init__, SqueezeAndExciteBlock2D.bottleneck_of.
  rewrite Hratio, filters_test, Hfilters. cbn [negb].
  destruct (py_mul filters ratio) as [product |]; [| reflexivity].
  cbn [Result_bind].
  destruct (py_int product); reflexivity.
Qed.

End Construction.

Section Sublayers.

Context `{K : KerasLayers} (C : KerasLayersContract K).

(** The squeeze convolution is built for a positive bottleneck width and a
    known activation name only. *)
Lemma squeeze_conv_built bottleneck activation :
  if (0 <? bottleneck) && activation_known activation
  then Conv2D (Int bottleneck) (1, 1) activation =
       Ok (ConvLayer bottleneck (1, 1) activation)
  else exists message interpolated,
         Conv2D (Int bottleneck) (1, 1) activation =
         Raise (ValueError message interpolated).
Proof.
  destruct (Z.ltb_spec 0 bottleneck) as [Hb | Hb]; cbn [andb].
  - destruct (activation_known activation) eqn:Ha.
    + apply conv_init; assumption.
    + apply conv_init_activation. exact Ha.
  - apply conv_init_filters. exact Hb.
Qed.

(** The sublayers of a block the constructor returned. *)
Lemma squeeze_excite_init_sublayers n ratio squeeze_activation excite_activation self :
  SqueezeAndExciteBlock2D.__init__ (Int n) ratio squeeze_activation
    excite_activation = Ok self ->
  0 < n /\ 0 < SqueezeAndExciteBlock2D.bottleneck_filters self /\
  SqueezeAndExciteBlock2D.global_average_pool self = PoolingLayer true /\
  SqueezeAndExciteBlock2D.squeeze_conv self =
    ConvLayer (SqueezeAndExciteBlock2D.bottleneck_filters self) (1, 1)
      squeeze_activation /\
  SqueezeAndExciteBlock2D.excite_conv self = ConvLayer n (1, 1) excite_activation.
Proof.
  intros Hinit.
  destruct (squeeze_excite_init_tests _ _ _ _ _ Hinit) as [[p Hp] _].
  injection Hp as ->.
  destruct (squeeze_excite_init_stores _ _ _ _ _ Hinit)
    as (_ & _ & _ & _ & _ & Hpool & Hsq & Hex).
  rewrite pooling_init in Hpool. injection Hpool as Hpool.
  pose proof (squeeze_conv_built (SqueezeAndExciteBlock2D.bottleneck_filters self)
                squeeze_activation) as Hs.
  pose proof (squeeze_conv_built (Zpos p) excite_activation) as He.
  split; [lia |].
  destruct (Z.ltb_spec 0 (SqueezeAndExciteBlock2D.bottleneck_filters self)) as [Hb | Hb];
    cbn [andb] in Hs.
  - split; [exact Hb |]. split; [symmetry; exact Hpool |].
    destruct (activation_known squeeze_activation).
    + rewrite Hs in Hsq. injection Hsq as Hsq. split; [symmetry; exact Hsq |].
      change (0 <? Zpos p) with true in He. cbn [andb] in He.
      destruct (activation_known excite_activation).
      * rewrite He in Hex. injection Hex as Hex. symmetry. exact Hex.
      * destruct He as (message & interpolated & He). congruence.
    + destruct Hs as (message & interpolated & Hs). congruence.
  - destruct Hs as (message & interpolated & Hs). congruence.
Qed.

End Sublayers.

(** C9 (as amended). For a filter count that, when it is an integer,
    converts to a float without overflow, and with sublayer constructors
    that meet their contract: the constructor raises [ValueError] whenever
    the ratio is not strictly inside [(0, 1)] or the filter count is not a
    positive integer; when the ratio is strictly inside [(0, 1)] and the
    filter count is a positive integer, line 66 gives the bottleneck width
    [int(filters * ratio)], and the constructor returns the block, with its
    three sublayers, when that width is at least 1 and the two activation
    names are known to Keras, and raises the [ValueError] of the
    convolution constructor otherwise. *)
Theorem squeeze_excite_init_validates `{K : KerasLayers}
    (C : KerasLayersContract K) filters ratio squeeze_activation
    excite_activation :
  SqueezeAndExciteBlock2D.well_formed ratio = true ->
  SqueezeAndExciteBlock2D.convertible filters = true ->
  if SqueezeAndExciteBlock2D.ratio_in_range ratio
     && SqueezeAndExciteBlock2D.positive_integer filters
  then
    exists n bottleneck,
      filters = Int n /\
      SqueezeAndExciteBlock2D.bottleneck_of filters ratio = Ok bottleneck /\
      if (0 <? bottleneck) && activation_known squeeze_activation
         && activation_known excite_activation
      then
        SqueezeAndExciteBlock2D.__init__ filters ratio squeeze_activation
          excite_activation =
        Ok {| SqueezeAndExciteBlock2D.filters := filters;
              SqueezeAndExciteBlock2D.ratio := ratio;
              SqueezeAndExciteBlock2D.bottleneck_filters := bottleneck;
              SqueezeAndExciteBlock2D.squeeze_activation := squeeze_activation;
              SqueezeAndExciteBlock2D.excite_activation := excite_activation;
              SqueezeAndExciteBlock2D.global_average_pool := PoolingLayer true;
              SqueezeAndExciteBlock2D.squeeze_conv :=
                ConvLayer bottleneck (1, 1) squeeze_activation;
              SqueezeAndExciteBlock2D.excite_conv :=
                ConvLayer n (1, 1) excite_activation |}
      else
        exists message interpolated,
          SqueezeAndExciteBlock2D.__init__ filters ratio squeeze_activation
            excite_activation = Raise (ValueError message interpolated)
  else
    exists message interpolated,
      SqueezeAndExciteBlock2D.__init__ filters ratio squeeze_activation
        excite_activation = Raise (ValueError message interpolated).
Proof.
  intros Hwf Hconv.
  destruct ratio as [r | x].
  { destruct (int_ratio_rejected r) as [-> Hr]. cbn [andb].
    unfold SqueezeAndExciteBlock2D.__init__. rewrite Hr. eauto. }
  destruct (float_ratio_cases x)
    as [[-> Hr] | [(-> & Hr & ->) | (-> & Hr & m & e & -> & Hlt)]];
    cbn [andb].
  - unfold SqueezeAndExciteBlock2D.__init__. rewrite Hr. eauto.
  - unfold SqueezeAndExciteBlock2D.__init__. rewrite Hr, filters_test.
    destruct filters as [[| p | p] | y]; cbn [SqueezeAndExciteBlock2D.positive_integer negb];
      try (change (0 <? 0) with false); try (change (0 <? Zneg p) with false);
      try (change (0 <? Zpos p) with true); cbn [negb]; eauto.
    destruct (bottleneck_nan p Hconv) as (y & -> & _).
    cbn [Result_bind py_int]. eauto.
  - destruct (SqueezeAndExciteBlock2D.positive_integer filters) eqn:Hpos.
    2:{ unfold SqueezeAndExciteBlock2D.__init__. rewrite Hr, filters_test, Hpos.
        cbn [negb]. eauto. }
    rewrite (squeeze_excite_init_steps _ _ _ _ Hr Hpos).
    destruct filters as [[| p | p] | y]; try discriminate Hpos.
    destruct (bottleneck_computed p m e Hconv Hwf Hlt) as (product & b & Hp & Hb).
    exists (Zpos p), b. split; [reflexivity |].
    assert (Hbot : SqueezeAndExciteBlock2D.bottleneck_of (Int (Zpos p))
                     (Float (S754_finite false m e)) = Ok b).
    { unfold SqueezeAndExciteBlock2D.bottleneck_of. rewrite Hp. exact Hb. }
    split; [exact Hbot |]. rewrite Hbot. cbn [Result_bind].
    rewrite pooling_init. cbn [Result_bind].
    pose proof (squeeze_conv_built C b squeeze_activation) as Hs.
    pose proof (squeeze_conv_built C (Zpos p) excite_activation) as He.
    change (0 <? Zpos p) with true in He. cbn [andb] in He.
    destruct ((0 <? b) && activation_known squeeze_activation).
    + rewrite Hs. cbn [Result_bind andb].
      destruct (activation_known excite_activation).
      * rewrite He. reflexivity.
      * destruct He as (message & interpolated & ->). eauto.
    + destruct Hs as (message & interpolated & ->). cbn [andb Result_bind]. eauto.
Qed.

Lemma squeeze_excite_init_validates_witness :
  exists n bottleneck,
    Int 16 = Int n /\
    SqueezeAndExciteBlock2D.bottleneck_of (Int 16) (Float (Float64.ratio 1 4)) =
      Ok bottleneck /\
    if (0 <? bottleneck) && activation_known (KerasLayers := blank_layers) "relu"
       && activation_known (KerasLayers := blank_layers) "sigmoid"
    then
      SqueezeAndExciteBlock2D.__init__ (H := blank_layers)
        (Int 16) (Float (Float64.ratio 1 4)) "relu" "sigmoid" =
      Ok {| SqueezeAndExciteBlock2D.filters := Int 16;
            SqueezeAndExciteBlock2D.ratio := Float (Float64.ratio 1 4);
            SqueezeAndExciteBlock2D.bottleneck_filters := bottleneck;
            SqueezeAndExciteBlock2D.squeeze_activation := "relu";
            SqueezeAndExciteBlock2D.excite_activation := "sigmoid";
            SqueezeAndExciteBlock2D.global_average_pool := PoolingLayer true;
            SqueezeAndExciteBlock2D.squeeze_conv := ConvLayer bottleneck (1, 1) "relu";
            SqueezeAndExciteBlock2D.excite_conv := ConvLayer n (1, 1) "sigmoid" |}
    else
      exists message interpolated,
        SqueezeAndExciteBlock2D.__init__ (H := blank_layers)
          (Int 16) (Float (Float64.ratio 1 4)) "relu" "sigmoid" =
        Raise (ValueError message interpolated).
Proof.
  apply (squeeze_excite_init_validates blank_layers_contract
           (Int 16) (Float (Float64.ratio 1 4)) "relu" "sigmoid");
    vm_compute; reflexivity.
Defined.

(** C9 (as stated) fails in two ways, with arguments in the claimed domain.
    For a filter count beyond the float range, [filters = 2^1024] and
    [ratio = 0.5], the product [filters * ratio] of line 66 raises
    [OverflowError], whatever the sublayer constructors do.  For
    [filters = 1] and [ratio = 0.5] the bottleneck width is
    [int(0.5) = 0], and the constructor of the squeeze convolution raises
    [ValueError] for a convolution without filters. *)
Lemma squeeze_excite_init_valid_arguments_raise :
  SqueezeAndExciteBlock2D.ratio_in_range (Float (Float64.ratio 1 2)) = true /\
  SqueezeAndExciteBlock2D.positive_integer (Int (2 ^ 1024)) = true /\
  (forall K : KerasLayers,
     SqueezeAndExciteBlock2D.__init__ (H := K) (Int (2 ^ 1024))
       (Float (Float64.ratio 1 2)) "relu" "sigmoid" =
     Raise (OverflowError "int too large to convert to float")) /\
  SqueezeAndExciteBlock2D.positive_integer (Int 1) = true /\
  SqueezeAndExciteBlock2D.bottleneck_of (Int 1) (Float (Float64.ratio 1 2)) = Ok 0 /\
  (forall K : KerasLayers, KerasLayersContract K ->
     exists message interpolated,
       SqueezeAndExciteBlock2D.__init__ (H := K) (Int 1)
         (Float (Float64.ratio 1 2)) "relu" "sigmoid" =
       Raise (ValueError message interpolated)).
Proof.
  split; [vm_compute; reflexivity |].
  split; [vm_compute; reflexivity |].
  split; [intros K; vm_compute; reflexivity |].
  split; [vm_compute; reflexivity |].
  split; [vm_compute; reflexivity |].
  intros K C.
  rewrite squeeze_excite_init_steps by (vm_compute; reflexivity).
  change (SqueezeAndExciteBlock2D.bottleneck_of (Int 1) (Float (Float64.ratio 1 2)))
    with (@Ok Z 0).
  cbn [Result_bind]. rewrite pooling_init. cbn [Result_bind].
  destruct (conv_init_filters 0 (1, 1) "relu" ltac:(lia))
    as (message & interpolated & ->).
  eauto.
Qed.

(** X11. Every block the constructor returns has a positive integer as
    [filters], a [ratio] strictly inside [(0, 1)] (an integer or a NaN
    ratio never gets through) and a bottleneck width that is not
    negative. *)
Theorem squeeze_excite_init_invariants `{K : KerasLayers} filters ratio
    squeeze_activation excite_activation self :
  SqueezeAndExciteBlock2D.__init__ filters ratio squeeze_activation
    excite_activation = Ok self ->
  SqueezeAndExciteBlock2D.positive_integer (SqueezeAndExciteBlock2D.filters self) = true /\
  SqueezeAndExciteBlock2D.ratio_in_range (SqueezeAndExciteBlock2D.ratio self) = true /\
  0 <= SqueezeAndExciteBlock2D.bottleneck_filters self.
Proof.
  intros Hinit.
  destruct (squeeze_excite_init_tests _ _ _ _ _ Hinit) as [[p ->] Hratio].
  destruct (squeeze_excite_init_stores _ _ _ _ _ Hinit)
    as (-> & -> & _ & _ & Hbot & _).
  unfold SqueezeAndExciteBlock2D.bottleneck_of in Hbot.
  destruct ratio as [n | x].
  { destruct (int_ratio_rejected n) as [_ H]. congruence. }
  destruct (float_ratio_cases x)
    as [[_ H] | [(_ & _ & ->) | (Hin & _ & m & e & -> & _)]].
  - congruence.
  - destruct (py_mul (Int (Zpos p)) (Float S754_nan)) as [product |] eqn:Ep;
      [| discriminate].
    unfold py_mul in Ep.
    destruct (float_of_int (Zpos p)) as [x |]; [| discriminate].
    cbn [Result_bind] in Ep. unfold Float64.mul in Ep. rewrite SFmul_nan_r in Ep.
    injection Ep as <-. discriminate.
  - destruct (py_mul (Int (Zpos p)) (Float (S754_finite false m e)))
      as [product |] eqn:Ep; [| discriminate].
    destruct (py_mul_nonneg p m e product Ep) as (y & -> & Hy).
    cbn [Result_bind] in Hbot.
    split; [reflexivity |]. split; [exact Hin |].
    exact (py_int_nonneg y _ Hy Hbot).
Qed.

Lemma squeeze_excite_init_invariants_witness :
  SqueezeAndExciteBlock2D.positive_integer
    (SqueezeAndExciteBlock2D.filters example_block) = true /\
  SqueezeAndExciteBlock2D.ratio_in_range
    (SqueezeAndExciteBlock2D.ratio example_block) = true /\
  0 <= SqueezeAndExciteBlock2D.bottleneck_filters example_block.
Proof.
  apply (squeeze_excite_init_invariants (K := blank_layers)
           (Int 16) (Float (Float64.ratio 1 4)) "relu" "sigmoid" example_block).
  vm_compute. reflexivity.
Defined.

(** X12. A NaN ratio is not caught by the range test of the constructor,
    since every comparison with NaN is false: for a positive integer filter
    count within the float range the constructor goes on to
    [int(filters * ratio)] and raises the [ValueError] of [int], whose
    message names neither [ratio] nor [filters]. *)
Theorem squeeze_excite_nan_ratio `{K : KerasLayers} p squeeze_activation
    excite_activation :
  is_Ok (float_of_int (Zpos p)) = true ->
  SqueezeAndExciteBlock2D.__init__ (Int (Zpos p)) (Float S754_nan)
    squeeze_activation excite_activation =
  Raise (ValueError "cannot convert float NaN to integer" []).
Proof.
  intros Hconv. unfold SqueezeAndExciteBlock2D.__init__.
  rewrite filters_test.
  change (number_leb (Float S754_nan) (Float Float64.zero)
          || number_geb (Float S754_nan) (Float Float64.one)) with false.
  change (negb (SqueezeAndExciteBlock2D.positive_integer (Int (Zpos p)))) with false.
  cbv iota.
  destruct (bottleneck_nan p Hconv) as (x & -> & _). reflexivity.
Qed.

Lemma squeeze_excite_nan_ratio_witness :
  SqueezeAndExciteBlock2D.__init__ (H := blank_layers)
    (Int 16) (Float S754_nan) "relu" "sigmoid" =
  Raise (ValueError "cannot convert float NaN to integer" []).
Proof.
  apply (squeeze_excite_nan_ratio (K := blank_layers) 16 "relu" "sigmoid").
  vm_compute. reflexivity.
Defined.

(** ** Configuration *)

(** A dictionary built from the items of a dictionary is that dictionary. *)
Lemma py_dict_items (d : gmap string ConfigValue) : py_dict (py_items d) = d.
Proof.
  unfold py_dict, py_items.
  rewrite <- fold_left_rev_right.
  transitivity (list_to_map (rev (map_to_list d)) : gmap string ConfigValue).
  - generalize (rev (map_to_list d)). intros l.
    induction l as [| [k v] l IH]; simpl; [reflexivity |]. rewrite IH. reflexivity.
  - rewrite <- (list_to_map_to_list d) at 2. symmetry.
    apply list_to_map_proper; [apply NoDup_fst_map_to_list | apply Permutation_rev].
Qed.

Lemma py_dict_app l1 l2 :
  py_dict (l1 ++ l2) =
  fold_left (fun d item => <[fst item := snd item]> d) l2 (py_dict l1).
Proof. unfold py_dict. apply fold_left_app. Qed.

(** X13. [get_config] returns the four entries of the block over the base
    configuration: an entry of the base class under one of the four keys is
    replaced, since the items of the block come last in the list the
    dictionary is built from, and every other base entry is kept. *)
Theorem squeeze_excite_config_entries base self :
  SqueezeAndExciteBlock2D.get_config base self =
  list_to_map
    [("filters", ConfigPy (PyNumber (SqueezeAndExciteBlock2D.filters self)));
     ("ratio", ConfigPy (PyNumber (SqueezeAndExciteBlock2D.ratio self)));
     ("squeeze_activation",
      ConfigString (SqueezeAndExciteBlock2D.squeeze_activation self));
     ("excite_activation",
      ConfigString (SqueezeAndExciteBlock2D.excite_activation self))]
  ∪ base.
Proof.
  unfold SqueezeAndExciteBlock2D.get_config.
  rewrite py_dict_app, py_dict_items. simpl.
  apply map_eq. intros key.
  rewrite lookup_union.
  destruct (decide (key = "excite_activation")) as [-> | H1].
  { rewrite lookup_insert_eq. rewrite !lookup_insert_ne by discriminate.
    rewrite lookup_insert_eq. destruct (base !! _); reflexivity. }
  rewrite lookup_insert_ne by congruence.
  destruct (decide (key = "squeeze_activation")) as [-> | H2].
  { rewrite lookup_insert_eq. rewrite !lookup_insert_ne by discriminate.
    rewrite lookup_insert_eq. destruct (base !! _); reflexivity. }
  rewrite lookup_insert_ne by congruence.
  destruct (decide (key = "ratio")) as [-> | H3].
  { rewrite lookup_insert_eq. rewrite !lookup_insert_ne by discriminate.
    rewrite lookup_insert_eq. destruct (base !! _); reflexivity. }
  rewrite lookup_insert_ne by congruence.
  destruct (decide (key = "filters")) as [-> | H4].
  { rewrite !lookup_insert_eq. destruct (base !! _); reflexivity. }
  rewrite !lookup_insert_ne by congruence.
  rewrite lookup_empty. destruct (base !! key); reflexivity.
Qed.

(** X14. The configuration of a block builds the block back: for a block
    the constructor returned, the constructor called on the entries of
    [get_config] returns the same block, whatever the base class
    contributes to the configuration. *)
Theorem squeeze_excite_config_round_trip `{K : KerasLayers} base filters ratio
    squeeze_activation excite_activation self :
  SqueezeAndExciteBlock2D.__init__ filters ratio squeeze_activation
    excite_activation = Ok self ->
  SqueezeAndExciteBlock2D.from_config (SqueezeAndExciteBlock2D.get_config base self) =
  Some (Ok self).
Proof.
  intros Hinit.
  destruct (squeeze_excite_init_stores _ _ _ _ _ Hinit) as (Hf & Hr & Hs & He & _).
  unfold SqueezeAndExciteBlock2D.from_config, SqueezeAndExciteBlock2D.get_config.
  rewrite py_dict_app, py_dict_items. simpl.
  unfold keyword_py, keyword_string.
  rewrite !lookup_insert_eq.
  rewrite (lookup_insert_ne _ "excite_activation" "squeeze_activation") by discriminate.
  rewrite lookup_insert_eq.
  rewrite !(lookup_insert_ne _ _ "ratio") by discriminate.
  rewrite lookup_insert_eq.
  rewrite !(lookup_insert_ne _ _ "filters") by discriminate.
  rewrite lookup_insert_eq.
  rewrite Hf, Hr, Hs, He, Hinit. reflexivity.
Qed.

Lemma squeeze_excite_config_round_trip_witness :
  SqueezeAndExciteBlock2D.from_config (H := blank_layers)
    (SqueezeAndExciteBlock2D.get_config
       {["name" := ConfigString "squeeze_excite"; "filters" := ConfigPy PyNone]}
       example_block) =
  Some (Ok example_block).
Proof.
  apply (squeeze_excite_config_round_trip (K := blank_layers) _ (Int 16)
           (Float (Float64.ratio 1 4)) "relu" "sigmoid").
  vm_compute. reflexivity.
Defined.

(** ** The call *)

(** The gate [[b; 1; 1; n]] broadcasts against a feature map
    [[b; h; w; n]] to the shape of the feature map. *)
Lemma broadcast_gate b h w n :
  broadcast_shapes [b; 1; 1; n] [b; h; w; n] = Some [b; h; w; n].
Proof.
  unfold broadcast_shapes. cbn [rev app broadcast_reversed].
  rewrite !Z.eqb_refl.
  destruct (Z.eqb_spec 1 w) as [<- | Hw], (Z.eqb_spec 1 h) as [<- | Hh];
    reflexivity.
Qed.

(** It does not broadcast against a feature map with another number of
    channels, unless one of the two numbers is 1. *)
Lemma broadcast_mismatch b h w n c :
  n <> c -> n <> 1 -> c <> 1 ->
  broadcast_shapes [b; 1; 1; n] [b; h; w; c] = None.
Proof.
  intros Hnc Hn Hc. unfold broadcast_shapes. cbn [rev app broadcast_reversed].
  rewrite (proj2 (Z.eqb_neq n c) Hnc), (proj2 (Z.eqb_neq n 1) Hn),
          (proj2 (Z.eqb_neq c 1) Hc).
  reflexivity.
Qed.

Section Block.

Context `{K : KerasLayers} (C : KerasLayersContract K).

(** Pooling, squeeze and excite give a gate of shape [[b; 1; 1; filters]],
    whatever the number of channels of the input is; the call is the
    product of the gate and the input. *)
Lemma gate_computed n ratio squeeze_activation excite_activation self inputs b h w c :
  SqueezeAndExciteBlock2D.__init__ (Int n) ratio squeeze_activation
    excite_activation = Ok self ->
  0 < SqueezeAndExciteBlock2D.bottleneck_filters self ->
  shape inputs = [b; h; w; c] -> dtype inputs = tf_float32 -> 0 < c ->
  0 < n /\
  exists gate,
    shape gate = [b; 1; 1; n] /\ dtype gate = tf_float32 /\
    forall training,
      SqueezeAndExciteBlock2D.call self inputs training =
      let? x := tf_math_multiply gate inputs in Ok x.
Proof.
  intros Hinit Hb Hs Hd Hc.
  destruct (squeeze_excite_init_sublayers C _ _ _ _ _ Hinit)
    as (Hn & _ & Hpool & Hsq & Hex).
  split; [exact Hn |].
  destruct (pooling_shape inputs b h w c Hs Hd) as (pooled & E1 & Hs1 & Hd1).
  destruct (conv_shape (SqueezeAndExciteBlock2D.bottleneck_filters self)
              squeeze_activation pooled b 1 1 c Hs1 Hd1 Hb Hc)
    as (squeezed & E2 & Hs2 & Hd2).
  destruct (conv_shape n excite_activation squeezed b 1 1 _ Hs2 Hd2 Hn Hb)
    as (gate & E3 & Hs3 & Hd3).
  exists gate. split; [exact Hs3 |]. split; [exact Hd3 |].
  intros training. unfold SqueezeAndExciteBlock2D.call.
  rewrite Hpool, E1. cbn [Result_bind]. rewrite Hsq, E2. cbn [Result_bind].
  rewrite Hex, E3. reflexivity.
Qed.

End Block.

(** X15. A block the constructor returned for [filters = n], with a
    bottleneck that is not empty, called on a float32 feature map
    [[b; h; w; n]] returns a float32 tensor of the shape of its input; the
    [training] flag plays no part. *)
Theorem squeeze_excite_call_shape `{K : KerasLayers} (C : KerasLayersContract K)
    n ratio squeeze_activation excite_activation self inputs training b h w :
  SqueezeAndExciteBlock2D.__init__ (Int n) ratio squeeze_activation
    excite_activation = Ok self ->
  0 < SqueezeAndExciteBlock2D.bottleneck_filters self ->
  shape inputs = [b; h; w; n] -> dtype inputs = tf_float32 ->
  exists out,
    SqueezeAndExciteBlock2D.call self inputs training = Ok out /\
    SqueezeAndExciteBlock2D.call self inputs (negb training) = Ok out /\
    shape out = shape inputs /\ dtype out = tf_float32.
Proof.
  intros Hinit Hb Hs Hd.
  assert (Hn : 0 < n) by (apply (squeeze_excite_init_sublayers C _ _ _ _ _ Hinit)).
  destruct (gate_computed C n _ _ _ self inputs b h w n Hinit Hb Hs Hd Hn)
    as (_ & gate & Hgs & Hgd & Hcall).
  rewrite !Hcall.
  pose proof (multiply_shape gate inputs Hgd Hd) as Hm.
  rewrite Hgs, Hs, broadcast_gate in Hm.
  destruct Hm as (out & -> & Hos & Hod).
  exists out. rewrite Hs. auto.
Qed.

Lemma squeeze_excite_call_shape_witness :
  exists out,
    SqueezeAndExciteBlock2D.call (H := blank_layers) example_block
      (blank [1; 5; 5; 16] tf_float32) true = Ok out /\
    SqueezeAndExciteBlock2D.call (H := blank_layers) example_block
      (blank [1; 5; 5; 16] tf_float32) (negb true) = Ok out /\
    shape out = shape (blank [1; 5; 5; 16] tf_float32) /\ dtype out = tf_float32.
Proof.
  apply (squeeze_excite_call_shape blank_layers_contract 16
           (Float (Float64.ratio 1 4)) "relu" "sigmoid" example_block
           (blank [1; 5; 5; 16] tf_float32) true 1 5 5).
  - vm_compute. reflexivity.
  - simpl. lia.
  - reflexivity.
  - reflexivity.
Defined.

(** X16. The same block called on a float32 feature map whose number of
    channels differs from [filters], neither of the two being 1, raises:
    pooling and the two convolutions go through, and the product of the
    gate [[b; 1; 1; filters]] with the input [[b; h; w; c]] does not
    broadcast. *)
Theorem squeeze_excite_call_channel_mismatch `{K : KerasLayers}
    (C : KerasLayersContract K) n ratio squeeze_activation excite_activation
    self inputs training b h w c :
  SqueezeAndExciteBlock2D.__init__ (Int n) ratio squeeze_activation
    excite_activation = Ok self ->
  0 < SqueezeAndExciteBlock2D.bottleneck_filters self ->
  shape inputs = [b; h; w; c] -> dtype inputs = tf_float32 ->
  0 < c -> c <> n -> c <> 1 -> n <> 1 ->
  exists message,
    SqueezeAndExciteBlock2D.call self inputs training =
    Raise (InvalidArgumentError message).
Proof.
  intros Hinit Hb Hs Hd Hc Hcn Hc1 Hn1.
  destruct (gate_computed C n _ _ _ self inputs b h w c Hinit Hb Hs Hd Hc)
    as (_ & gate & Hgs & Hgd & Hcall).
  rewrite Hcall.
  pose proof (multiply_shape gate inputs Hgd Hd) as Hm.
  rewrite Hgs, Hs, broadcast_mismatch in Hm by congruence.
  destruct Hm as (message & ->). exists message. reflexivity.
Qed.

Lemma squeeze_excite_call_channel_mismatch_witness :
  exists message,
    SqueezeAndExciteBlock2D.call (H := blank_layers) example_block
      (blank [1; 5; 5; 3] tf_float32) true = Raise (InvalidArgumentError message).
Proof.
  apply (squeeze_excite_call_channel_mismatch blank_layers_contract 16
           (Float (Float64.ratio 1 4)) "relu" "sigmoid" example_block
           (blank [1; 5; 5; 3] tf_float32) true 1 5 5 3).
  - vm_compute. reflexivity.
  - simpl. lia.
  - reflexivity.
  - reflexivity.
  - lia.
  - lia.
  - lia.
  - lia.
Defined.
